(** * FileOrganizer Pro: the batch engine of [file_organizer.py]

  A shallow embedding of the classification table, the duplicate-name
  policy, the work dispatchers and the AES-CBC container codec of
  [src/file_organizer.py], with the properties of the design document
  stated and settled against it.

  Conventions.
  - Python [str] is [string]; characters are 8-bit, so [str.lower] is the
    ASCII lowering.  Paths follow [posixpath].
  - Python [bytes] is [list byte] with [byte := N] (values below 256).
  - Library code that the program only calls (AES, PBKDF2, the zip format,
    the clock) is an interface, a class of operations with a class of laws;
    the theorems hold for every instance, and [Toy] gives small instances on
    which the program can be run. *)

From Stdlib Require Import String Ascii List ZArith NArith Lia Bool.
From Stdlib Require Import DecimalString DecimalNat.
From stdpp Require Import base option list gmap strings.
From Equations Require Import Equations.

Local Open Scope string_scope.
Local Open Scope list_scope.
Local Open Scope nat_scope.

(** ** Python string primitives *)

Module Py.

(** [len(s)] *)
Definition len (s : string) : Z := Z.of_nat (String.length s).

Fixpoint take (n : nat) (s : string) : string :=
  match n, s with
  | S n', String c r => String c (take n' r)
  | _, _ => ""
  end.

Fixpoint drop (n : nat) (s : string) : string :=
  match n, s with
  | S n', String _ r => drop n' r
  | _, _ => s
  end.

(** [s[:i]], with Python's reading of a negative bound. *)
Definition slice_to (i : Z) (s : string) : string :=
  if (i <? 0)%Z then take (Z.to_nat (len s + i)) s else take (Z.to_nat i) s.

(** [s[i:]] *)
Definition slice_from (i : Z) (s : string) : string :=
  if (i <? 0)%Z then drop (Z.to_nat (len s + i)) s else drop (Z.to_nat i) s.

(** [s[i:j]] for [0 <= i]. *)
Definition slice (i j : Z) (s : string) : string :=
  slice_to (j - i) (slice_from i s).

(** [s.rfind(c)]: index of the last occurrence of [c], or [-1]. *)
Fixpoint rfind (c : ascii) (s : string) : Z :=
  match s with
  | "" => -1
  | String a r =>
      let j := rfind c r in
      if (0 <=? j)%Z then (j + 1)%Z
      else if Ascii.eqb a c then 0%Z else (-1)%Z
  end.

Fixpoint startswith (s pre : string) : bool :=
  match pre, s with
  | "", _ => true
  | String a p', String b s' => Ascii.eqb a b && startswith s' p'
  | String _ _, "" => false
  end.

Definition endswith (s suf : string) : bool :=
  (String.length suf <=? String.length s)%nat
  && String.eqb (drop (String.length s - String.length suf) s) suf.

Fixpoint map (f : ascii -> ascii) (s : string) : string :=
  match s with
  | "" => ""
  | String c r => String (f c) (map f r)
  end.

Fixpoint existsb (f : ascii -> bool) (s : string) : bool :=
  match s with
  | "" => false
  | String c r => f c || existsb f r
  end.

Definition lower_char (c : ascii) : ascii :=
  let n := nat_of_ascii c in
  if ((65 <=? n) && (n <=? 90))%nat then ascii_of_nat (n + 32) else c.

Definition upper_char (c : ascii) : ascii :=
  let n := nat_of_ascii c in
  if ((97 <=? n) && (n <=? 122))%nat then ascii_of_nat (n - 32) else c.

(** [s.lower()] and [s.upper()] *)
Definition lower : string -> string := map lower_char.
Definition upper : string -> string := map upper_char.

(** [str(n)] for a non-negative integer. *)
Definition str (n : nat) : string := NilEmpty.string_of_uint (Nat.to_uint n).

(** [s.capitalize()] *)
Definition capitalize (s : string) : string :=
  match s with
  | "" => ""
  | String c r => String (upper_char c) (lower r)
  end.

(** [x in xs] for a list of strings. *)
Definition contains (xs : list string) (x : string) : bool :=
  List.existsb (String.eqb x) xs.

End Py.

(** ** [os.path] (posixpath) *)

Module posixpath.
Import Py.

(** [genericpath._splitext(p, '/', None, '.')] *)
Definition splitext (p : string) : string * string :=
  let sepIndex := rfind "/" p in
  let dotIndex := rfind "." p in
  if (sepIndex <? dotIndex)%Z then
    (* skip all leading dots *)
    if Py.existsb (fun c => negb (Ascii.eqb c "."))
                  (slice (sepIndex + 1) dotIndex p)
    then (slice_to dotIndex p, slice_from dotIndex p)
    else (p, "")
  else (p, "").

Definition basename (p : string) : string :=
  let i := (rfind "/" p + 1)%Z in
  slice_from i p.

(** [head.rstrip('/')] *)
Fixpoint rstrip_sep (s : string) : string :=
  match s with
  | "" => ""
  | String c r =>
      match rstrip_sep r with
      | "" => if Ascii.eqb c "/" then "" else String c ""
      | r' => String c r'
      end
  end.

Definition all_sep (s : string) : bool :=
  negb (Py.existsb (fun c => negb (Ascii.eqb c "/")) s).

Definition dirname (p : string) : string :=
  let i := (rfind "/" p + 1)%Z in
  let head := slice_to i p in
  if negb (String.eqb head "") && negb (all_sep head)
  then rstrip_sep head else head.

(** [join(a, b)] *)
Definition join (a b : string) : string :=
  if startswith b "/" then b
  else if String.eqb a "" || endswith a "/" then a +:+ b
  else a +:+ "/" +:+ b.

Definition join3 (a b c : string) : string := join (join a b) c.

End posixpath.

(** ** Constants *)

Definition DEFAULT_ENCRYPTION_EXTENSION : string := ".encrypted".
Definition BUFFER_SIZE : nat := Z.to_nat 65536.

(** File type categories and their extensions, in the order of the
    dictionary literal (iteration order of a Python dict). *)
Definition FILE_CATEGORIES : list (string * list string) :=
  [ ("Images", [".jpg"; ".jpeg"; ".png"; ".gif"; ".bmp"; ".tiff"; ".webp"; ".svg"; ".ico"; ".heic"]);
    ("Videos", [".mp4"; ".avi"; ".mov"; ".wmv"; ".flv"; ".mkv"; ".webm"; ".m4v"; ".3gp"; ".mpeg"]);
    ("Audio", [".mp3"; ".wav"; ".ogg"; ".flac"; ".aac"; ".wma"; ".m4a"; ".opus"]);
    ("Documents", [".doc"; ".docx"; ".odt"]);
    ("PDF", [".pdf"]);
    ("Excel", [".xls"; ".xlsx"; ".csv"; ".ods"]);
    ("PowerPoint", [".ppt"; ".pptx"; ".odp"; ".key"]);
    ("Text", [".txt"; ".rtf"; ".md"]);
    ("Archives", [".zip"; ".rar"; ".7z"; ".tar"; ".gz"; ".bz2"; ".xz"; ".iso"]);
    ("Code", [".py"; ".js"; ".html"; ".css"; ".java"; ".cpp"; ".c"; ".h"; ".php"; ".rb"; ".go"; ".ts"; ".json"; ".xml"]);
    ("Executables", [".exe"; ".msi"; ".app"; ".dmg"; ".deb"; ".rpm"]);
    ("APK", [".apk"]);
    ("OneNote", [".one"; ".onetoc2"]);
    ("Encrypted", [".encrypted"; ".enc"; ".aes"]);
    ("Others", []) ].

(** The closed set of category labels of the design document. *)
Definition Category_labels : list string :=
  [ "Images"; "Videos"; "Audio"; "Documents"; "PDF"; "Excel"; "PowerPoint";
    "Text"; "Archives"; "Code"; "Executables"; "APK"; "OneNote"; "Encrypted";
    "Others" ].

(** ** Classification *)

(** The [for category, extensions in FILE_CATEGORIES.items()] loop, with
    the [return "Others"] that follows it. *)
Fixpoint get_file_category_loop (ext : string)
    (items : list (string * list string)) : string :=
  match items with
  | [] => "Others"
  | (category, extensions) :: rest =>
      if Py.contains extensions ext then category
      else get_file_category_loop ext rest
  end.

Definition get_file_category (file_path : string) : string :=
  let ext := Py.lower (snd (posixpath.splitext file_path)) in
  get_file_category_loop ext FILE_CATEGORIES.

(** An extension is in the table when some category lists it. *)
Definition in_table (ext : string) : bool :=
  List.existsb (fun item => Py.contains (snd item) ext) FILE_CATEGORIES.


(** ** Bytes *)

Definition byte := N.
Definition bytes := list byte.

(** [s.encode()] on the 8-bit characters of the model. *)
Definition str_encode (s : string) : bytes :=
  List.map N_of_ascii (list_ascii_of_string s).

(** ** The libraries the program calls *)

(** [hashlib.pbkdf2_hmac('sha256', password.encode(), salt, iterations,
    dklen)] and the AES block function of a key on one 16-byte block, with
    its inverse. *)
Class CryptoLib := {
  pbkdf2_hmac_sha256 : string -> bytes -> N -> nat -> bytes;
  AES_encrypt_block : bytes -> bytes -> bytes;
  AES_decrypt_block : bytes -> bytes -> bytes
}.

(** What AES guarantees: under one key, decryption inverts encryption on a
    block, and a block is mapped to a block. *)
Class CryptoLaws (C : CryptoLib) : Prop := {
  AES_decrypt_encrypt_block :
    forall key b, length b = 16 -> AES_decrypt_block key (AES_encrypt_block key b) = b;
  AES_encrypt_block_length :
    forall key b, length b = 16 -> length (AES_encrypt_block key b) = 16
}.

(** A member of a zip archive: its name relative to the archive root and its
    bytes, [None] for a directory entry. *)
Definition zip_member : Type := string * option bytes.

(** The zip format: the bytes of an archive with the given members, and the
    members of an archive read back ([None]: not a zip file). *)
Class ZipLib := {
  zip_pack : list zip_member -> bytes;
  zip_unpack : bytes -> option (list zip_member)
}.

Class ZipLaws (Z : ZipLib) : Prop := {
  zip_unpack_pack : forall members, zip_unpack (zip_pack members) = Some members
}.

(** [datetime.datetime.fromtimestamp(t).strftime("%Y-%m-%d")] *)
Class TimeLib := {
  strftime_Ymd : Z -> string
}.

(** ** Exceptions *)

Inductive exn :=
| ValueError (msg : string)
| FileNotFoundError (path : string)
| IsADirectoryError (path : string)
| NotADirectoryError (path : string)
| FileExistsError (path : string)
| SameFileError (path : string)
| BadZipFile
| TypeError (msg : string)
| Diverges.  (* no Python exception: a [while] loop that would not end *)

(** [str(e)] *)
Definition exn_str (e : exn) : string :=
  match e with
  | ValueError msg => msg
  | FileNotFoundError p => "[Errno 2] No such file or directory: '" +:+ p +:+ "'"
  | IsADirectoryError p => "[Errno 21] Is a directory: '" +:+ p +:+ "'"
  | NotADirectoryError p => "[Errno 20] Not a directory: '" +:+ p +:+ "'"
  | FileExistsError p => "[Errno 17] File exists: '" +:+ p +:+ "'"
  | SameFileError p => "'" +:+ p +:+ "' and '" +:+ p +:+ "' are the same file"
  | BadZipFile => "File is not a zip file"
  | TypeError msg => msg
  | Diverges => ""
  end.

Inductive result (A : Type) :=
| Ok (a : A)
| Raise (e : exn).
Arguments Ok {A} a.
Arguments Raise {A} e.

(** ** The world a worker runs in *)

(** A filesystem entry; a file carries its bytes and modification time. *)
Inductive node :=
| File (data : bytes) (mtime : Z)
| Dir.

(** What a task sees and changes:
    - [fs]: every existing path, as the string the program uses for it
      (paths are canonical: no trailing separator, no [.] or [..]; the root
      [/] is an entry like any other);
    - [random], [drawn]: the bytes the system generator delivers and how many
      were taken;
    - [now]: the clock;
    - [statuses]: the texts sent on the [status_updated] signal, oldest
      first.  Only tasks emit on it, from the pool's threads. *)
Record World := mkWorld {
  fs : gmap string node;
  random : nat -> byte;
  drawn : nat;
  now : Z;
  statuses : list string
}.

Definition with_fs (f : gmap string node -> gmap string node) (w : World) : World :=
  mkWorld (f (fs w)) (random w) (drawn w) (now w) (statuses w).

Definition with_drawn (n : nat) (w : World) : World :=
  mkWorld (fs w) (random w) n (now w) (statuses w).

Definition with_status (text : string) (w : World) : World :=
  mkWorld (fs w) (random w) (drawn w) (now w) (statuses w ++ [text]).

(** The signals the worker thread itself emits, in [run]. *)
Inductive signal :=
| progress_updated (current total : nat)
| operation_completed (success : bool) (message : string)
| file_processed (source destination : string).

(** What [run] sees and changes, beyond the world of its tasks:
    - [cancel_at], [flag_reads]: [cancel()] runs on another thread; [run]
      sees [is_cancelled] false on its first [cancel_at] reads and true from
      then on ([None]: nobody cancels);
    - [signals]: what [run] emitted, oldest first. *)
Record Dispatcher := mkDispatcher {
  world : World;
  cancel_at : option nat;
  flag_reads : nat;
  signals : list signal
}.

Definition with_world (w : World) (d : Dispatcher) : Dispatcher :=
  mkDispatcher w (cancel_at d) (flag_reads d) (signals d).

Definition with_flag_reads (n : nat) (d : Dispatcher) : Dispatcher :=
  mkDispatcher (world d) (cancel_at d) n (signals d).

Definition with_signal (s : signal) (d : Dispatcher) : Dispatcher :=
  mkDispatcher (world d) (cancel_at d) (flag_reads d) (signals d ++ [s]).

(** ** Computations: state and exceptions *)

Definition ST (S A : Type) : Type := S -> result A * S.

#[global] Instance ST_ret {S} : MRet (ST S) := fun A (a : A) w => (Ok a, w).

#[global] Instance ST_bind {S} : MBind (ST S) :=
  fun A B (f : A -> ST S B) (m : ST S A) w =>
  match m w with
  | (Ok a, w') => f a w'
  | (Raise e, w') => (Raise e, w')
  end.

(** Tasks and filesystem calls run in [M], [run] in [D]. *)
Abbreviation M := (ST World).
Abbreviation D := (ST Dispatcher).

Definition raise {S A} (e : exn) : ST S A := fun w => (Raise e, w).

Definition get_world : M World := fun w => (Ok w, w).

Definition lift {S A} (r : result A) : ST S A := fun w => (r, w).

(** A step of a task, seen from [run]. *)
Definition in_world {A} (m : M A) : D A := fun d =>
  match m (world d) with
  | (r, w') => (r, with_world w' d)
  end.

(** [try: body  except Exception as e: handler e] *)
Definition try_except {S A} (body : ST S A) (handler : exn -> ST S A) : ST S A :=
  fun w =>
  match body w with
  | (Ok a, w') => (Ok a, w')
  | (Raise e, w') => handler e w'
  end.

(** [try: body  except ValueError as e: handler e] *)
Definition try_except_ValueError {S A} (body : ST S A) (handler : string -> ST S A)
  : ST S A :=
  fun w =>
  match body w with
  | (Raise (ValueError msg), w') => handler msg w'
  | r => r
  end.

(** [try: body  finally: final] *)
Definition try_finally {S A} (body : ST S A) (final : ST S unit) : ST S A := fun w =>
  match body w with
  | (r, w') =>
      match final w' with
      | (Ok _, w'') => (r, w'')
      | (Raise e, w'') => (Raise e, w'')
      end
  end.

(** [self.status_updated.emit(text)] *)
Definition status_updated (text : string) : M unit := fun w =>
  (Ok tt, with_status text w).

(** [signal.emit(...)] for the signals of [run]. *)
Definition emit (s : signal) : D unit := fun d => (Ok tt, with_signal s d).

(** ** The filesystem calls *)

Definition exists_in (m : gmap string node) (p : string) : bool :=
  match m !! p with Some _ => true | None => false end.

Definition isdir_in (m : gmap string node) (p : string) : bool :=
  match m !! p with Some Dir => true | _ => false end.

(** [os.path.exists(p)] *)
Definition os_path_exists (p : string) : M bool :=
  w ← get_world; mret (exists_in (fs w) p).

(** [os.path.isdir(p)] *)
Definition os_path_isdir (p : string) : M bool :=
  w ← get_world; mret (isdir_in (fs w) p).

(** A new entry needs its parent directory; the empty parent is the current
    directory. *)
Definition check_parent (m : gmap string node) (p : string) : result unit :=
  let d := posixpath.dirname p in
  if String.eqb d "" then Ok tt
  else match m !! d with
       | Some Dir => Ok tt
       | Some (File _ _) => Raise (NotADirectoryError p)
       | None => Raise (FileNotFoundError p)
       end.

(** [open(p, 'rb')]: the handle is the bytes still to be read. *)
Definition open_rb (p : string) : M bytes := fun w =>
  match fs w !! p with
  | Some (File data _) => (Ok data, w)
  | Some Dir => (Raise (IsADirectoryError p), w)
  | None => (Raise (FileNotFoundError p), w)
  end.

(** [open(p, 'wb')]: creates or truncates; the handle is the path. *)
Definition open_wb (p : string) : M string := fun w =>
  match fs w !! p with
  | Some Dir => (Raise (IsADirectoryError p), w)
  | _ =>
      match check_parent (fs w) p with
      | Ok _ => (Ok p, with_fs (insert p (File [] (now w))) w)
      | Raise e => (Raise e, w)
      end
  end.

(** [outfile.write(data)] *)
Definition write (outfile : string) (data : bytes) : M unit := fun w =>
  (Ok tt,
   with_fs (alter (fun n => match n with
                            | File d _ => File (d ++ data) (now w)
                            | Dir => Dir
                            end) outfile) w).

(** [infile.read(n)] on the bytes still to be read. *)
Definition read (n : nat) (infile : bytes) : bytes * bytes :=
  (take n infile, drop n infile).

(** [os.getmtime(p)] *)
Definition os_path_getmtime (p : string) : M Z := fun w =>
  match fs w !! p with
  | Some (File _ t) => (Ok t, w)
  | Some Dir => (Ok (now w), w)
  | None => (Raise (FileNotFoundError p), w)
  end.

(** [os.mkdir(p)] *)
Definition os_mkdir (p : string) : M unit := fun w =>
  match fs w !! p with
  | Some _ => (Raise (FileExistsError p), w)
  | None =>
      match check_parent (fs w) p with
      | Ok _ => (Ok tt, with_fs (insert p Dir) w)
      | Raise e => (Raise e, w)
      end
  end.

(** [os.remove(p)] *)
Definition os_remove (p : string) : M unit := fun w =>
  match fs w !! p with
  | Some (File _ _) => (Ok tt, with_fs (delete p) w)
  | Some Dir => (Raise (IsADirectoryError p), w)
  | None => (Raise (FileNotFoundError p), w)
  end.

(** [k] is [d] or lies below it. *)
Definition under (d k : string) : bool :=
  String.eqb k d || Py.startswith k (d +:+ "/").

(** [shutil.rmtree(p)] *)
Definition shutil_rmtree (p : string) : M unit := fun w =>
  match fs w !! p with
  | Some Dir => (Ok tt, with_fs (filter (fun kv => under p (fst kv) = false)) w)
  | Some (File _ _) => (Raise (NotADirectoryError p), w)
  | None => (Raise (FileNotFoundError p), w)
  end.

(** The entries below [d], keyed by what follows [d] in their path (the empty
    string for [d] itself, [/name...] for what lies below). *)
Definition subtree (d : string) (m : gmap string node) : gmap string node :=
  list_to_map
    (omap (fun kv => if under d (fst kv)
                     then Some (Py.drop (String.length d) (fst kv), snd kv)
                     else None)
          (map_to_list m)).

(** The tree [t] (keyed as by [subtree]) put at [d]. *)
Definition graft (d : string) (t : gmap string node) (m : gmap string node)
  : gmap string node :=
  kmap (String.append d) t ∪ m.

(** [shutil.copytree(src, dst)] *)
Definition shutil_copytree (src dst : string) : M unit := fun w =>
  match fs w !! src with
  | Some Dir =>
      match fs w !! dst with
      | Some _ => (Raise (FileExistsError dst), w)
      | None =>
          match check_parent (fs w) dst with
          | Ok _ => (Ok tt, with_fs (graft dst (subtree src (fs w))) w)
          | Raise e => (Raise e, w)
          end
      end
  | Some (File _ _) => (Raise (NotADirectoryError src), w)
  | None => (Raise (FileNotFoundError src), w)
  end.

(** [shutil.copy2(src, dst)]: the bytes and the modification time. *)
Definition shutil_copy2 (src dst : string) : M unit := fun w =>
  let dst := if isdir_in (fs w) dst
             then posixpath.join dst (posixpath.basename src) else dst in
  if String.eqb src dst then (Raise (SameFileError src), w) else
  match fs w !! src with
  | Some (File data t) =>
      match fs w !! dst with
      | Some Dir => (Raise (IsADirectoryError dst), w)
      | _ =>
          match check_parent (fs w) dst with
          | Ok _ => (Ok tt, with_fs (insert dst (File data t)) w)
          | Raise e => (Raise e, w)
          end
      end
  | Some Dir => (Raise (IsADirectoryError src), w)
  | None => (Raise (FileNotFoundError src), w)
  end.

(** [os.rename(src, dst)] for a source that is a file. *)
Definition os_rename (src dst : string) : M unit := fun w =>
  match fs w !! src with
  | Some (File data t) =>
      match fs w !! dst with
      | Some Dir => (Raise (IsADirectoryError dst), w)
      | _ =>
          match check_parent (fs w) dst with
          | Ok _ => (Ok tt, with_fs (fun m => insert dst (File data t) (delete src m)) w)
          | Raise e => (Raise e, w)
          end
      end
  | Some Dir =>
      match fs w !! dst with
      | Some _ => (Raise (FileExistsError dst), w)
      | None =>
          (Ok tt,
           with_fs (fun m => graft dst (subtree src m)
                               (filter (fun kv => under src (fst kv) = false) m)) w)
      end
  | None => (Raise (FileNotFoundError src), w)
  end.

(** To keep the equation of a matched value (the Equations idiom). *)
Definition inspect {A} (a : A) : {b | a = b} := exist _ a eq_refl.

(** [os.makedirs] recurses on the parent path; it ends because the parent is
    strictly shorter. *)

Lemma rfind_bounds c s : (-1 <= Py.rfind c s < Z.of_nat (String.length s))%Z.
Proof.
  induction s as [|a s IH]; simpl String.length; cbn [Py.rfind]; [lia |].
  destruct (0 <=? Py.rfind c s)%Z eqn:E; [lia |].
  destruct (Ascii.eqb a c); lia.
Qed.

Lemma str_length_take n s : String.length (Py.take n s) = Nat.min n (String.length s).
Proof.
  revert s; induction n as [|n IH]; intros [|a s]; simpl; try reflexivity.
  now rewrite IH.
Qed.

Lemma str_length_drop n s : String.length (Py.drop n s) = String.length s - n.
Proof.
  revert s; induction n as [|n IH]; intros [|a s]; simpl; try reflexivity.
  apply IH.
Qed.

Lemma rstrip_sep_length s :
  String.length (posixpath.rstrip_sep s) <= String.length s.
Proof.
  induction s as [|a s IH]; simpl; [lia |].
  destruct (posixpath.rstrip_sep s) eqn:E.
  - destruct (Ascii.eqb a "/"); simpl; lia.
  - simpl in *. lia.
Qed.

Lemma dirname_basename_length p :
  String.length (posixpath.dirname p) + String.length (posixpath.basename p)
  <= String.length p.
Proof.
  unfold posixpath.dirname, posixpath.basename, Py.slice_to, Py.slice_from.
  pose proof (rfind_bounds "/" p) as Hb.
  replace (Py.rfind "/" p + 1 <? 0)%Z with false by (symmetry; apply Z.ltb_ge; lia).
  set (i := Z.to_nat (Py.rfind "/" p + 1)).
  assert (i <= String.length p) by lia.
  rewrite str_length_drop.
  destruct (_ && _).
  - pose proof (rstrip_sep_length (Py.take i p)) as Hs.
    rewrite str_length_take in Hs. lia.
  - rewrite str_length_take. lia.
Qed.

Lemma dirname_shorter p :
  posixpath.basename p <> "" ->
  String.length (posixpath.dirname p) < String.length p.
Proof.
  intros Hne. pose proof (dirname_basename_length p).
  destruct (posixpath.basename p); [congruence | simpl in *; lia].
Qed.

(** [head, tail = path.split(name); if not tail: head, tail = path.split(head)] *)
Definition makedirs_split (name : string) : string * string :=
  let head := posixpath.dirname name in
  let tail := posixpath.basename name in
  if String.eqb tail "" then (posixpath.dirname head, posixpath.basename head)
  else (head, tail).

Lemma makedirs_split_shorter name head tail :
  makedirs_split name = (head, tail) ->
  negb (String.eqb head "") && negb (String.eqb tail "") = true ->
  String.length head < String.length name.
Proof.
  unfold makedirs_split. intros Heq Hc.
  apply andb_prop in Hc as [_ Ht]. apply negb_true_iff, String.eqb_neq in Ht.
  destruct (String.eqb (posixpath.basename name) "").
  - injection Heq as <- <-.
    pose proof (dirname_shorter _ Ht).
    pose proof (dirname_basename_length name). lia.
  - injection Heq as <- <-. now apply dirname_shorter.
Qed.

(** The subclasses of [OSError] among the exceptions. *)
Definition is_OSError (e : exn) : bool :=
  match e with
  | FileNotFoundError _ | IsADirectoryError _ | NotADirectoryError _
  | FileExistsError _ | SameFileError _ => true
  | _ => false
  end.

(** The end of [os.makedirs]: [mkdir], forgiving an existing directory. *)
Definition makedirs_mkdir (name : string) (exist_ok : bool) : M unit :=
  try_except (os_mkdir name)
    (fun e =>
       if is_OSError e then
         isdir ← os_path_isdir name;
         if negb exist_ok || negb isdir then raise e else mret tt
       else raise e).

(** [os.makedirs(name, exist_ok=exist_ok)] *)
Equations? os_makedirs (name : string) (exist_ok : bool) (w : World)
  : result unit * World by wf (String.length name) lt :=
os_makedirs name exist_ok w with inspect (makedirs_split name) := {
  | exist _ (head_, tail_) Heq
    with inspect (negb (String.eqb head_ "") && negb (String.eqb tail_ "")) := {
    | exist _ true Hc =>
        if exists_in (fs w) head_ then makedirs_mkdir name exist_ok w
        else
          ((_ ← try_except ((fun w' => os_makedirs head_ exist_ok w') : M unit)
                 (fun e => match e with
                           | FileExistsError _ => mret tt
                           | _ => raise e
                           end);
            if String.eqb tail_ "." then mret tt
            else makedirs_mkdir name exist_ok) : M unit) w
    | exist _ false _ => makedirs_mkdir name exist_ok w } }.
Proof. eapply makedirs_split_shorter; eauto. Qed.

(** [for x in xs: body x] *)
Fixpoint for_each {A} (xs : list A) (body : A -> M unit) : M unit :=
  match xs with
  | [] => mret tt
  | x :: rest => _ ← body x; for_each rest body
  end.

(** The name of [k] when it is an entry of the directory [root]. *)
Definition child_name (root k : string) : option string :=
  if Py.startswith k (root +:+ "/") then
    let name := Py.drop (String.length root + 1) k in
    if String.eqb name "" || Py.existsb (fun c => Ascii.eqb c "/") name
    then None else Some name
  else None.

(** The names [os.scandir(root)] gives, the subdirectories when [want_dir]
    and the other entries when not, in the order of the keys. *)
Definition scandir_names (m : gmap string node) (root : string) (want_dir : bool)
  : list string :=
  omap (fun kv => match child_name root (fst kv), snd kv with
                  | Some name, Dir => if want_dir then Some name else None
                  | Some name, File _ _ => if want_dir then None else Some name
                  | None, _ => None
                  end) (map_to_list m).

(** The length of the longest path of the tree. *)
Definition longest_path (m : gmap string node) : nat :=
  max_list (List.map (fun kv => String.length (fst kv)) (map_to_list m)).

(** [os.walk(top)], top-down: the directory, the names of its subdirectories
    and the names of its files, then the walk of each subdirectory.  Every
    level makes the path longer, so the longest path of the tree bounds the
    depth ([os_walk_loop_enough]). *)
Fixpoint os_walk_loop (m : gmap string node) (fuel : nat) (top : string)
  : list (string * list string * list string) :=
  match fuel with
  | 0 => []
  | S fuel' =>
      let dirs := scandir_names m top true in
      let nondirs := scandir_names m top false in
      (top, dirs, nondirs)
      :: concat (List.map (fun dirname =>
                             os_walk_loop m fuel' (posixpath.join top dirname)) dirs)
  end.

(** The listing is that of the tree when the walk starts; a [top] that is
    not a directory gives nothing. *)
Definition os_walk (top : string) (m : gmap string node)
  : list (string * list string * list string) :=
  if isdir_in m top then os_walk_loop m (S (longest_path m)) top else [].

(** [os.path.relpath(root, start)] for a [root] that [os.walk(start)] gave. *)
Definition relpath (root start : string) : string :=
  if String.eqb root start then "."
  else Py.drop (String.length start + 1) root.

(** The members [shutil.make_archive] stores for a directory: every entry
    below it, by its relative name. *)
Definition archive_members (root_dir : string) (m : gmap string node)
  : list zip_member :=
  omap (fun kv =>
          if Py.startswith (fst kv) (root_dir +:+ "/") then
            Some (Py.drop (String.length root_dir + 1) (fst kv),
                  match snd kv with
                  | File data _ => Some data
                  | Dir => None
                  end)
          else None)
       (map_to_list m).

(** [shutil.make_archive(base_name, 'zip', root_dir)] *)
Definition shutil_make_archive {Zp : ZipLib} (base_name root_dir : string) : M unit :=
  w ← get_world;
  match fs w !! root_dir with
  | Some Dir =>
      let archive_dir := posixpath.dirname base_name in
      _ ← (if negb (String.eqb archive_dir "") && negb (exists_in (fs w) archive_dir)
           then (os_makedirs archive_dir false : M unit) else mret tt);
      outfile ← open_wb (base_name +:+ ".zip");
      write outfile (zip_pack (archive_members root_dir (fs w)))
  | Some (File _ _) => raise (NotADirectoryError root_dir)
  | None => raise (FileNotFoundError root_dir)
  end.

(** [ZipFile._extract_member(member, dest)]: a directory is created, a file
    is written after its parent directories are. *)
Definition extract_member (dest : string) (member : zip_member) : M unit :=
  let target := posixpath.join dest (fst member) in
  match snd member return M unit with
  | None =>
      isdir ← os_path_isdir target;
      if isdir : bool then mret tt else (os_makedirs target true : M unit)
  | Some data =>
      let upperdirs := posixpath.dirname target in
      ex ← os_path_exists upperdirs;
      _ ← (if negb (String.eqb upperdirs "") && negb ex
           then (os_makedirs upperdirs true : M unit) else mret tt);
      outfile ← open_wb target;
      write outfile data
  end.

(** [zipfile.ZipFile(zip_path, 'r').extractall(dest)] *)
Definition zipfile_extractall {Zp : ZipLib} (zip_path dest : string) : M unit :=
  data ← open_rb zip_path;
  match zip_unpack data with
  | None => raise BadZipFile
  | Some members => for_each members (extract_member dest)
  end.

(** ** Randomness, key derivation, padding and AES-CBC *)

(** [Crypto.Random.get_random_bytes(n)]: the next [n] bytes of the source. *)
Definition get_random_bytes (n : nat) : M bytes := fun w =>
  (Ok (List.map (random w) (seq (drawn w) n)), with_drawn (drawn w + n) w).

Definition derive_key_from_password {C : CryptoLib} (password : string)
    (salt : option bytes) : M (bytes * bytes) :=
  salt ← match salt with
         | None => get_random_bytes 16
         | Some salt => mret salt
         end;
  (* Use PBKDF2 to derive a key from the password *)
  let key := pbkdf2_hmac_sha256 password salt 100000%N 32 in
  mret (key, salt).

(** [Crypto.Util.Padding.pad(data, block_size)], PKCS#7. *)
Definition pad (data_to_pad : bytes) (block_size : nat) : bytes :=
  let padding_len := block_size - length data_to_pad mod block_size in
  data_to_pad ++ repeat (N.of_nat padding_len) padding_len.

(** [Crypto.Util.Padding.unpad(padded_data, block_size)], PKCS#7. *)
Definition unpad (padded_data : bytes) (block_size : nat) : result bytes :=
  let pdata_len := length padded_data in
  if pdata_len =? 0 then Raise (ValueError "Zero-length input cannot be unpadded")
  else if negb (pdata_len mod block_size =? 0)
  then Raise (ValueError "Input data is not padded")
  else
    let padding_len := N.to_nat (List.last padded_data 0%N) in
    if (padding_len <? 1) || (Nat.min block_size pdata_len <? padding_len)
    then Raise (ValueError "Padding is incorrect.")
    else if negb (bool_decide (drop (pdata_len - padding_len) padded_data
                               = repeat (N.of_nat padding_len) padding_len))
    then Raise (ValueError "PKCS#7 padding is incorrect.")
    else Ok (take (pdata_len - padding_len) padded_data).

Definition xor_bytes (a b : bytes) : bytes := zip_with N.lxor a b.

(** CBC over whole blocks: each plaintext block is xored with the previous
    ciphertext block (the IV at first) and encrypted.  Returns the ciphertext
    and the last ciphertext block, which chains into the next call. *)
Equations? cbc_encrypt {C : CryptoLib} (key chain data : bytes) : bytes * bytes
  by wf (length data) lt :=
cbc_encrypt key chain [] := ([], chain);
cbc_encrypt key chain (b :: r) :=
  let c := AES_encrypt_block key (xor_bytes (take 16 (b :: r)) chain) in
  let rest := cbc_encrypt key c (drop 16 (b :: r)) in
  (c ++ fst rest, snd rest).
Proof. rewrite length_drop. simpl. lia. Qed.

Equations? cbc_decrypt {C : CryptoLib} (key chain data : bytes) : bytes * bytes
  by wf (length data) lt :=
cbc_decrypt key chain [] := ([], chain);
cbc_decrypt key chain (b :: r) :=
  let c := take 16 (b :: r) in
  let rest := cbc_decrypt key c (drop 16 (b :: r)) in
  (xor_bytes (AES_decrypt_block key c) chain ++ fst rest, snd rest).
Proof. rewrite length_drop. simpl. lia. Qed.

(** The cipher object of [AES.new(key, AES.MODE_CBC, iv)]: the key and the
    chaining block. *)
Record Cipher := mkCipher { cipher_key : bytes; cipher_chain : bytes }.

(** [AES.new(key, AES.MODE_CBC, iv)]; the key is the 32 bytes PBKDF2 was asked
    for, the IV must have 16. *)
Definition AES_new (key iv : bytes) : result Cipher :=
  if length iv =? 16 then Ok (mkCipher key iv)
  else Raise (ValueError "Incorrect IV length (it must be 16 bytes long)").

(** [cipher.encrypt(data)] *)
Definition cipher_encrypt {C : CryptoLib} (cipher : Cipher) (data : bytes)
  : result (bytes * Cipher) :=
  if length data mod 16 =? 0 then
    let r := cbc_encrypt (cipher_key cipher) (cipher_chain cipher) data in
    Ok (fst r, mkCipher (cipher_key cipher) (snd r))
  else Raise (ValueError "Data must be padded to 16 byte boundary in CBC mode").

(** [cipher.decrypt(data)] *)
Definition cipher_decrypt {C : CryptoLib} (cipher : Cipher) (data : bytes)
  : result (bytes * Cipher) :=
  if length data mod 16 =? 0 then
    let r := cbc_decrypt (cipher_key cipher) (cipher_chain cipher) data in
    Ok (fst r, mkCipher (cipher_key cipher) (snd r))
  else Raise (ValueError "Data must be padded to 16 byte boundary in CBC mode").

(** What [_encrypt_file] hands to the cipher, over the whole file: the
    content, padded only when its length is not a multiple of 16. *)
Definition padded_plaintext (content : bytes) : bytes :=
  if length content mod 16 =? 0 then content else pad content 16.

(** ** Duplicate names: the [while os.path.exists(path)] loops *)

(** One loop serves the three places: [body counter path] is the path the
    loop body assigns, [counter] starts at 1.  [None] when [fuel] bodies were
    not enough. *)
Fixpoint while_exists_loop (m : gmap string node) (body : nat -> string -> string)
    (fuel counter : nat) (path : string) : option string :=
  if exists_in m path then
    match fuel with
    | 0 => None
    | S fuel' => while_exists_loop m body fuel' (S counter) (body counter path)
    end
  else Some path.

(** The loop in a world: one body more than there are entries is always
    enough ([while_exists_ends]). *)
Definition while_exists (body : nat -> string -> string) (path : string) : M string :=
  w ← get_world;
  match while_exists_loop (fs w) body (S (size (fs w))) 1 path with
  | Some p => mret p
  | None => raise Diverges
  end.

(** ** The thread pool *)

(** A future holds what its task returned or raised.  The pool is run under
    the schedule in which a task has finished when [submit] returns; what the
    dispatcher emits depends only on the futures' results. *)
Definition Future (A : Type) : Type := result A.

(** [executor.submit(task)] *)
Definition executor_submit {A} (task : M A) : D (Future A) := fun d =>
  match task (world d) with
  | (r, w') => (Ok r, with_world w' d)
  end.

(** [future.result()] *)
Definition future_result {A} (future : Future A) : D A := lift future.

(** Reading [self.is_cancelled]. *)
Definition is_cancelled : D bool := fun d =>
  (Ok (match cancel_at d with
       | Some n => n <=? flag_reads d
       | None => false
       end),
   with_flag_reads (S (flag_reads d)) d).

(** [cancel()]: from now on the flag reads true; it is never unset. *)
Definition cancel : D unit := fun d =>
  (Ok tt,
   mkDispatcher (world d)
     (Some (match cancel_at d with
            | Some n => Nat.min n (flag_reads d)
            | None => flag_reads d
            end))
     (flag_reads d) (signals d)).

(** ** The encryption worker *)

Module EncryptionWorker.

Record self := mk {
  files : list string;
  password : string;
  operation : string;  (* "encrypt" or "decrypt" *)
  remove_originals : bool
}.

(** The [while True] loop of [_encrypt_file], reading [size] bytes at a time
    ([size] is [BUFFER_SIZE]). *)
Equations? _encrypt_file_loop {C : CryptoLib} (size : nat) (cipher : Cipher)
    (infile : bytes) (outfile : string) (w : World) : result unit * World
  by wf (length infile) lt :=
_encrypt_file_loop size cipher infile outfile w with inspect (take size infile) := {
  | exist _ [] _ => (Ok tt, w)  (* len(chunk) == 0: break *)
  | exist _ (b :: c) Heq =>
      let chunk := b :: c in
      (* If this is the last chunk, pad it *)
      let chunk := if negb (length chunk mod 16 =? 0) then pad chunk 16 else chunk in
      (* Encrypt and write the chunk *)
      ((r ← lift (cipher_encrypt cipher chunk);
        _ ← write outfile (fst r);
        ((fun w' => _encrypt_file_loop size (snd r) (drop size infile) outfile w')
         : M unit))
       : M unit) w }.
Proof.
  destruct infile as [|x l]; [now rewrite take_nil in Heq |].
  destruct size; [discriminate |].
  rewrite length_drop. cbn [length]. lia.
Qed.

(** Encrypt a file using AES-256 *)
Definition _encrypt_file {C : CryptoLib} (s : self)
    (input_path output_path : string) : M unit :=
  (* Generate a random salt *)
  salt ← get_random_bytes 16;
  (* Derive key from password *)
  ks ← derive_key_from_password (password s) (Some salt);
  let key := fst ks in
  (* Generate a random IV (initialization vector) *)
  iv ← get_random_bytes 16;
  (* Create cipher *)
  cipher ← lift (AES_new key iv);
  infile ← open_rb input_path;
  outfile ← open_wb output_path;
  (* Write salt and IV to the output file *)
  _ ← write outfile salt;
  _ ← write outfile iv;
  (* Process file in chunks *)
  _encrypt_file_loop BUFFER_SIZE cipher infile outfile.

(** Decrypt a file using AES-256 *)
Definition _decrypt_file {C : CryptoLib} (s : self)
    (input_path output_path : string) : M unit :=
  infile ← open_rb input_path;
  (* Read salt and IV from the file *)
  let '(salt, infile) := read 16 infile in
  let '(iv, infile) := read 16 infile in
  (* Derive key from password and salt *)
  ks ← derive_key_from_password (password s) (Some salt);
  let key := fst ks in
  (* Create cipher *)
  cipher ← lift (AES_new key iv);
  (* Read all encrypted data *)
  let encrypted_data := infile in
  (* Decrypt the data *)
  try_except_ValueError
    (r ← lift (cipher_decrypt cipher encrypted_data);
     (* Unpad the data *)
     decrypted_data ← lift (unpad (fst r) 16);
     (* Write decrypted data to output file *)
     outfile ← open_wb output_path;
     write outfile decrypted_data)
    (fun _ =>
       (* If unpadding fails, it might not be properly encrypted *)
       raise (ValueError "Invalid padding or incorrect password")).

Definition manifest_name : string := "directory_structure.json".

(** [json.dump({"type": "directory", "name": name}, f)], for a name that
    needs no escaping. *)
Definition json_dump_structure (name : string) : bytes :=
  let q := String (ascii_of_nat 34) "" in
  str_encode ("{" +:+ q +:+ "type" +:+ q +:+ ": " +:+ q +:+ "directory" +:+ q +:+ ", "
          +:+ q +:+ "name" +:+ q +:+ ": " +:+ q +:+ name +:+ q +:+ "}").

(** [rel_path = os.path.relpath(root, top); if rel_path == ".": rel_path = ""] *)
Definition rel_path_of (root top : string) : string :=
  let rel_path := relpath root top in
  if String.eqb rel_path "." then "" else rel_path.

(** Encrypt a directory by creating an encrypted archive *)
Definition _encrypt_directory {C : CryptoLib} {Zp : ZipLib} (s : self)
    (input_dir output_path : string) : M unit :=
  (* Create a temporary directory to store the encrypted files *)
  let temp_dir := output_path +:+ "_temp" in
  _ ← (os_makedirs temp_dir true : M unit);
  try_finally
    (w ← get_world;
     (* Walk through the directory and encrypt each file *)
     _ ← for_each (os_walk input_dir (fs w)) (fun entry =>
           let '(root, dirs, files) := entry in
           let rel_path := rel_path_of root input_dir in
           (* Create corresponding directory in temp_dir *)
           _ ← (if negb (String.eqb rel_path "")
                then (os_makedirs (posixpath.join temp_dir rel_path) true : M unit)
                else mret tt);
           (* Encrypt each file *)
           for_each files (fun file =>
             let src_file := posixpath.join root file in
             let dst_file := posixpath.join3 temp_dir rel_path
                               (file +:+ DEFAULT_ENCRYPTION_EXTENSION) in
             _encrypt_file s src_file dst_file));
     (* Create a metadata file with directory structure *)
     let metadata_path := posixpath.join temp_dir manifest_name in
     f ← open_wb metadata_path;
     _ ← write f (json_dump_structure (posixpath.basename input_dir));
     (* Create the final encrypted directory *)
     _ ← shutil_make_archive output_path temp_dir;
     os_rename (output_path +:+ ".zip") output_path)
    ((* Clean up temporary directory *)
     ex ← os_path_exists temp_dir;
     if ex : bool then shutil_rmtree temp_dir else mret tt).

(** [files.remove(name)]: the first occurrence. *)
Fixpoint list_remove (name : string) (files : list string) : list string :=
  match files with
  | [] => []
  | f :: rest => if String.eqb f name then rest else f :: list_remove name rest
  end.

(** Decrypt a directory from an encrypted archive *)
Definition _decrypt_directory {C : CryptoLib} {Zp : ZipLib} (s : self)
    (input_path output_dir : string) : M unit :=
  (* Create a temporary directory to extract the encrypted files *)
  let temp_dir := input_path +:+ "_temp" in
  _ ← (os_makedirs temp_dir true : M unit);
  let temp_zip := input_path +:+ ".zip" in
  try_finally
    (try_except
       ((* Rename to zip for extraction *)
        _ ← shutil_copy2 input_path temp_zip;
        (* Extract the encrypted files *)
        _ ← zipfile_extractall temp_zip temp_dir;
        (* Create the output directory *)
        _ ← (os_makedirs output_dir true : M unit);
        (* Check for metadata file *)
        let metadata_path := posixpath.join temp_dir manifest_name in
        ex ← os_path_exists metadata_path;
        if ex : bool then
          (* This is a directory we encrypted *)
          w ← get_world;
          for_each (os_walk temp_dir (fs w)) (fun entry =>
            let '(root, dirs, files) := entry in
            (* Skip metadata file *)
            let files := if Py.contains files manifest_name
                         then list_remove manifest_name files else files in
            let rel_path := rel_path_of root temp_dir in
            (* Create corresponding directory in output_dir *)
            _ ← (if negb (String.eqb rel_path "")
                 then (os_makedirs (posixpath.join output_dir rel_path) true : M unit)
                 else mret tt);
            (* Decrypt each file *)
            for_each files (fun file =>
              if Py.endswith file DEFAULT_ENCRYPTION_EXTENSION then
                let src_file := posixpath.join root file in
                let dst_file :=
                  posixpath.join3 output_dir rel_path
                    (Py.slice_to (- Py.len DEFAULT_ENCRYPTION_EXTENSION) file) in
                _decrypt_file s src_file dst_file
              else mret tt))
        else
          (* This might be a regular zip file, just extract it *)
          _ ← shutil_rmtree output_dir;
          shutil_copytree temp_dir output_dir)
       (fun e => raise (ValueError ("Failed to decrypt directory: " +:+ exn_str e))))
    ((* Clean up temporary files *)
     ex ← os_path_exists temp_dir;
     _ ← (if ex : bool then shutil_rmtree temp_dir else mret tt);
     ex ← os_path_exists temp_zip;
     if ex : bool then os_remove temp_zip else mret tt).

(** The output of decryption: the path without the suffix, or the name
    prefixed with [decrypted_]. *)
Definition decrypt_output_path (file_path : string) : string :=
  if Py.endswith file_path DEFAULT_ENCRYPTION_EXTENSION
  then Py.slice_to (- Py.len DEFAULT_ENCRYPTION_EXTENSION) file_path
  else
    let dir_path := posixpath.dirname file_path in
    let base_name := posixpath.basename file_path in
    posixpath.join dir_path ("decrypted_" +:+ base_name).

(** The body of the duplicate loop when encrypting. *)
Definition encrypt_duplicate_body (file_path : string) (counter : nat)
    (output_path : string) : string :=
  let '(name, ext) := posixpath.splitext file_path in
  name +:+ "_" +:+ Py.str counter +:+ ext +:+ DEFAULT_ENCRYPTION_EXTENSION.

(** The body of the duplicate loop when decrypting. *)
Definition decrypt_duplicate_body (counter : nat) (output_path : string) : string :=
  let dir_path := posixpath.dirname output_path in
  let '(name, ext) := posixpath.splitext (posixpath.basename output_path) in
  let name :=
    if Py.startswith name "decrypted_"
    then "decrypted_" +:+ Py.str counter +:+ "_" +:+ Py.slice_from 10 name
    else "decrypted_" +:+ Py.str counter +:+ "_" +:+ name in
  posixpath.join dir_path (name +:+ ext).

(** Process a single file or directory (to be run in a worker thread) *)
Definition _process_file {C : CryptoLib} {Zp : ZipLib} (s : self) (file_path : string)
  : M (option (string * string)) :=
  let filename := posixpath.basename file_path in
  try_except
    (_ ← status_updated ((Py.capitalize (operation s) +:+ "ing: " +:+ filename));
     isdir ← os_path_isdir file_path;
     output_path ←
       (if isdir : bool then
          (* Handle directories *)
          if String.eqb (operation s) "encrypt" then
            let output_path := file_path +:+ DEFAULT_ENCRYPTION_EXTENSION in
            _ ← _encrypt_directory s file_path output_path;
            mret output_path
          else
            let output_path := decrypt_output_path file_path in
            _ ← _decrypt_directory s file_path output_path;
            mret output_path
        else
          (* Handle files: determine output path *)
          let output_path :=
            if String.eqb (operation s) "encrypt"
            then file_path +:+ DEFAULT_ENCRYPTION_EXTENSION
            else decrypt_output_path file_path in
          (* Handle duplicate filenames *)
          output_path ←
            while_exists
              (if String.eqb (operation s) "encrypt"
               then encrypt_duplicate_body file_path
               else decrypt_duplicate_body)
              output_path;
          (* Process the file *)
          _ ← (if String.eqb (operation s) "encrypt"
               then _encrypt_file s file_path output_path
               else _decrypt_file s file_path output_path);
          mret output_path);
     (* Remove original if requested *)
     _ ← (if remove_originals s then
            isdir ← os_path_isdir file_path;
            if isdir : bool then shutil_rmtree file_path else os_remove file_path
          else mret tt);
     mret (Some (file_path, output_path)))
    (fun e =>
       _ ← status_updated (("Error: " +:+ filename +:+ " - " +:+ exn_str e));
       mret None).

(** The first loop of [run]: one task per entry until the flag is seen. *)
Fixpoint run_submit {C : CryptoLib} {Zp : ZipLib} (s : self) (files : list string)
    (futures : list (Future (option (string * string))))
  : D (list (Future (option (string * string)))) :=
  match files with
  | [] => mret futures
  | file_path :: rest =>
      c ← is_cancelled;
      if c : bool then mret futures  (* break *)
      else
        (* Submit task to executor *)
        future ← executor_submit (_process_file s file_path);
        run_submit s rest (futures ++ [future])
  end.

(** The second loop of [run]: process results as they complete. *)
Fixpoint run_results (futures : list (Future (option (string * string))))
    (processed total_files : nat) : D nat :=
  match futures with
  | [] => mret processed
  | future :: rest =>
      c ← is_cancelled;
      if c : bool then mret processed  (* break *)
      else
        _ ← try_except
              (r ← future_result future;
               match r with
               | Some (source, dest) => emit (file_processed source dest)
               | None => mret tt
               end)
              (fun e => mret tt);  (* logger.error *)
        let processed := processed + 1 in
        _ ← emit (progress_updated processed total_files);
        run_results rest processed total_files
  end.

Definition run {C : CryptoLib} {Zp : ZipLib} (s : self) : D unit :=
  try_except
    (let total_files := length (files s) in
     let processed := 0 in
     (* Use ThreadPoolExecutor for parallel processing *)
     futures ← run_submit s (files s) [];
     processed ← run_results futures processed total_files;
     c ← is_cancelled;
     if c : bool then emit (operation_completed false "Operation cancelled")
     else emit (operation_completed true
                  ("Successfully " +:+ operation s +:+ "ed " +:+ Py.str processed
                   +:+ " of " +:+ Py.str total_files +:+ " files/folders")))
    (fun e => emit (operation_completed false ("Error: " +:+ exn_str e))).

End EncryptionWorker.

(** ** The organizer worker *)

Module FileOrganizerWorker.

Record self := mk {
  files : list string;
  destination : string;
  organize_by : string;  (* "type", "date", or "both" *)
  remove_originals : bool
}.

(** [get_file_date(file_path)] with the default [date_type]: the
    modification time. *)
Definition get_file_date (file_path : string) : M Z :=
  os_path_getmtime file_path.

(** [if folder:] on an optional string. *)
Definition truthy (folder : option string) : option string :=
  match folder with
  | Some "" => None
  | other => other
  end.

(** The body of the duplicate loop: [new_filename = f"{name}_{counter}{ext}"]. *)
Definition duplicate_body (folder name ext : string) (counter : nat)
    (dest_path : string) : string :=
  let new_filename := name +:+ "_" +:+ Py.str counter +:+ ext in
  posixpath.join folder new_filename.

(** Process a single file (to be run in a worker thread) *)
Definition _process_file {T : TimeLib} (s : self) (file_path : string)
    (type_folder date_folder : option string)
  : M (option (string * option string)) :=
  let filename := posixpath.basename file_path in
  try_except
    (let dest_path : option string := None in
     (* Process by type *)
     dest_path ←
       match truthy type_folder with
       | Some type_folder =>
           let category := get_file_category file_path in
           let category_folder := posixpath.join type_folder category in
           _ ← (os_makedirs category_folder true : M unit);
           let dest_path := posixpath.join category_folder filename in
           (* Handle duplicate filenames *)
           let '(name, ext) := posixpath.splitext filename in
           dest_path ← while_exists (duplicate_body category_folder name ext) dest_path;
           (* Copy the file *)
           _ ← shutil_copy2 file_path dest_path;
           _ ← status_updated (("Copied to Type: " +:+ filename));
           mret (Some dest_path)
       | None => mret dest_path
       end;
     (* Process by date *)
     dest_path ←
       match truthy date_folder with
       | Some date_folder =>
           date ← get_file_date file_path;
           (* Use yyyy-mm-dd format *)
           let date_subfolder := strftime_Ymd date in
           let day_folder := posixpath.join date_folder date_subfolder in
           _ ← (os_makedirs day_folder true : M unit);
           let dest_path := posixpath.join day_folder filename in
           (* Handle duplicate filenames *)
           let '(name, ext) := posixpath.splitext filename in
           dest_path ← while_exists (duplicate_body day_folder name ext) dest_path;
           (* Copy the file *)
           _ ← shutil_copy2 file_path dest_path;
           _ ← status_updated (("Copied to Date: " +:+ filename));
           mret (Some dest_path)
       | None => mret dest_path
       end;
     (* Remove original if requested *)
     _ ← (if remove_originals s then
            _ ← os_remove file_path;
            status_updated (("Removed original: " +:+ filename))
          else mret tt);
     mret (Some (file_path, dest_path)))
    (fun e =>
       _ ← status_updated (("Error: " +:+ filename +:+ " - " +:+ exn_str e));
       mret None).

Definition by_type (s : self) : bool :=
  String.eqb (organize_by s) "type" || String.eqb (organize_by s) "both".

Definition by_date (s : self) : bool :=
  String.eqb (organize_by s) "date" || String.eqb (organize_by s) "both".

(** The first loop of [run]: directories are counted and skipped, every other
    entry becomes a task, until the flag is seen. *)
Fixpoint run_submit {T : TimeLib} (s : self) (type_folder date_folder : option string)
    (total_files : nat) (files : list string) (processed : nat)
    (futures : list (Future (option (string * option string))))
  : D (nat * list (Future (option (string * option string)))) :=
  match files with
  | [] => mret (processed, futures)
  | file_path :: rest =>
      c ← is_cancelled;
      if c : bool then mret (processed, futures)  (* break *)
      else
        isdir ← in_world (os_path_isdir file_path);
        if isdir : bool then
          (* Skip directories *)
          let processed := processed + 1 in
          _ ← emit (progress_updated processed total_files);
          run_submit s type_folder date_folder total_files rest processed futures
        else
          (* Submit task to executor *)
          future ← executor_submit
                     (_process_file s file_path
                        (if by_type s then type_folder else None)
                        (if by_date s then date_folder else None));
          run_submit s type_folder date_folder total_files rest processed
                     (futures ++ [future])
  end.

(** The second loop of [run]: process results as they complete.
    [file_processed] takes two strings: a destination [None] is a
    [TypeError], caught like any other. *)
Fixpoint run_results (futures : list (Future (option (string * option string))))
    (processed total_files : nat) : D nat :=
  match futures with
  | [] => mret processed
  | future :: rest =>
      c ← is_cancelled;
      if c : bool then mret processed  (* break *)
      else
        _ ← try_except
              (r ← future_result future;
               match r with
               | Some (source, Some dest) => emit (file_processed source dest)
               | Some (source, None) =>
                   raise (TypeError "file_processed(str, str).emit(): argument 2 has unexpected type 'NoneType'")
               | None => mret tt
               end)
              (fun e => mret tt);  (* logger.error *)
        let processed := processed + 1 in
        _ ← emit (progress_updated processed total_files);
        run_results rest processed total_files
  end.

Definition run {T : TimeLib} (s : self) : D unit :=
  try_except
    (let total_files := length (files s) in
     let processed := 0 in
     (* Create main organization folders *)
     type_folder ←
       (if by_type s then
          let type_folder := posixpath.join (destination s) "Organized by Type" in
          _ ← in_world (os_makedirs type_folder true);
          mret (Some type_folder)
        else mret None);
     date_folder ←
       (if by_date s then
          let date_folder := posixpath.join (destination s) "Organized by Date" in
          _ ← in_world (os_makedirs date_folder true);
          mret (Some date_folder)
        else mret None);
     (* Use ThreadPoolExecutor for parallel processing *)
     pf ← run_submit s type_folder date_folder total_files (files s) processed [];
     processed ← run_results (snd pf) (fst pf) total_files;
     c ← is_cancelled;
     if c : bool then emit (operation_completed false "Operation cancelled")
     else emit (operation_completed true
                  ("Successfully processed " +:+ Py.str processed +:+ " of "
                   +:+ Py.str total_files +:+ " files")))
    (fun e => emit (operation_completed false ("Error: " +:+ exn_str e))).

End FileOrganizerWorker.

(** ** Stand-ins for the libraries *)

(** To run the model on concrete inputs: a block function that xors the block
    with the first 16 bytes of the zero-extended key, a key derivation that
    concatenates, an archive format that stores the members as one number, and
    a fixed date.  They satisfy the laws above; nothing else is assumed of
    them. *)
Module Toy.

Definition crypto : CryptoLib := {|
  pbkdf2_hmac_sha256 := fun password salt _ dklen =>
    take dklen (str_encode password ++ salt ++ repeat 0%N dklen);
  AES_encrypt_block := fun key b => xor_bytes b (take 16 (key ++ repeat 0%N 16));
  AES_decrypt_block := fun key b => xor_bytes b (take 16 (key ++ repeat 0%N 16))
|}.

Definition zip : ZipLib := {|
  zip_pack := fun members => [Npos (encode members)];
  zip_unpack := fun data =>
    match data with
    | [Npos p] => decode p
    | _ => None
    end
|}.

Definition time : TimeLib := {| strftime_Ymd := fun _ => "2024-05-17" |}.

(** A generator that counts: byte [i] is [i mod 256]. *)
Definition counting (i : nat) : byte := N.of_nat (i mod 256).

End Toy.

(** ** Concrete inputs for the examples *)

(** A small world: two files to encrypt, one empty and one of five bytes. *)
Definition codec_world : World :=
  mkWorld (list_to_map [ ("/", Dir); ("/d", Dir);
                         ("/d/empty.bin", File [] 7);
                         ("/d/hello.txt", File [104; 101; 108; 108; 111]%N 7) ])
          Toy.counting 0 100 [].

Definition codec_self : EncryptionWorker.self :=
  EncryptionWorker.mk ["/d/empty.bin"] "secret" "encrypt" false.

(** ** Vocabulary of the properties of the codec *)

(** A path [open(p, 'wb')] accepts: not a directory, in an existing one. *)
Definition writable (m : gmap string node) (p : string) : Prop :=
  m !! p <> Some Dir /\ check_parent m p = Ok tt.

(** The key of a password and a salt, as [derive_key_from_password] asks
    PBKDF2 for it. *)
Definition derived_key {C : CryptoLib} (password : string) (salt : bytes) : bytes :=
  pbkdf2_hmac_sha256 password salt 100000%N 32.

(** The single-file container: salt, IV, ciphertext. *)
Definition container_of {C : CryptoLib} (password : string) (salt iv content : bytes) : bytes :=
  salt ++ iv ++ fst (cbc_encrypt (derived_key password salt) iv (padded_plaintext content)).

(** The [n] bytes the generator of [w] delivers from position [start]. *)
Definition random_window (w : World) (start n : nat) : bytes :=
  List.map (random w) (seq start n).

(** The error [_decrypt_file] raises for a wrong password or a corrupted
    input. *)
Definition invalid_padding : exn :=
  ValueError "Invalid padding or incorrect password".

(** What [_decrypt_file] computes from the bytes of its input. *)
Definition decrypt_bytes {C : CryptoLib} (password : string) (data : bytes) : result bytes :=
  let salt := take 16 data in
  let iv := take 16 (drop 16 data) in
  let encrypted_data := drop 16 (drop 16 data) in
  if length iv =? 16 then
    if length encrypted_data mod 16 =? 0 then
      match unpad (fst (cbc_decrypt (derived_key password salt) iv encrypted_data)) 16 with
      | Ok decrypted_data => Ok decrypted_data
      | Raise _ => Raise invalid_padding
      end
    else Raise invalid_padding
  else Raise (ValueError "Incorrect IV length (it must be 16 bytes long)").

(** ** Vocabulary of the properties of the dispatchers *)

(** The flag reads false on the next [n] reads. *)
Definition quiet_for (d : Dispatcher) (n : nat) : Prop :=
  match cancel_at d with
  | Some a => flag_reads d + n <= a
  | None => True
  end.

(** The flag reads true from the next read on. *)
Definition cancelled_now (d : Dispatcher) : Prop :=
  match cancel_at d with
  | Some a => a <= flag_reads d
  | None => False
  end.

(** What the second loop of [run] emits for one future. *)
Definition result_signals {B} (emit_outcome : B -> list signal)
    (future : Future (option B)) (processed total_files : nat) : list signal :=
  match future with
  | Ok (Some outcome) => emit_outcome outcome ++ [progress_updated (processed + 1) total_files]
  | _ => [progress_updated (processed + 1) total_files]
  end.

Fixpoint results_signals {B} (emit_outcome : B -> list signal)
    (futures : list (Future (option B))) (processed total_files : nat) : list signal :=
  match futures with
  | [] => []
  | future :: rest =>
      result_signals emit_outcome future processed total_files
      ++ results_signals emit_outcome rest (processed + 1) total_files
  end.

Module EncryptionWorkerSpec.
Import EncryptionWorker.

(** The tasks of [files] run one after the other: their futures and the
    world they leave. *)
Fixpoint tasks_run {C : CryptoLib} {Zp : ZipLib} (s : self) (files : list string)
    (w : World) : list (Future (option (string * string))) * World :=
  match files with
  | [] => ([], w)
  | file_path :: rest =>
      let r := _process_file s file_path w in
      let rs := tasks_run s rest (snd r) in
      (fst r :: fst rs, snd rs)
  end.

Definition outcome_signal (outcome : string * string) : list signal :=
  [file_processed (fst outcome) (snd outcome)].

End EncryptionWorkerSpec.

Module FileOrganizerWorkerSpec.
Import FileOrganizerWorker.

(** What the first loop of [run] has done when it ends. *)
Record Submitted := mkSubmitted {
  count : nat;  (* [processed]: the directories skipped so far *)
  futures : list (Future (option (string * option string)));
  progress : list signal;
  after : World
}.

(** The first loop of [run] on [files] while the flag reads false: a
    directory is counted and signalled, any other entry is run as a task. *)
Fixpoint submit_all {T : TimeLib} (s : self) (type_folder date_folder : option string)
    (total_files : nat) (files : list string) (processed : nat) (w : World)
  : Submitted :=
  match files with
  | [] => mkSubmitted processed [] [] w
  | file_path :: rest =>
      if isdir_in (fs w) file_path then
        let r := submit_all s type_folder date_folder total_files rest (processed + 1) w in
        mkSubmitted (count r) (futures r)
          (progress_updated (processed + 1) total_files :: progress r) (after r)
      else
        let task := _process_file s file_path
                      (if by_type s then type_folder else None)
                      (if by_date s then date_folder else None) w in
        let r := submit_all s type_folder date_folder total_files rest processed (snd task) in
        mkSubmitted (count r) (fst task :: futures r) (progress r) (after r)
  end.

Definition outcome_signal (outcome : string * option string) : list signal :=
  match snd outcome with
  | Some dest => [file_processed (fst outcome) dest]
  | None => []
  end.

(** The start of [run]: the folders of the chosen organisations. *)
Definition create_folders (s : self) : M (option string * option string) :=
  type_folder ←
    (if by_type s then
       let type_folder := posixpath.join (destination s) "Organized by Type" in
       _ ← (os_makedirs type_folder true : M unit);
       mret (Some type_folder)
     else mret None);
  date_folder ←
    (if by_date s then
       let date_folder := posixpath.join (destination s) "Organized by Date" in
       _ ← (os_makedirs date_folder true : M unit);
       mret (Some date_folder)
     else mret None);
  mret (type_folder, date_folder).

End FileOrganizerWorkerSpec.

(** A batch to organize by type: five entries, the third of which is no
    longer on disk when its task runs. *)
Definition batch_world : World :=
  mkWorld (list_to_map [ ("/", Dir); ("/in", Dir); ("/out", Dir);
                         ("/in/a.txt", File [97]%N 11);
                         ("/in/b.jpg", File [98]%N 12);
                         ("/in/d.mp3", File [100]%N 14);
                         ("/in/e.zip", File [101]%N 15) ])
          Toy.counting 0 100 [].

Definition batch_self : FileOrganizerWorker.self :=
  FileOrganizerWorker.mk
    ["/in/a.txt"; "/in/b.jpg"; "/in/c.pdf"; "/in/d.mp3"; "/in/e.zip"]
    "/out" "type" false.

(** A batch to encrypt: two files. *)
Definition codec_batch : EncryptionWorker.self :=
  EncryptionWorker.mk ["/d/hello.txt"; "/d/empty.bin"] "secret" "encrypt" false.

(** A dispatcher that starts in [w], cancelled as [cancel_at] says. *)
Definition dispatcher_in (w : World) (cancel_at : option nat) : Dispatcher :=
  mkDispatcher w cancel_at 0 [].

Definition is_progress (total_files : nat) (sg : signal) : Prop :=
  exists k, sg = progress_updated k total_files.

(** ** Vocabulary of the duplicate loops *)

(** [s] holds a separator. *)
Definition has_sep (s : string) : bool := Py.existsb (fun c => Ascii.eqb c "/") s.

(** What [dirname] returns: all separators, or no trailing separator. *)
Definition dir_normal (d : string) : Prop :=
  posixpath.all_sep d = true \/ Py.endswith d "/" = false.

(** The separator [join] inserts after the directory [d]. *)
Definition join_sep (d : string) : string :=
  if String.eqb d "" || Py.endswith d "/" then "" else "/".

(** The path the loop holds after [n] bodies, started at [counter] with
    [path]. *)
Fixpoint candidate (body : nat -> string -> string) (counter : nat) (path : string)
    (n : nat) : string :=
  match n with
  | 0 => path
  | S n' => candidate body (S counter) (body counter path) n'
  end.

(** The loop on [path] in [w] ends with [p]: the first candidate that is not
    on disk, every candidate before it being there. *)
Definition resolves (body : nat -> string -> string) (path : string) (w : World)
    (p : string) : Prop :=
  while_exists body path w = (Ok p, w)
  /\ exists_in (fs w) p = false
  /\ exists k, p = candidate body 1 path k
       /\ forall j, j < k -> exists_in (fs w) (candidate body 1 path j) = true.

(** [name[10:]] when [name] starts with [decrypted_], else [name]. *)
Definition decrypted_stem (name : string) : string :=
  if Py.startswith name "decrypted_" then Py.slice_from 10 name else name.

(** ** Vocabulary of the directory codec *)

(** What may follow a directory's path in the path of an entry at or below
    it: nothing, or a separator and more. *)
Definition is_rel (r : string) : bool := String.eqb r "" || Py.startswith r "/".

(** The steps of [_decrypt_directory] from the copy of its input to the
    creation of the output directory, before it looks for the manifest. *)
Definition extract_steps {Zp : ZipLib} (input_path output_dir : string) : M unit :=
  _ ← shutil_copy2 input_path (input_path +:+ ".zip");
  _ ← zipfile_extractall (input_path +:+ ".zip") (input_path +:+ "_temp");
  (os_makedirs output_dir true : M unit).

(** What [_decrypt_directory] leaves of [m] when it takes the branch without
    manifest: the output directory removed, the extracted tree copied there,
    the temporary directory and archive removed. *)
Definition fallback_fs (input_path output_dir : string) (m : gmap string node)
  : gmap string node :=
  let temp_dir := input_path +:+ "_temp" in
  let temp_zip := input_path +:+ ".zip" in
  let removed := filter (fun kv => under output_dir (fst kv) = false) m in
  let copied := graft output_dir (subtree temp_dir removed) removed in
  delete temp_zip (filter (fun kv => under temp_dir (fst kv) = false) copied).

(** ** More concrete inputs *)



(** A directory [/d/docs] with the relative files [a.txt] and [sub/b.txt]. *)
Definition tree_world (a b : bytes) : World :=
  mkWorld (list_to_map [ ("/", Dir); ("/d", Dir); ("/d/docs", Dir);
                         ("/d/docs/a.txt", File a 7);
                         ("/d/docs/sub", Dir);
                         ("/d/docs/sub/b.txt", File b 8) ])
          Toy.counting 0 100 [].

(** An archive without manifest next to a directory that is already where its
    output goes. *)
Definition pack_world : World :=
  mkWorld (list_to_map [ ("/", Dir); ("/d", Dir);
                         ("/d/pack.encrypted",
                          File (zip_pack (ZipLib := Toy.zip)
                                  [("x.txt", Some [120]%N); ("sub", None);
                                   ("sub/y.txt", Some [121]%N)]) 9);
                         ("/d/pack", Dir);
                         ("/d/pack/old.txt", File [111]%N 3) ])
          Toy.counting 0 100 [].

(** A directory whose name ends in the suffix of the containers, next to a
    directory that is where its decryption would go. *)
Definition suffixed_directory_world : World :=
  mkWorld (list_to_map [ ("/", Dir); ("/d", Dir);
                         ("/d/pack.encrypted", Dir);
                         ("/d/pack.encrypted/x.txt.encrypted", File [1; 2; 3]%N 9);
                         ("/d/pack", Dir);
                         ("/d/pack/old.txt", File [111]%N 3) ])
          Toy.counting 0 100 [].

Definition decrypting (files : list string) : EncryptionWorker.self :=
  EncryptionWorker.mk files "secret" "decrypt" false.

(** ** Vocabulary of the event protocol *)

(** The [(current, total)] pairs of the progress signals of [l], in order. *)
Definition progress_counts (l : list signal) : list (nat * nat) :=
  omap (fun sg => match sg with
                  | progress_updated current total => Some (current, total)
                  | _ => None
                  end) l.

(** The completion signals of [l]. *)
Definition completions (l : list signal) : list (bool * string) :=
  omap (fun sg => match sg with
                  | operation_completed success message => Some (success, message)
                  | _ => None
                  end) l.

(** The sources of the outcome signals of [l], in order. *)
Definition processed_sources (l : list signal) : list string :=
  omap (fun sg => match sg with
                  | file_processed source _ => Some source
                  | _ => None
                  end) l.

(** The counts [first + 1], ..., [first + k] of [total]. *)
Definition counting_up (first k total : nat) : list (nat * nat) :=
  List.map (fun i => (first + i, total)) (seq 1 k).

(** ** Sizes for display *)

(** [str(n)] for an integer of either sign. *)
Definition str_int (n : Z) : string :=
  if (n <? 0)%Z then "-" +:+ Py.str (Z.to_nat (- n)) else Py.str (Z.to_nat n).

(** The nearest integer to [n / d] for [0 <= n] and [0 < d], a tie going to
    the even one. *)
Definition round_half_even (n d : Z) : Z :=
  let q := (n / d)%Z in
  let r := (n mod d)%Z in
  if (2 * r <? d)%Z then q
  else if (d <? 2 * r)%Z then (q + 1)%Z
  else if Z.even q then q else (q + 1)%Z.

(** [a / 2**k] for integers [0 < a] and [0 <= k]: the double nearest to the
    quotient, as the pair [(m, e)] of the value [m * 2**e].  An integer of at
    most 53 bits gives the quotient itself; a longer one is rounded to 53
    bits first.  [None] is the [OverflowError] of a quotient beyond the
    doubles. *)
Definition true_divide_pow2 (a k : Z) : option (Z * Z) :=
  let bits := (Z.log2 a + 1)%Z in
  if (bits <=? 53)%Z then Some (a, (- k)%Z)
  else
    let shift := (bits - 53)%Z in
    let m := round_half_even a (2 ^ shift) in
    if (0 <=? shift - k)%Z && (2 ^ 1024 <=? m * 2 ^ (shift - k))%Z then None
    else Some (m, (shift - k)%Z).

(** [f"{x:.1f}"] for the double [x = m * 2**e] with [0 <= m]: the decimal
    expansion of [x] rounded to one place. *)
Definition format_1f (x : Z * Z) : string :=
  let '(m, e) := x in
  let tenths :=
    if (0 <=? e)%Z then (10 * m * 2 ^ e)%Z
    else round_half_even (10 * m) (2 ^ (- e)) in
  Py.str (Z.to_nat (tenths / 10)) +:+ "." +:+ Py.str (Z.to_nat (tenths mod 10)).

(** Format file size from bytes to human-readable format *)
Definition format_size (size_bytes : Z) : option string :=
  if (size_bytes <? 1024)%Z then
    Some (str_int size_bytes +:+ " B")
  else if (size_bytes <? 1024 * 1024)%Z then
    x ← true_divide_pow2 size_bytes 10;
    Some (format_1f x +:+ " KB")
  else if (size_bytes <? 1024 * 1024 * 1024)%Z then
    x ← true_divide_pow2 size_bytes 20;
    Some (format_1f x +:+ " MB")
  else
    x ← true_divide_pow2 size_bytes 30;
    Some (format_1f x +:+ " GB").

(** ** The tile view *)

(** [needle in hay] for strings. *)
Fixpoint str_in (needle hay : string) : bool :=
  Py.startswith hay needle
  || match hay with
     | "" => false
     | String _ rest => str_in needle rest
     end.

(** [xs.remove(x)] for an [x] that is in [xs]: the first occurrence goes. *)
Fixpoint list_remove (x : string) (xs : list string) : list string :=
  match xs with
  | [] => []
  | y :: rest => if String.eqb y x then rest else y :: list_remove x rest
  end.

Module FileTileView.

(** A tile of the grid: its file and whether it is drawn as selected. *)
Record FileTileWidget := tile {
  file_path : string;
  selected : bool
}.

(** The fields of the view.  [grid_layout] holds the tiles with their row and
    column; [update_timer] is whether the single-shot timer is running. *)
Record self := mk {
  files : list string;
  filtered_files : list string;
  current_category : string;
  search_text : string;
  show_files : bool;
  show_folders : bool;
  selected_files : gset string;
  tile_widgets : gmap string FileTileWidget;
  grid_layout : list (FileTileWidget * (Z * Z));
  update_timer : bool
}.

(** The fields [__init__] sets. *)
Definition __init__ : self :=
  mk [] [] "All Files" "" true true ∅ ∅ [] false.

Definition with_files (l : list string) (s : self) : self :=
  mk l (filtered_files s) (current_category s) (search_text s) (show_files s)
     (show_folders s) (selected_files s) (tile_widgets s) (grid_layout s)
     (update_timer s).

Definition with_filtered_files (l : list string) (s : self) : self :=
  mk (files s) l (current_category s) (search_text s) (show_files s)
     (show_folders s) (selected_files s) (tile_widgets s) (grid_layout s)
     (update_timer s).

Definition with_selected_files (x : gset string) (s : self) : self :=
  mk (files s) (filtered_files s) (current_category s) (search_text s) (show_files s)
     (show_folders s) x (tile_widgets s) (grid_layout s) (update_timer s).

(** [self.update_timer.start(100)] *)
Definition update_timer_start (s : self) : self :=
  mk (files s) (filtered_files s) (current_category s) (search_text s) (show_files s)
     (show_folders s) (selected_files s) (tile_widgets s) (grid_layout s) true.

(** Clear all tiles *)
Definition clear (s : self) : self :=
  mk [] [] (current_category s) (search_text s) (show_files s) (show_folders s)
     ∅ ∅ [] (update_timer s).

(** Apply category and search filters to the file list *)
Definition _apply_filters (m : gmap string node) (s : self) : self :=
  (* Apply file/folder filter *)
  let filtered :=
    List.filter (fun f =>
                   let is_dir := isdir_in m f in
                   (is_dir && show_folders s) || (negb is_dir && show_files s))
                (files s) in
  (* Apply category filter *)
  let filtered :=
    if negb (String.eqb (current_category s) "All Files")
       && negb (Py.contains ["Files"; "Folders"] (current_category s))
    then List.filter (fun f => negb (isdir_in m f)
                               && String.eqb (get_file_category f) (current_category s))
                     filtered
    else if String.eqb (current_category s) "Files"
    then List.filter (fun f => negb (isdir_in m f)) filtered
    else if String.eqb (current_category s) "Folders"
    then List.filter (fun f => isdir_in m f) filtered
    else filtered in
  (* Apply search filter *)
  let filtered :=
    if negb (String.eqb (search_text s) "")
    then List.filter (fun f => str_in (search_text s)
                                      (Py.lower (posixpath.basename f)))
                     filtered
    else filtered in
  with_filtered_files filtered s.

(** Add a file to the view *)
Definition add_file (m : gmap string node) (file_path : string) (s : self) : self :=
  if Py.contains (files s) file_path then s
  else
    let s := with_files (files s ++ [file_path]) s in
    let s := _apply_filters m s in
    update_timer_start s.

(** The loop of [add_files]: the files so far and whether one was added. *)
Fixpoint add_files_loop (file_paths : list string) (files : list string) (added : bool)
  : list string * bool :=
  match file_paths with
  | [] => (files, added)
  | file_path :: rest =>
      if negb (Py.contains files file_path)
      then add_files_loop rest (files ++ [file_path]) true
      else add_files_loop rest files added
  end.

(** Add multiple files to the view *)
Definition add_files (m : gmap string node) (file_paths : list string) (s : self)
  : self :=
  let '(files, added) := add_files_loop file_paths (files s) false in
  let s := with_files files s in
  if added then update_timer_start (_apply_filters m s) else s.

(** Remove a file from the view *)
Definition remove_file (m : gmap string node) (file_path : string) (s : self) : self :=
  if Py.contains (files s) file_path then
    let s := with_files (list_remove file_path (files s)) s in
    let s := if bool_decide (file_path ∈ selected_files s)
             then with_selected_files (selected_files s ∖ {[file_path]}) s
             else s in
    let s := _apply_filters m s in
    update_timer_start s
  else s.

(** Set the category filter *)
Definition set_category_filter (m : gmap string node) (category : string) (s : self)
  : self :=
  let s := mk (files s) (filtered_files s) category (search_text s) (show_files s)
              (show_folders s) (selected_files s) (tile_widgets s) (grid_layout s)
              (update_timer s) in
  update_timer_start (_apply_filters m s).

(** Set the search filter *)
Definition set_search_filter (m : gmap string node) (search_text : string) (s : self)
  : self :=
  let s := mk (files s) (filtered_files s) (current_category s) (Py.lower search_text)
              (show_files s) (show_folders s) (selected_files s) (tile_widgets s)
              (grid_layout s) (update_timer s) in
  update_timer_start (_apply_filters m s).

(** Set whether to show files and/or folders *)
Definition set_file_folder_filter (m : gmap string node) (show_files show_folders : bool)
    (s : self) : self :=
  let s := mk (files s) (filtered_files s) (current_category s) (search_text s)
              show_files show_folders (selected_files s) (tile_widgets s)
              (grid_layout s) (update_timer s) in
  update_timer_start (_apply_filters m s).

(** The spacing [__init__] gives the grid. *)
Definition spacing : Z := 16.

(** The loop of [_update_layout] over [enumerate(self.filtered_files)]. *)
Fixpoint _update_layout_loop (columns : Z) (selected_files : gset string)
    (i : Z) (filtered_files : list string)
    (tile_widgets : gmap string FileTileWidget)
    (grid_layout : list (FileTileWidget * (Z * Z)))
  : gmap string FileTileWidget * list (FileTileWidget * (Z * Z)) :=
  match filtered_files with
  | [] => (tile_widgets, grid_layout)
  | file_path :: rest =>
      let row := (i / columns)%Z in
      let col := (i mod columns)%Z in
      (* Set selected state if applicable *)
      let tile := tile file_path (bool_decide (file_path ∈ selected_files)) in
      _update_layout_loop columns selected_files (i + 1) rest
        (<[file_path := tile]> tile_widgets) (grid_layout ++ [(tile, (row, col))])
  end.

(** Update the grid layout with current files; [container_width] is
    [self.viewport().width()]. *)
Definition _update_layout (container_width : Z) (s : self) : self :=
  (* Calculate number of columns based on container width *)
  let tile_width := (150 + spacing)%Z in
  let columns := Z.max 1 (container_width / tile_width) in
  (* Add tiles to the layout *)
  let '(tile_widgets, grid_layout) :=
    _update_layout_loop columns (selected_files s) 0 (filtered_files s) ∅ [] in
  mk (files s) (filtered_files s) (current_category s) (search_text s) (show_files s)
     (show_folders s) (selected_files s) tile_widgets grid_layout (update_timer s).

(** Handle resize events to update the layout *)
Definition resizeEvent (s : self) : self := update_timer_start s.

(** The single-shot timer fires: it stops and calls [_update_layout]. *)
Definition update_timer_timeout (container_width : Z) (s : self) : self :=
  if update_timer s then
    _update_layout container_width
      (mk (files s) (filtered_files s) (current_category s) (search_text s)
          (show_files s) (show_folders s) (selected_files s) (tile_widgets s)
          (grid_layout s) false)
  else s.

End FileTileView.

(** ** Vocabulary of the tile view *)

(** What reaches the view: the calls of its methods and the two events. *)
Inductive view_call :=
| call_clear
| call_add_file (file_path : string)
| call_add_files (file_paths : list string)
| call_remove_file (file_path : string)
| call_set_category_filter (category : string)
| call_set_search_filter (search_text : string)
| call_set_file_folder_filter (show_files show_folders : bool)
| event_resize
| event_timeout (container_width : Z).

(** One call, on the disk [m] of its moment. *)
Definition view_step (m : gmap string node) (c : view_call) (s : FileTileView.self)
  : FileTileView.self :=
  match c with
  | call_clear => FileTileView.clear s
  | call_add_file p => FileTileView.add_file m p s
  | call_add_files ps => FileTileView.add_files m ps s
  | call_remove_file p => FileTileView.remove_file m p s
  | call_set_category_filter c => FileTileView.set_category_filter m c s
  | call_set_search_filter t => FileTileView.set_search_filter m t s
  | call_set_file_folder_filter a b => FileTileView.set_file_folder_filter m a b s
  | event_resize => FileTileView.resizeEvent s
  | event_timeout w => FileTileView.update_timer_timeout w s
  end.

(** A history of calls, each with the disk of its moment. *)
Definition view_run (calls : list (gmap string node * view_call)) (s : FileTileView.self)
  : FileTileView.self :=
  fold_left (fun s mc => view_step (fst mc) (snd mc) s) calls s.

(** What every call keeps. *)
Definition view_invariant (s : FileTileView.self) : Prop :=
  NoDup (FileTileView.files s)
  /\ FileTileView.filtered_files s `sublist_of` FileTileView.files s
  /\ NoDup (List.map snd (FileTileView.grid_layout s))
  /\ (FileTileView.update_timer s = false ->
      List.map (fun t => FileTileView.file_path (fst t)) (FileTileView.grid_layout s)
      = FileTileView.filtered_files s
      /\ forall p, is_Some (FileTileView.tile_widgets s !! p)
                   <-> p ∈ FileTileView.filtered_files s).

(** ** The main window: navigation and renaming *)

(** The ASCII characters [str.strip()] removes. *)
Definition is_space (c : ascii) : bool :=
  let n := nat_of_ascii c in
  ((9 <=? n) && (n <=? 13)) || ((28 <=? n) && (n <=? 32)).

Fixpoint str_lstrip (s : string) : string :=
  match s with
  | "" => ""
  | String c rest => if is_space c then str_lstrip rest else s
  end.

Fixpoint str_rstrip (s : string) : string :=
  match s with
  | "" => ""
  | String c rest =>
      let rest := str_rstrip rest in
      if String.eqb rest "" && is_space c then "" else String c rest
  end.

(** [s.strip()] *)
Definition str_strip (s : string) : string := str_rstrip (str_lstrip s).

(** [os.listdir(path)]: the names of the entries of the directory, in the
    order of the keys. *)
Definition os_listdir (m : gmap string node) (path : string) : list string :=
  omap (fun kv => child_name path (fst kv)) (map_to_list m).

(** [xs[:i]], with Python's reading of a negative bound. *)
Definition list_slice_to {A} (i : Z) (xs : list A) : list A :=
  if (i <? 0)%Z then take (Z.to_nat (Z.of_nat (length xs) + i)) xs
  else take (Z.to_nat i) xs.

Module MainWindow.

(** The fields of the window that navigation and renaming use.  [path_input]
    is the text of the path box, [category_buttons] the sidebar buttons with
    their checked state, [status_bar] the message shown, [message_boxes] the
    boxes shown so far with kind, title and text, [selected_file] the
    attribute of that name once it is set, and [preview_current_file] the
    [current_file] of the preview panel. *)
Record self := mk {
  path_input : string;
  file_view : FileTileView.self;
  path_history : list string;
  current_path_index : Z;
  category_buttons : list (string * bool);
  status_bar : string;
  message_boxes : list (string * string * string);
  selected_file : option string;
  preview_current_file : option string
}.

(** The fields [__init__] and [setup_ui] set. *)
Definition __init__ : self :=
  mk "" FileTileView.__init__ [] (-1)
     (("All Files", true) :: ("Files", false) :: ("Folders", false)
      :: List.map (fun item => (fst item, false)) FILE_CATEGORIES)
     "" [] None None.

Definition with_file_view (v : FileTileView.self) (s : self) : self :=
  mk (path_input s) v (path_history s) (current_path_index s) (category_buttons s)
     (status_bar s) (message_boxes s) (selected_file s) (preview_current_file s).

(** [self.path_input.setText(text)] *)
Definition path_input_setText (text : string) (s : self) : self :=
  mk text (file_view s) (path_history s) (current_path_index s) (category_buttons s)
     (status_bar s) (message_boxes s) (selected_file s) (preview_current_file s).

(** [self.statusBar().showMessage(text)] *)
Definition showMessage (text : string) (s : self) : self :=
  mk (path_input s) (file_view s) (path_history s) (current_path_index s)
     (category_buttons s) text (message_boxes s) (selected_file s)
     (preview_current_file s).

(** [QMessageBox.warning] and [QMessageBox.critical] *)
Definition QMessageBox (kind title text : string) (s : self) : self :=
  mk (path_input s) (file_view s) (path_history s) (current_path_index s)
     (category_buttons s) (status_bar s) (message_boxes s ++ [(kind, title, text)])
     (selected_file s) (preview_current_file s).

Definition with_history (history : list string) (index : Z) (s : self) : self :=
  mk (path_input s) (file_view s) history index (category_buttons s)
     (status_bar s) (message_boxes s) (selected_file s) (preview_current_file s).

(** Navigate to the path entered in the path input *)
Definition navigate_to_path (m : gmap string node) (s : self) : self :=
  let path := str_strip (path_input s) in
  if String.eqb path "" then s
  else if negb (exists_in m path) then
    QMessageBox "warning" "Invalid Path"
      ("The path '" +:+ path +:+ "' does not exist.") s
  else
    (* Clear current files *)
    let s := with_file_view (FileTileView.clear (file_view s)) s in
    if isdir_in m path then
      (* Add files and folders from the directory *)
      let items := List.map (fun item => posixpath.join path item) (os_listdir m path) in
      let s := with_file_view (FileTileView.add_files m items (file_view s)) s in
      let s := showMessage ("Navigated to: " +:+ path) s in
      (* Reset category filter to "All Files" when opening a new folder *)
      let s := mk (path_input s) (file_view s) (path_history s) (current_path_index s)
                  (List.map (fun button =>
                               (fst button, String.eqb (fst button) "All Files"))
                            (category_buttons s))
                  (status_bar s) (message_boxes s) (selected_file s)
                  (preview_current_file s) in
      let s := with_file_view
                 (FileTileView.set_category_filter m "All Files" (file_view s)) s in
      let s := with_file_view
                 (FileTileView.set_file_folder_filter m true true (file_view s)) s in
      (* Add to navigation history *)
      (* If we're not at the end of the history, truncate it *)
      let s :=
        if (current_path_index s <? Z.of_nat (length (path_history s)) - 1)%Z
        then with_history (list_slice_to (current_path_index s + 1) (path_history s))
                          (current_path_index s) s
        else s in
      (* Add the new path to history if it's different from the current one *)
      if match last (path_history s) with
         | None => true
         | Some top => negb (String.eqb top path)
         end
      then with_history (path_history s ++ [path])
                        (Z.of_nat (length (path_history s ++ [path])) - 1) s
      else s
    else
      (* It's a file, add it to the view *)
      let s := with_file_view (FileTileView.add_file m path (file_view s)) s in
      showMessage ("Added file: " +:+ path) s.

(** Navigate to the parent folder of the current path *)
Definition navigate_to_parent_folder (m : gmap string node) (s : self) : self :=
  let current_path := str_strip (path_input s) in
  if String.eqb current_path "" || negb (exists_in m current_path) then s
  else
    (* Get the parent directory *)
    let parent_dir := posixpath.dirname current_path in
    (* If we're already at the root, do nothing *)
    if String.eqb parent_dir current_path then s
    else
      (* Navigate to the parent directory *)
      let s := path_input_setText parent_dir s in
      let s := navigate_to_path m s in
      showMessage ("Navigated to parent: " +:+ parent_dir) s.

(** Refresh the current view *)
Definition refresh_files (m : gmap string node) (s : self) : self :=
  let current_path := str_strip (path_input s) in
  if negb (String.eqb current_path "") && exists_in m current_path then
    let s := navigate_to_path m s in
    showMessage ("Refreshed: " +:+ current_path) s
  else showMessage "Nothing to refresh" s.

(** Show context menu for a file: the file becomes the selected one; what the
    user picks in the menu is a later call. *)
Definition show_file_context_menu (file_path : string) (s : self) : self :=
  mk (path_input s) (file_view s) (path_history s) (current_path_index s)
     (category_buttons s) (status_bar s) (message_boxes s) (Some file_path)
     (preview_current_file s).

(** Rename the selected file; [answer] is what [QInputDialog.getText]
    returns, the text and whether the dialog was accepted. *)
Definition rename_selected_file (answer : string * bool) (s : self) (w : World)
  : self * World :=
  match selected_file s with
  | None => (s, w)
  | Some file_path =>
      let old_name := posixpath.basename file_path in
      let parent_dir := posixpath.dirname file_path in
      let '(new_name, ok) := answer in
      if ok && negb (String.eqb new_name "") && negb (String.eqb new_name old_name) then
        let new_path := posixpath.join parent_dir new_name in
        (* Check if the new name already exists *)
        if exists_in (fs w) new_path then
          (QMessageBox "warning" "File Exists"
             ("A file named '" +:+ new_name +:+ "' already exists in this location.") s,
           w)
        else
          (* Rename the file *)
          match os_rename file_path new_path w with
          | (Ok _, w) =>
              (* Update the view *)
              let s := with_file_view
                         (FileTileView.remove_file (fs w) file_path (file_view s)) s in
              let s := with_file_view
                         (FileTileView.add_file (fs w) new_path (file_view s)) s in
              (* Update preview if needed *)
              let preview :=
                if bool_decide (preview_current_file s = Some file_path)
                then Some new_path else preview_current_file s in
              let s := mk (path_input s) (file_view s) (path_history s)
                          (current_path_index s) (category_buttons s) (status_bar s)
                          (message_boxes s) (Some new_path) preview in
              (showMessage ("Renamed: " +:+ old_name +:+ " to " +:+ new_name) s, w)
          | (Raise e, w) =>
              (QMessageBox "critical" "Error"
                 ("Failed to rename file: " +:+ exn_str e) s, w)
          end
      else (s, w)
  end.

(** The loop of [delete_selected_file] over the selected files. *)
Fixpoint delete_selected_file_loop (selected_files : list string) (deleted_count : nat)
    (s : self) (w : World) : nat * self * World :=
  match selected_files with
  | [] => (deleted_count, s, w)
  | file_path :: rest =>
      (* Delete the file or directory *)
      match (if isdir_in (fs w) file_path
             then shutil_rmtree file_path w
             else os_remove file_path w) with
      | (Ok _, w) =>
          (* Update the view *)
          let s := with_file_view
                     (FileTileView.remove_file (fs w) file_path (file_view s)) s in
          (* Update preview if needed *)
          let s := if bool_decide (preview_current_file s = Some file_path)
                   then mk (path_input s) (file_view s) (path_history s)
                           (current_path_index s) (category_buttons s) (status_bar s)
                           (message_boxes s) (selected_file s) None
                   else s in
          delete_selected_file_loop rest (deleted_count + 1) s w
      | (Raise e, w) =>
          let s := QMessageBox "critical" "Error"
                     ("Failed to delete " +:+ posixpath.basename file_path +:+ ": "
                      +:+ exn_str e) s in
          delete_selected_file_loop rest deleted_count s w
      end
  end.

(** Delete the selected file; [listed] is what
    [self.file_view.get_selected_files()] returns, the selected paths in the
    order of the set, and [response_No] whether the confirmation was
    answered with No. *)
Definition delete_selected_file (listed : list string) (response_No : bool)
    (s : self) (w : World) : self * World :=
  let selected_files :=
    match listed with
    | [] => match selected_file s with
            | Some file_path => Some [file_path]
            | None => None
            end
    | _ => Some listed
    end in
  match selected_files with
  | None => (s, w)
  | Some selected_files =>
      (* Confirm deletion *)
      let message :=
        match selected_files with
        | [file_path] =>
            "Are you sure you want to delete '" +:+ posixpath.basename file_path +:+ "'?"
        | _ =>
            "Are you sure you want to delete " +:+ Py.str (length selected_files)
            +:+ " items?"
        end in
      let s := QMessageBox "question" "Confirm Delete" message s in
      if response_No then (s, w)
      else
        let '(deleted_count, s, w) := delete_selected_file_loop selected_files 0 s w in
        if 0 <? deleted_count
        then (showMessage ("Deleted " +:+ Py.str deleted_count +:+ " items") s, w)
        else (s, w)
  end.

End MainWindow.

(** ** Vocabulary of the main window *)

(** What the user does with the path box and the navigation. *)
Inductive window_call :=
| edit_path (text : string)
| call_navigate_to_path
| call_navigate_to_parent_folder
| call_refresh_files
| call_rename_selected_file (answer : string * bool)
| call_show_file_context_menu (file_path : string)
| call_view (c : view_call).

(** One call, on the world [w] of its moment. *)
Definition window_step (w : World) (c : window_call) (s : MainWindow.self)
  : MainWindow.self :=
  match c with
  | edit_path text => MainWindow.path_input_setText text s
  | call_navigate_to_path => MainWindow.navigate_to_path (fs w) s
  | call_navigate_to_parent_folder => MainWindow.navigate_to_parent_folder (fs w) s
  | call_refresh_files => MainWindow.refresh_files (fs w) s
  | call_rename_selected_file answer => fst (MainWindow.rename_selected_file answer s w)
  | call_show_file_context_menu file_path =>
      MainWindow.show_file_context_menu file_path s
  | call_view c =>
      MainWindow.with_file_view (view_step (fs w) c (MainWindow.file_view s)) s
  end.

(** A history of calls, each with the world of its moment. *)
Definition window_run (calls : list (World * window_call)) (s : MainWindow.self)
  : MainWindow.self :=
  fold_left (fun s wc => window_step (fst wc) (snd wc) s) calls s.

(** No two neighbours of the list are equal. *)
Fixpoint no_repeat (l : list string) : Prop :=
  match l with
  | x :: (y :: _) as rest => x <> y /\ no_repeat rest
  | _ => True
  end.

(** The paths the deletion is about: the listed ones, or the selected file
    when none is listed. *)
Definition deletion_targets (listed : list string) (s : MainWindow.self) : list string :=
  match listed with
  | [] => match MainWindow.selected_file s with
          | Some file_path => [file_path]
          | None => []
          end
  | _ => listed
  end.

(** ** The strings the model is exact on *)

(** [s.isascii()].  A string of the model stands for a Python [str]; on an
    ASCII string [Py.lower], [Py.upper] and [str_strip] are [str.lower()],
    [str.upper()] and [str.strip()], which beyond ASCII follow the Unicode
    tables. *)
Definition is_ascii (s : string) : bool :=
  negb (Py.existsb (fun c => 128 <=? nat_of_ascii c) s).

(** ** The paths the model is exact on *)

(** [p.split('/')] *)
Fixpoint path_components (p : string) : list string :=
  match p with
  | "" => [""]
  | String c rest =>
      if Ascii.eqb c "/" then "" :: path_components rest
      else match path_components rest with
           | x :: xs => String c x :: xs
           | [] => [String c ""]
           end
  end.

(** An absolute path in normal form, other than the root: it starts with a
    separator, does not end with one, and no component is empty, [.] or
    [..].  A world holds its entries under such paths, and for such a path
    the lookup in the world is what [os.path.exists], [os.path.isdir] and
    [open] find on disk; another spelling of a path ([/d/], [/d//x], [x])
    names on disk an entry that the world holds under its normal form. *)
Definition is_entry_path (p : string) : bool :=
  negb (Py.endswith p "/")
  && match path_components p with
     | "" :: (_ :: _) as components =>
         forallb (fun c => negb (Py.contains [""; "."; ".."] c)) (tl components)
     | _ => false
     end.



(** * Properties *)

Example splitext_ex1 : posixpath.splitext "a.JPG" = ("a", ".JPG").
Proof. reflexivity. Qed.
Example splitext_ex2 : posixpath.splitext "/d.x/.bashrc" = ("/d.x/.bashrc", "").
Proof. reflexivity. Qed.
Example splitext_ex3 : posixpath.splitext "/d/archive.tar.gz" = ("/d/archive.tar", ".gz").
Proof. reflexivity. Qed.
Example dirname_ex1 : posixpath.dirname "/a//b" = "/a".
Proof. reflexivity. Qed.
Example dirname_ex2 : posixpath.dirname "//b" = "//".
Proof. reflexivity. Qed.
Example join_ex1 : posixpath.join3 "t" "" "f.txt" = "t/f.txt".
Proof. reflexivity. Qed.
Example category_ex1 : get_file_category "/home/u/Photo.JPG" = "Images".
Proof. reflexivity. Qed.


(** *** Facts about the string primitives *)

Section StringFacts.

Lemma str_app_cons c (s t : string) : String c s +:+ t = String c (s +:+ t).
Proof. reflexivity. Qed.

Lemma str_take_drop n s : Py.take n s +:+ Py.drop n s = s.
Proof.
  revert s; induction n as [|n IH]; intros [|c r]; simpl; try reflexivity.
  now rewrite str_app_cons, IH.
Qed.

Lemma str_length_app (s t : string) :
  String.length (s +:+ t) = String.length s + String.length t.
Proof.
  induction s as [|c s IH]; [reflexivity |].
  rewrite str_app_cons. simpl. now rewrite IH.
Qed.

Lemma str_length_map f s : String.length (Py.map f s) = String.length s.
Proof. induction s as [|c s IH]; simpl; [reflexivity | now rewrite IH]. Qed.

Lemma str_take_map f n s : Py.take n (Py.map f s) = Py.map f (Py.take n s).
Proof.
  revert s; induction n as [|n IH]; intros [|c r]; simpl; try reflexivity.
  now rewrite IH.
Qed.

Lemma str_drop_map f n s : Py.drop n (Py.map f s) = Py.map f (Py.drop n s).
Proof.
  revert s; induction n as [|n IH]; intros [|c r]; simpl; try reflexivity.
  apply IH.
Qed.

Lemma slice_to_map f i s :
  Py.slice_to i (Py.map f s) = Py.map f (Py.slice_to i s).
Proof.
  unfold Py.slice_to, Py.len. rewrite str_length_map.
  destruct (i <? 0)%Z; apply str_take_map.
Qed.

Lemma slice_from_map f i s :
  Py.slice_from i (Py.map f s) = Py.map f (Py.slice_from i s).
Proof.
  unfold Py.slice_from, Py.len. rewrite str_length_map.
  destruct (i <? 0)%Z; apply str_drop_map.
Qed.

Lemma slice_map f i j s :
  Py.slice i j (Py.map f s) = Py.map f (Py.slice i j s).
Proof. unfold Py.slice. now rewrite slice_from_map, slice_to_map. Qed.

Lemma rfind_map f c s :
  (forall a, Ascii.eqb (f a) c = Ascii.eqb a c) ->
  Py.rfind c (Py.map f s) = Py.rfind c s.
Proof.
  intros Hf. induction s as [|a s IH]; simpl; [reflexivity |].
  now rewrite IH, Hf.
Qed.

Lemma str_existsb_map f g s :
  Py.existsb g (Py.map f s) = Py.existsb (fun c => g (f c)) s.
Proof. induction s as [|a s IH]; simpl; [reflexivity | now rewrite IH]. Qed.

Lemma str_existsb_ext g h s :
  (forall c, g c = h c) -> Py.existsb g s = Py.existsb h s.
Proof.
  intros E. induction s as [|a s IH]; simpl; [reflexivity | now rewrite IH, E].
Qed.

Lemma str_map_map f g s : Py.map g (Py.map f s) = Py.map (fun c => g (f c)) s.
Proof. induction s as [|a s IH]; simpl; [reflexivity | now rewrite IH]. Qed.

Lemma str_map_ext f g s : (forall c, f c = g c) -> Py.map f s = Py.map g s.
Proof.
  intros E. induction s as [|a s IH]; simpl; [reflexivity | now rewrite IH, E].
Qed.

(** [splitext] only looks at separators and dots, so it commutes with any
    character map that keeps both. *)
Lemma splitext_map f p :
  (forall a, Ascii.eqb (f a) "/" = Ascii.eqb a "/") ->
  (forall a, Ascii.eqb (f a) "." = Ascii.eqb a ".") ->
  posixpath.splitext (Py.map f p)
  = (Py.map f (fst (posixpath.splitext p)),
     Py.map f (snd (posixpath.splitext p))).
Proof.
  intros Hsep Hdot. unfold posixpath.splitext.
  rewrite !rfind_map by assumption.
  destruct (_ <? _)%Z; [|reflexivity].
  rewrite slice_map, str_existsb_map.
  rewrite (str_existsb_ext _ (fun c => negb (Ascii.eqb c "."))).
  2:{ intros c. now rewrite Hdot. }
  destruct (Py.existsb _ _); simpl; [|reflexivity].
  now rewrite slice_to_map, slice_from_map.
Qed.

Lemma lower_upper_char c : Py.lower_char (Py.upper_char c) = Py.lower_char c.
Proof. destruct c as [[] [] [] [] [] [] [] []]; reflexivity. Qed.

Lemma lower_lower_char c : Py.lower_char (Py.lower_char c) = Py.lower_char c.
Proof. destruct c as [[] [] [] [] [] [] [] []]; reflexivity. Qed.

Lemma upper_char_keeps c d :
  d = "/"%char \/ d = "."%char ->
  Ascii.eqb (Py.upper_char c) d = Ascii.eqb c d.
Proof.
  intros [->| ->]; destruct c as [[] [] [] [] [] [] [] []]; reflexivity.
Qed.

Lemma lower_char_keeps c d :
  d = "/"%char \/ d = "."%char ->
  Ascii.eqb (Py.lower_char c) d = Ascii.eqb c d.
Proof.
  intros [->| ->]; destruct c as [[] [] [] [] [] [] [] []]; reflexivity.
Qed.

End StringFacts.

(** *** Classification: the result is a label, [Others] is the fallback *)

Lemma get_file_category_loop_cases ext items :
  (exists exts, In (get_file_category_loop ext items, exts) items
                /\ Py.contains exts ext = true)
  \/ (get_file_category_loop ext items = "Others"
      /\ List.existsb (fun item => Py.contains (snd item) ext) items = false).
Proof.
  induction items as [|[category extensions] rest IH]; simpl.
  - right. split; reflexivity.
  - destruct (Py.contains extensions ext) eqn:E.
    + left. exists extensions. split; [now left | assumption].
    + destruct IH as [(exts & Hin & Hc)|[H1 H2]].
      * left. exists exts. split; [now right | assumption].
      * right. split; assumption.
Qed.

Lemma get_file_category_label file_path :
  In (get_file_category file_path) Category_labels.
Proof.
  unfold get_file_category.
  destruct (get_file_category_loop_cases
              (Py.lower (snd (posixpath.splitext file_path))) FILE_CATEGORIES)
    as [(exts & Hin & _)|[-> _]].
  - apply (in_map fst) in Hin. exact Hin.
  - simpl. tauto.
Qed.

Lemma get_file_category_Others file_path :
  get_file_category file_path = "Others"
  <-> in_table (Py.lower (snd (posixpath.splitext file_path))) = false.
Proof.
  unfold get_file_category, in_table.
  set (ext := Py.lower _).
  destruct (get_file_category_loop_cases ext FILE_CATEGORIES)
    as [(exts & Hin & Hc)|[H1 H2]].
  - split.
    + intros E. rewrite E in Hin. exfalso.
      simpl in Hin.
      repeat (destruct Hin as [Hin|Hin]; [discriminate Hin || (injection Hin as <-; discriminate Hc)|]).
      exact Hin.
    + intros E. exfalso.
      assert (List.existsb (fun item => Py.contains (snd item) ext)
                FILE_CATEGORIES = true) as X.
      { apply existsb_exists. eexists; split; [exact Hin | exact Hc]. }
      congruence.
  - tauto.
Qed.

Lemma get_file_category_upper p :
  get_file_category (Py.upper p) = get_file_category p.
Proof.
  unfold get_file_category, Py.upper, Py.lower.
  rewrite splitext_map by (intros a; apply upper_char_keeps; tauto).
  simpl snd. rewrite str_map_map.
  now rewrite (str_map_ext _ Py.lower_char) by apply lower_upper_char.
Qed.

Lemma get_file_category_lower p :
  get_file_category (Py.lower p) = get_file_category p.
Proof.
  unfold get_file_category, Py.lower.
  rewrite splitext_map by (intros a; apply lower_char_keeps; tauto).
  simpl snd. rewrite str_map_map.
  now rewrite (str_map_ext _ Py.lower_char) by apply lower_lower_char.
Qed.

(** ** AES-CBC and PKCS#7 *)

Section Cipher.
Context `{C : CryptoLib}.

Lemma aligned_nonempty_ge (data : bytes) :
  data <> [] -> length data mod 16 = 0 -> 16 <= length data.
Proof.
  intros Hne Hal. destruct data as [|b r]; [congruence |].
  destruct (Nat.lt_ge_cases (length (b :: r)) 16) as [Hlt|]; [|assumption].
  rewrite Nat.mod_small in Hal by assumption. discriminate.
Qed.

Lemma aligned_drop (n : nat) (data : bytes) :
  n mod 16 = 0 -> length data mod 16 = 0 -> length (drop n data) mod 16 = 0.
Proof.
  intros Hn Hal. rewrite length_drop.
  destruct (Nat.le_gt_cases n (length data)) as [Hle|Hgt].
  - apply Nat.Div0.mod_divides in Hn as [a ->].
    apply Nat.Div0.mod_divides in Hal as [b Hb]. rewrite Hb.
    rewrite <- Nat.mul_sub_distr_l. rewrite Nat.mul_comm. apply Nat.Div0.mod_mul.
  - replace (length data - n) with 0 by lia. reflexivity.
Qed.


Lemma cbc_encrypt_cons key chain (b : byte) (r : bytes) :
  cbc_encrypt key chain (b :: r)
  = (AES_encrypt_block key (xor_bytes (take 16 (b :: r)) chain)
       ++ fst (cbc_encrypt key
                 (AES_encrypt_block key (xor_bytes (take 16 (b :: r)) chain))
                 (drop 16 (b :: r))),
     snd (cbc_encrypt key
            (AES_encrypt_block key (xor_bytes (take 16 (b :: r)) chain))
            (drop 16 (b :: r)))).
Proof. now simp cbc_encrypt. Qed.

Lemma cbc_decrypt_cons key chain (b : byte) (r : bytes) :
  cbc_decrypt key chain (b :: r)
  = (xor_bytes (AES_decrypt_block key (take 16 (b :: r))) chain
       ++ fst (cbc_decrypt key (take 16 (b :: r)) (drop 16 (b :: r))),
     snd (cbc_decrypt key (take 16 (b :: r)) (drop 16 (b :: r)))).
Proof. now simp cbc_decrypt. Qed.

Lemma cbc_encrypt_app key (a : bytes) : forall chain (b : bytes),
  length a mod 16 = 0 ->
  cbc_encrypt key chain (a ++ b)
  = (fst (cbc_encrypt key chain a)
       ++ fst (cbc_encrypt key (snd (cbc_encrypt key chain a)) b),
     snd (cbc_encrypt key (snd (cbc_encrypt key chain a)) b)).
Proof.
  remember (length a) as n eqn:Hn. revert a Hn.
  induction n as [n IH] using lt_wf_ind. intros a Hn chain b Hal. subst n.
  destruct a as [|x a'].
  - simp cbc_encrypt. simpl. now destruct (cbc_encrypt key chain b).
  - pose proof (aligned_nonempty_ge (x :: a') ltac:(discriminate) Hal) as Hge.
    change ((x :: a') ++ b) with (x :: (a' ++ b)).
    rewrite !cbc_encrypt_cons.
    change (x :: (a' ++ b)) with ((x :: a') ++ b).
    rewrite take_app_le by lia. rewrite drop_app_le by lia.
    set (c := AES_encrypt_block key _).
    rewrite (IH (length (drop 16 (x :: a')))); [| rewrite length_drop; simpl; lia | reflexivity | now apply aligned_drop].
    cbn [fst snd]. now rewrite app_assoc.
Qed.

Lemma xor_bytes_length (a b : bytes) :
  length (xor_bytes a b) = Nat.min (length a) (length b).
Proof. unfold xor_bytes. revert b; induction a; intros [|]; simpl; auto. Qed.

Lemma xor_bytes_involutive (a b : bytes) :
  length a <= length b -> xor_bytes (xor_bytes a b) b = a.
Proof.
  unfold xor_bytes. revert b; induction a as [|x a IH]; intros [|y b] Hl; simpl in *;
    try reflexivity; try lia.
  rewrite IH by lia. f_equal.
  now rewrite N.lxor_assoc, N.lxor_nilpotent, N.lxor_0_r.
Qed.

Context {L : CryptoLaws C}.

Lemma cbc_encrypt_length key (data : bytes) : forall chain,
  length data mod 16 = 0 -> length chain = 16 ->
  length (fst (cbc_encrypt key chain data)) = length data
  /\ length (snd (cbc_encrypt key chain data)) = 16.
Proof.
  remember (length data) as n eqn:Hn. revert data Hn.
  induction n as [n IH] using lt_wf_ind. intros data Hn chain Hal Hc. subst n.
  destruct data as [|x r].
  - simp cbc_encrypt. simpl. auto.
  - pose proof (aligned_nonempty_ge (x :: r) ltac:(discriminate) Hal) as Hge.
    rewrite cbc_encrypt_cons. cbn [fst snd].
    set (blk := xor_bytes (take 16 (x :: r)) chain).
    assert (length blk = 16) as Hblk.
    { unfold blk. rewrite xor_bytes_length, length_take. lia. }
    pose proof (AES_encrypt_block_length key blk Hblk) as Hc'.
    destruct (IH (length (drop 16 (x :: r)))
                ltac:(rewrite length_drop; simpl; lia) (drop 16 (x :: r)) eq_refl
                (AES_encrypt_block key blk)
                ltac:(now apply aligned_drop) Hc') as [H1 H2].
    split; [| exact H2].
    rewrite length_app, H1, Hc', length_drop. lia.
Qed.

Lemma cbc_decrypt_block key chain (c rest : bytes) :
  length c = 16 ->
  cbc_decrypt key chain (c ++ rest)
  = (xor_bytes (AES_decrypt_block key c) chain ++ fst (cbc_decrypt key c rest),
     snd (cbc_decrypt key c rest)).
Proof.
  intros Hc. destruct c as [|c0 c'] eqn:Ec; [discriminate Hc |].
  rewrite <- Ec in *. assert (c ++ rest = c0 :: (c' ++ rest)) as -> by now subst c.
  rewrite cbc_decrypt_cons.
  assert (c0 :: (c' ++ rest) = c ++ rest) as -> by now subst c.
  rewrite take_app_length' by congruence.
  now rewrite drop_app_length' by congruence.
Qed.

Lemma cbc_decrypt_encrypt key (data : bytes) : forall chain,
  length data mod 16 = 0 -> length chain = 16 ->
  fst (cbc_decrypt key chain (fst (cbc_encrypt key chain data))) = data.
Proof.
  remember (length data) as n eqn:Hn. revert data Hn.
  induction n as [n IH] using lt_wf_ind. intros data Hn chain Hal Hc. subst n.
  destruct data as [|x r].
  - simp cbc_encrypt. simpl. now simp cbc_decrypt.
  - pose proof (aligned_nonempty_ge (x :: r) ltac:(discriminate) Hal) as Hge.
    rewrite cbc_encrypt_cons. cbn [fst snd].
    set (blk := xor_bytes (take 16 (x :: r)) chain).
    assert (length blk = 16) as Hblk.
    { unfold blk. rewrite xor_bytes_length, length_take. lia. }
    pose proof (AES_encrypt_block_length key blk Hblk) as Hc'.
    rewrite cbc_decrypt_block by exact Hc'. cbn [fst].
    rewrite AES_decrypt_encrypt_block by exact Hblk.
    unfold blk at 1. rewrite xor_bytes_involutive by (rewrite length_take; lia).
    rewrite (IH (length (drop 16 (x :: r)))); [| rewrite length_drop; simpl; lia | reflexivity | now apply aligned_drop | exact Hc'].
    apply take_drop.
Qed.


(** *** PKCS#7 *)

Lemma pad_length_bounds (x : bytes) :
  1 <= 16 - length x mod 16 <= 16.
Proof. pose proof (Nat.mod_upper_bound (length x) 16). lia. Qed.

Lemma pad_aligned (x : bytes) : length (pad x 16) mod 16 = 0.
Proof.
  unfold pad. rewrite length_app, repeat_length.
  pose proof (Nat.mod_upper_bound (length x) 16 ltac:(lia)) as Hb.
  rewrite (Nat.div_mod_eq (length x) 16) at 1.
  replace (16 * (length x / 16) + length x mod 16 + (16 - length x mod 16))
    with ((length x / 16 + 1) * 16) by lia.
  apply Nat.Div0.mod_mul.
Qed.

Lemma last_app_repeat (x : bytes) (v : byte) n :
  0 < n -> List.last (x ++ repeat v n) 0%N = v.
Proof.
  intros Hn. destruct n as [|n]; [lia |].
  replace (repeat v (S n)) with (repeat v n ++ [v]).
  - rewrite app_assoc. apply last_last.
  - clear. induction n as [|n IH]; simpl; [reflexivity |]. now rewrite IH.
Qed.

Lemma unpad_pad (x : bytes) : unpad (pad x 16) 16 = Ok x.
Proof.
  pose proof (pad_length_bounds x) as Hp. pose proof (pad_aligned x) as Hal.
  unfold unpad. rewrite Hal.
  unfold pad in *. set (p := 16 - length x mod 16) in *.
  rewrite length_app, repeat_length in *.
  replace (length x + p =? 0) with false by (symmetry; apply Nat.eqb_neq; lia).
  cbn [Nat.eqb negb].
  rewrite last_app_repeat by lia. rewrite Nat2N.id.
  replace (p <? 1) with false by (symmetry; apply Nat.ltb_ge; lia).
  replace (Nat.min 16 (length x + p) <? p) with false
    by (symmetry; apply Nat.ltb_ge; lia).
  cbn [orb].
  replace (length x + p - p) with (length x) by lia.
  rewrite drop_app_length, take_app_length.
  rewrite bool_decide_eq_true_2 by reflexivity. reflexivity.
Qed.

(** What [unpad] returns is a strict prefix of its argument. *)
Lemma unpad_Ok_shorter (x y : bytes) :
  unpad x 16 = Ok y -> length y < length x /\ y = take (length y) x.
Proof.
  unfold unpad. intros H.
  destruct (length x =? 0) eqn:E0; [discriminate |].
  apply Nat.eqb_neq in E0.
  destruct (negb _); [discriminate |].
  destruct (_ || _) eqn:Eb; [discriminate |].
  apply orb_false_elim in Eb as [Eb1 Eb2].
  apply Nat.ltb_ge in Eb1, Eb2.
  destruct (negb _); [discriminate |].
  injection H as <-. rewrite length_take.
  split; [lia |]. f_equal. lia.
Qed.

End Cipher.

(** ** The world and the chunk loop *)

Section Worlds.

Lemma with_fs_with_fs f g w : with_fs f (with_fs g w) = with_fs (fun m => f (g m)) w.
Proof. reflexivity. Qed.

Lemma with_fs_id f w : f (fs w) = fs w -> with_fs f w = w.
Proof. intros H. destruct w. unfold with_fs. simpl in *. now rewrite H. Qed.

Lemma alter_lookup_insert (f : node -> node) p x (m : gmap string node) :
  m !! p = Some x -> alter f p m = <[p := f x]> m.
Proof.
  intros H. apply map_eq. intros k. rewrite lookup_alter, lookup_insert.
  destruct (decide (p = k)) as [->|]; [now rewrite H | reflexivity].
Qed.

Lemma write_existing out data w d t :
  fs w !! out = Some (File d t) ->
  write out data w = (Ok tt, with_fs (insert out (File (d ++ data) (now w))) w).
Proof.
  intros H. unfold write. f_equal. unfold with_fs. f_equal.
  now rewrite (alter_lookup_insert _ _ _ _ H).
Qed.

End Worlds.

Section Loop.
Context `{C : CryptoLib}.
Import EncryptionWorker.

Lemma _encrypt_file_loop_unfold size cipher infile outfile w :
  _encrypt_file_loop size cipher infile outfile w
  = match take size infile with
    | [] => (Ok tt, w)
    | b :: c =>
        let chunk := b :: c in
        let chunk := if negb (length chunk mod 16 =? 0) then pad chunk 16 else chunk in
        ((r ← lift (cipher_encrypt cipher chunk);
          _ ← write outfile (fst r);
          ((fun w' => _encrypt_file_loop size (snd r) (drop size infile) outfile w')
           : M unit)) : M unit) w
    end.
Proof.
  rewrite _encrypt_file_loop_equation_1.
  unfold _encrypt_file_loop_unfold_clause_1.
  generalize (inspect (take size infile)). intros [l Hl].
  rewrite Hl. destruct l; reflexivity.
Qed.

Lemma padded_plaintext_aligned content : length (padded_plaintext content) mod 16 = 0.
Proof.
  unfold padded_plaintext. destruct (_ =? 0) eqn:E.
  - now apply Nat.eqb_eq.
  - apply pad_aligned.
Qed.

Lemma _encrypt_file_loop_spec size key (infile : bytes) : forall chain outfile w d,
  0 < size -> size mod 16 = 0 ->
  fs w !! outfile = Some (File d (now w)) ->
  _encrypt_file_loop size (mkCipher key chain) infile outfile w
  = (Ok tt,
     with_fs (insert outfile
                (File (d ++ fst (cbc_encrypt key chain (padded_plaintext infile)))
                      (now w))) w).
Proof.
  remember (length infile) as n eqn:Hn. revert infile Hn.
  induction n as [n IH] using lt_wf_ind.
  intros infile Hn chain outfile w d Hsz Hal Hout. subst n.
  rewrite _encrypt_file_loop_unfold.
  destruct infile as [|x r].
  - rewrite take_nil. unfold padded_plaintext. simpl length.
    rewrite Nat.Div0.mod_0_l. cbn [Nat.eqb]. simp cbc_encrypt. cbn [fst].
    rewrite app_nil_r. f_equal. symmetry. apply with_fs_id.
    now apply insert_id.
  - destruct size as [|size']; [lia |].
    set (size := S size') in *.
    assert (take size (x :: r) = x :: take size' r) as Ht by reflexivity.
    rewrite Ht. rewrite <- Ht. cbv zeta.
    destruct (Nat.le_gt_cases (length (x :: r)) size) as [Hle|Hgt].
    + (* the last chunk *)
      rewrite take_ge by exact Hle. rewrite drop_ge by exact Hle.
      fold (padded_plaintext (x :: r)).
      replace (if negb (length (x :: r) mod 16 =? 0) then pad (x :: r) 16 else x :: r)
        with (padded_plaintext (x :: r))
        by (unfold padded_plaintext; now destruct (_ =? 0)).
      unfold mbind, ST_bind, lift, cipher_encrypt. cbn [cipher_key cipher_chain].
      rewrite padded_plaintext_aligned. cbn [Nat.eqb fst snd].
      rewrite (write_existing _ _ _ _ _ Hout).
      rewrite _encrypt_file_loop_unfold. rewrite take_nil. reflexivity.
    + (* a full chunk, more to come *)
      assert (length (take size (x :: r)) = size) as Hlen
        by (rewrite length_take; lia).
      rewrite Hlen, Hal. cbn [Nat.eqb negb].
      unfold mbind, ST_bind, lift, cipher_encrypt. cbn [cipher_key cipher_chain].
      rewrite Hlen, Hal. cbn [Nat.eqb fst snd].
      rewrite (write_existing _ _ _ _ _ Hout).
      erewrite (IH (length (drop size (x :: r)))); 
        [| rewrite length_drop; simpl; lia | reflexivity | lia | exact Hal
         | cbn [with_fs fs now]; apply lookup_insert_eq ].
      f_equal. rewrite with_fs_with_fs. cbn [with_fs fs now].
      unfold with_fs. f_equal. rewrite insert_insert_eq. f_equal. f_equal.
      rewrite <- app_assoc. f_equal.
      assert (padded_plaintext (x :: r)
              = take size (x :: r) ++ padded_plaintext (drop size (x :: r))) as ->.
      { unfold padded_plaintext. rewrite length_drop.
        assert ((length (x :: r) - size) mod 16 = length (x :: r) mod 16) as ->.
        { apply Nat.Div0.mod_divides in Hal as [k Hk].
          replace (length (x :: r)) with ((length (x :: r) - size) + k * 16) at 2 by lia.
          now rewrite Nat.Div0.mod_add. }
        destruct (_ =? 0).
        - now rewrite take_drop.
        - unfold pad. rewrite app_assoc, take_drop, length_drop.
          assert ((length (x :: r) - size) mod 16 = length (x :: r) mod 16) as ->; [|reflexivity].
          apply Nat.Div0.mod_divides in Hal as [k Hk].
          replace (length (x :: r)) with ((length (x :: r) - size) + k * 16) at 2 by lia.
          now rewrite Nat.Div0.mod_add. }
      rewrite cbc_encrypt_app by (rewrite Hlen; exact Hal).
      reflexivity.
Qed.

End Loop.

(** ** The stream cipher codec *)

Lemma BUFFER_SIZE_pos : 0 < BUFFER_SIZE.
Proof. unfold BUFFER_SIZE. lia. Qed.

Lemma BUFFER_SIZE_aligned : BUFFER_SIZE mod 16 = 0.
Proof.
  assert (BUFFER_SIZE = 4096 * 16) as -> by (unfold BUFFER_SIZE; lia).
  apply Nat.Div0.mod_mul.
Qed.

Section Codec.
Context `{C : CryptoLib}.
Import EncryptionWorker.

Lemma open_wb_writable p w :
  writable (fs w) p ->
  open_wb p w = (Ok p, with_fs (insert p (File [] (now w))) w).
Proof.
  intros [Hnd Hp]. unfold open_wb. rewrite Hp.
  destruct (fs w !! p) as [[|]|]; try reflexivity. congruence.
Qed.

Lemma _encrypt_file_spec s input_path output_path w content t :
  fs w !! input_path = Some (File content t) ->
  writable (fs w) output_path ->
  _encrypt_file s input_path output_path w
  = (Ok tt,
     with_fs (insert output_path
                (File (container_of (password s)
                         (random_window w (drawn w) 16)
                         (random_window w (drawn w + 16) 16) content)
                      (now w)))
       (with_drawn (drawn w + 16 + 16) w)).
Proof.
  intros Hin Hout. unfold _encrypt_file.
  generalize BUFFER_SIZE_pos BUFFER_SIZE_aligned. generalize BUFFER_SIZE.
  intros size Hpos Hal.
  cbv beta iota zeta delta [mbind ST_bind mret ST_ret lift get_random_bytes
    derive_key_from_password AES_new fst snd drawn random with_drawn].
  rewrite length_map, length_seq. cbn [Nat.eqb].
  unfold open_rb. cbn [fs]. rewrite Hin.
  rewrite open_wb_writable by exact Hout.
  erewrite write_existing by (cbn [fs with_fs]; apply lookup_insert_eq).
  erewrite write_existing by (cbn [fs with_fs]; apply lookup_insert_eq).
  erewrite _encrypt_file_loop_spec;
    [| exact Hpos | exact Hal | cbn [fs with_fs now]; apply lookup_insert_eq].
  f_equal. unfold with_fs, with_drawn. cbn [fs random drawn now statuses].
  f_equal. rewrite !insert_insert_eq. unfold container_of, derived_key, random_window.
  cbn [app]. now rewrite <- !app_assoc.
Qed.

Lemma unpad_Raise (x : bytes) n e :
  unpad x n = Raise e -> exists msg, e = ValueError msg.
Proof.
  unfold unpad. intros H.
  repeat match type of H with
         | (if ?c then _ else _) = _ => destruct c
         end; try discriminate; injection H as <-; eauto.
Qed.

Lemma open_wb_cases p w :
  (exists w', open_wb p w = (Ok p, w')
              /\ fs w' = <[p := File [] (now w)]> (fs w) /\ now w' = now w)
  \/ (exists e, open_wb p w = (Raise e, w) /\ is_OSError e = true).
Proof.
  unfold open_wb.
  destruct (fs w !! p) as [[|]|]; unfold check_parent;
    repeat match goal with
           | |- context [if ?c then _ else _] => destruct c
           | |- context [match ?m !! ?k with _ => _ end] => destruct (m !! k) as [[|]|]
           end;
    try (left; eexists; split; [reflexivity | split; reflexivity]);
    right; eexists; split; reflexivity.
Qed.

Lemma _decrypt_file_spec s input_path output_path w data t :
  fs w !! input_path = Some (File data t) ->
  _decrypt_file s input_path output_path w
  = match decrypt_bytes (password s) data with
    | Ok decrypted_data =>
        (outfile ← open_wb output_path; write outfile decrypted_data) w
    | Raise e => (Raise e, w)
    end.
Proof.
  intros Hin. unfold _decrypt_file, decrypt_bytes, read.
  cbv beta iota zeta delta [mbind ST_bind mret ST_ret lift
    derive_key_from_password AES_new fst snd try_except_ValueError raise].
  unfold open_rb. rewrite Hin. fold (derived_key (password s) (take 16 data)).
  destruct (length (take 16 (drop 16 data)) =? 16); [| reflexivity].
  unfold cipher_decrypt. cbn [cipher_key cipher_chain].
  destruct (length (drop 16 (drop 16 data)) mod 16 =? 0); [| reflexivity].
  cbn [fst snd].
  destruct (unpad _ 16) as [pt|e] eqn:Eu.
  - destruct (open_wb_cases output_path w) as [(w' & -> & _)|(e & -> & He)].
    + reflexivity.
    + destruct e; try discriminate He; reflexivity.
  - apply unpad_Raise in Eu as [msg ->]. reflexivity.
Qed.

End Codec.

Section Roundtrip.
Context `{C : CryptoLib} {L : CryptoLaws C}.
Import EncryptionWorker.

Lemma decrypt_bytes_container password (salt iv content : bytes) :
  length salt = 16 -> length iv = 16 ->
  decrypt_bytes password (container_of password salt iv content)
  = match unpad (padded_plaintext content) 16 with
    | Ok decrypted_data => Ok decrypted_data
    | Raise _ => Raise invalid_padding
    end.
Proof.
  intros Hs Hi. unfold decrypt_bytes, container_of.
  rewrite take_app_length' by (symmetry; exact Hs).
  rewrite drop_app_length' by (symmetry; exact Hs).
  rewrite take_app_length' by (symmetry; exact Hi).
  rewrite drop_app_length' by (symmetry; exact Hi).
  rewrite Hi. cbn [Nat.eqb].
  destruct (cbc_encrypt_length (derived_key password salt) (padded_plaintext content) iv
              (padded_plaintext_aligned content) Hi) as [Hlen _].
  rewrite Hlen, padded_plaintext_aligned. cbn [Nat.eqb].
  now rewrite cbc_decrypt_encrypt by (apply padded_plaintext_aligned || exact Hi).
Qed.

Lemma decrypt_bytes_unaligned password (salt iv content : bytes) :
  length salt = 16 -> length iv = 16 -> length content mod 16 <> 0 ->
  decrypt_bytes password (container_of password salt iv content) = Ok content.
Proof.
  intros Hs Hi Hc. rewrite decrypt_bytes_container by assumption.
  unfold padded_plaintext. apply Nat.eqb_neq in Hc. rewrite Hc.
  now rewrite unpad_pad.
Qed.

Lemma decrypt_bytes_aligned password (salt iv content : bytes) :
  length salt = 16 -> length iv = 16 -> length content mod 16 = 0 ->
  decrypt_bytes password (container_of password salt iv content) = Raise invalid_padding
  \/ exists decrypted_data,
       decrypt_bytes password (container_of password salt iv content) = Ok decrypted_data
       /\ length decrypted_data < length content.
Proof.
  intros Hs Hi Hc. rewrite decrypt_bytes_container by assumption.
  unfold padded_plaintext. apply Nat.eqb_eq in Hc. rewrite Hc.
  destruct (unpad content 16) as [pt|e] eqn:Eu; [right | now left].
  exists pt. split; [reflexivity |]. now apply unpad_Ok_shorter in Eu.
Qed.

Lemma random_window_length w start n : length (random_window w start n) = n.
Proof. unfold random_window. now rewrite length_map, length_seq. Qed.


Lemma write_after_open_wb p data w w' :
  fs w' = <[p := File [] (now w)]> (fs w) -> now w' = now w ->
  exists w2, write p data w' = (Ok tt, w2)
             /\ fs w2 !! p = Some (File data (now w)).
Proof.
  intros Hfs Hnow. eexists. split.
  - apply (write_existing p data w' [] (now w)). rewrite Hfs. apply lookup_insert_eq.
  - cbn [fs with_fs]. rewrite Hnow. apply lookup_insert_eq.
Qed.

(** C1.  The round trip fails on every content whose length is a multiple
    of 16: encryption succeeds, and decrypting the container with the same
    password either raises the invalid-padding error or writes a file that is
    strictly shorter than the content; on the empty content it always
    raises. *)
Theorem roundtrip_loses_aligned_content (s : self)
    (input_path container_path output_path : string) (w : World)
    (content : bytes) (t : Z) :
  fs w !! input_path = Some (File content t) ->
  writable (fs w) container_path ->
  length content mod 16 = 0 ->
  exists w1,
    _encrypt_file s input_path container_path w = (Ok tt, w1)
    /\ match _decrypt_file s container_path output_path w1 with
       | (Ok _, w2) =>
           exists decrypted t', fs w2 !! output_path = Some (File decrypted t')
                                /\ length decrypted < length content
       | (Raise e, w2) => (e = invalid_padding /\ w2 = w1) \/ is_OSError e = true
       end
    /\ (content = [] ->
        _decrypt_file s container_path output_path w1 = (Raise invalid_padding, w1)).
Proof.
  intros Hin Hout Hal.
  eexists. split; [exact (_encrypt_file_spec s _ _ w content t Hin Hout) |].
  set (w1 := with_fs _ _).
  assert (fs w1 !! container_path
          = Some (File (container_of (password s) (random_window w (drawn w) 16)
                          (random_window w (drawn w + 16) 16) content) (now w))) as H1
    by apply lookup_insert_eq.
  rewrite (_decrypt_file_spec _ _ _ _ _ _ H1).
  split.
  - destruct (decrypt_bytes_aligned (password s) (random_window w (drawn w) 16)
                (random_window w (drawn w + 16) 16) content
                (random_window_length _ _ _) (random_window_length _ _ _) Hal)
      as [->|(pt & -> & Hlt)].
    + left. split; reflexivity.
    + unfold mbind, ST_bind.
      destruct (open_wb_cases output_path w1) as [(w' & -> & Hfs & Hnow)|(e & -> & He)].
      * destruct (write_after_open_wb output_path pt w1 w' Hfs Hnow) as (w2 & -> & Hw2).
        exists pt, (now w1). split; assumption.
      * now right.
  - intros ->. rewrite decrypt_bytes_container by apply random_window_length.
    reflexivity.
Qed.

(** C2.  For a plaintext whose length is a multiple of 16 the ciphertext
    region (offset 32 to the end) is the CBC encryption of the plaintext as it
    is, with no padding block: it has exactly the plaintext's length, and it
    is empty for the empty plaintext. *)
Theorem ciphertext_of_aligned_plaintext_unpadded (s : self)
    (input_path container_path : string) (w : World) (content : bytes) (t : Z) :
  fs w !! input_path = Some (File content t) ->
  writable (fs w) container_path ->
  length content mod 16 = 0 ->
  exists container w1,
    _encrypt_file s input_path container_path w = (Ok tt, w1)
    /\ fs w1 !! container_path = Some (File container (now w))
    /\ drop 32 container
       = fst (cbc_encrypt (derived_key (password s) (take 16 container))
                          (take 16 (drop 16 container)) content)
    /\ length (drop 32 container) = length content
    /\ (content = [] -> drop 32 container = []).
Proof.
  intros Hin Hout Hal.
  eexists _, _. split; [exact (_encrypt_file_spec s _ _ w content t Hin Hout) |].
  split; [apply lookup_insert_eq |].
  unfold container_of.
  set (salt := random_window w (drawn w) 16).
  set (iv := random_window w (drawn w + 16) 16).
  assert (length salt = 16) as Hs by apply random_window_length.
  assert (length iv = 16) as Hi by apply random_window_length.
  assert (padded_plaintext content = content) as ->.
  { unfold padded_plaintext. apply Nat.eqb_eq in Hal. now rewrite Hal. }
  replace 32 with (16 + 16) by reflexivity. rewrite <- drop_drop.
  rewrite (take_app_length' salt) by (symmetry; exact Hs).
  rewrite !(drop_app_length' salt) by (symmetry; exact Hs).
  rewrite (take_app_length' iv) by (symmetry; exact Hi).
  rewrite !(drop_app_length' iv) by (symmetry; exact Hi).
  split; [reflexivity |].
  split.
  - now apply cbc_encrypt_length.
  - intros ->. now simp cbc_encrypt.
Qed.

End Roundtrip.

Section Freshness.
Context `{C : CryptoLib}.
Import EncryptionWorker.

Lemma random_window_app w start n m :
  random_window w start n ++ random_window w (start + n) m
  = random_window w start (n + m).
Proof. unfold random_window. now rewrite seq_app, map_app. Qed.

(** The chunk loop starts on a file that holds the 32 header bytes and
    nothing else. *)
Lemma _encrypt_file_header_first s input_path output_path w content t :
  fs w !! input_path = Some (File content t) ->
  writable (fs w) output_path ->
  exists cipher w_hdr,
    _encrypt_file s input_path output_path w
    = _encrypt_file_loop BUFFER_SIZE cipher content output_path w_hdr
    /\ fs w_hdr !! output_path
       = Some (File (random_window w (drawn w) 32) (now w)).
Proof.
  intros Hin Hout. unfold _encrypt_file.
  generalize BUFFER_SIZE. intros size.
  cbv beta iota zeta delta [mbind ST_bind mret ST_ret lift get_random_bytes
    derive_key_from_password AES_new fst snd drawn random with_drawn].
  rewrite length_map, length_seq. cbn [Nat.eqb].
  unfold open_rb. cbn [fs]. rewrite Hin.
  rewrite open_wb_writable by exact Hout.
  erewrite write_existing by (cbn [fs with_fs]; apply lookup_insert_eq).
  erewrite write_existing by (cbn [fs with_fs]; apply lookup_insert_eq).
  eexists _, _. split; [reflexivity |].
  cbn [fs with_fs now]. rewrite lookup_insert_eq. cbn [app].
  change 32 with (16 + 16). rewrite <- random_window_app. reflexivity.
Qed.

(** C6.  A container starts with the 16 bytes of salt and then the 16 bytes
    of IV that the random generator delivered during this very call, and the
    chunk loop starts on a file holding just these 32 bytes; a second
    encryption of the same file with the same password draws the next 32
    bytes of the generator, so the two headers differ whenever the generator
    does not repeat itself on these two draws. *)
Theorem container_header_is_fresh (s : self) (input_path out1 out2 : string)
    (w : World) (content : bytes) (t : Z) :
  fs w !! input_path = Some (File content t) ->
  writable (fs w) out1 ->
  input_path <> out1 ->
  let w1 := snd (_encrypt_file s input_path out1 w) in
  writable (fs w1) out2 ->
  let w2 := snd (_encrypt_file s input_path out2 w1) in
  exists c1 c2,
    fst (_encrypt_file s input_path out1 w) = Ok tt
    /\ fs w1 !! out1 = Some (File c1 (now w))
    /\ fst (_encrypt_file s input_path out2 w1) = Ok tt
    /\ fs w2 !! out2 = Some (File c2 (now w))
    /\ take 16 c1 = random_window w (drawn w) 16
    /\ take 16 (drop 16 c1) = random_window w (drawn w + 16) 16
    /\ take 16 c2 = random_window w (drawn w + 32) 16
    /\ take 16 (drop 16 c2) = random_window w (drawn w + 48) 16
    /\ (exists cipher w_hdr,
          _encrypt_file s input_path out1 w
          = _encrypt_file_loop BUFFER_SIZE cipher content out1 w_hdr
          /\ fs w_hdr !! out1 = Some (File (take 32 c1) (now w)))
    /\ (random_window w (drawn w) 32 <> random_window w (drawn w + 32) 32 ->
        take 32 c1 <> take 32 c2).
Proof.
  intros Hin Hout1 Hne w1 Hout2 w2.
  pose proof (_encrypt_file_spec s _ _ w content t Hin Hout1) as E1.
  assert (w1 = snd (_encrypt_file s input_path out1 w)) as Hw1 by reflexivity.
  rewrite E1 in Hw1. cbn [snd] in Hw1.
  assert (fs w1 !! input_path = Some (File content t)) as Hin1.
  { rewrite Hw1. cbn [fs with_fs with_drawn]. now rewrite lookup_insert_ne. }
  pose proof (_encrypt_file_spec s _ _ w1 content t Hin1 Hout2) as E2.
  assert (w2 = snd (_encrypt_file s input_path out2 w1)) as Hw2 by reflexivity.
  rewrite E2 in Hw2. cbn [snd] in Hw2.
  assert (random w1 = random w /\ drawn w1 = drawn w + 32 /\ now w1 = now w)
    as (Hr & Hd & Hn).
  { rewrite Hw1. cbn. repeat split. lia. }
  assert (forall a n, random_window w1 a n = random_window w a n) as Hrw
    by (intros; unfold random_window; now rewrite Hr).
  eexists _, _.
  split; [now rewrite E1 |].
  split; [rewrite Hw1; apply lookup_insert_eq |].
  split; [now rewrite E2 |].
  split; [rewrite Hw2, <- Hn; apply lookup_insert_eq |].
  unfold container_of. rewrite !Hrw, !Hd.
  replace (drawn w + 32 + 16) with (drawn w + 48) by lia.
  set (salt1 := random_window w (drawn w) 16).
  set (iv1 := random_window w (drawn w + 16) 16).
  set (salt2 := random_window w (drawn w + 32) 16).
  set (iv2 := random_window w (drawn w + 48) 16).
  assert (length salt1 = 16 /\ length iv1 = 16 /\ length salt2 = 16 /\ length iv2 = 16)
    as (Hs1 & Hi1 & Hs2 & Hi2) by (repeat split; apply random_window_length).
  assert (forall (a b c : bytes), length a = 16 -> length b = 16 ->
            take 32 (a ++ b ++ c) = a ++ b) as Htake32.
  { intros a b c Ha Hb. rewrite app_assoc.
    apply take_app_length'. rewrite length_app. lia. }
  rewrite !(take_app_length' salt1), !(take_app_length' salt2),
    !(drop_app_length' salt1), !(drop_app_length' salt2),
    !(take_app_length' iv1), !(take_app_length' iv2) by congruence.
  repeat split.
  - destruct (_encrypt_file_header_first s _ _ w content t Hin Hout1)
      as (cipher & w_hdr & Heq & Hfs).
    exists cipher, w_hdr. split; [exact Heq |].
    rewrite Hfs, Htake32 by assumption. subst salt1 iv1.
    change 32 with (16 + 16). now rewrite <- random_window_app.
  - rewrite !Htake32 by assumption. subst salt1 iv1 salt2 iv2.
    replace (drawn w + 48) with (drawn w + 32 + 16) by lia.
    rewrite !random_window_app. exact (fun H => H).
Qed.

End Freshness.

Section RoundtripOk.
Context `{C : CryptoLib} {L : CryptoLaws C}.
Import EncryptionWorker.

(** X1.  The round trip on a content whose length is not a multiple of 16:
    decrypting the container of a file with the same password writes the
    content back.  The container is written to another path than the file:
    [_encrypt_file] opens its output before it reads its input. *)
Theorem roundtrip_unaligned_content (s : self)
    (input_path container_path output_path : string) (w : World)
    (content : bytes) (t : Z) :
  input_path <> container_path ->
  fs w !! input_path = Some (File content t) ->
  writable (fs w) container_path ->
  length content mod 16 <> 0 ->
  let w1 := snd (_encrypt_file s input_path container_path w) in
  writable (fs w1) output_path ->
  exists w2,
    fst (_encrypt_file s input_path container_path w) = Ok tt
    /\ _decrypt_file s container_path output_path w1 = (Ok tt, w2)
    /\ fs w2 !! output_path = Some (File content (now w)).
Proof.
  intros _ Hin Hout Hal w1 Hout2.
  pose proof (_encrypt_file_spec s _ _ w content t Hin Hout) as E1.
  assert (w1 = snd (_encrypt_file s input_path container_path w)) as Hw1 by reflexivity.
  rewrite E1 in Hw1. cbn [snd] in Hw1.
  assert (fs w1 !! container_path
          = Some (File (container_of (password s) (random_window w (drawn w) 16)
                          (random_window w (drawn w + 16) 16) content) (now w))) as H1
    by (rewrite Hw1; apply lookup_insert_eq).
  rewrite (_decrypt_file_spec _ _ _ _ _ _ H1).
  rewrite decrypt_bytes_unaligned by (apply random_window_length || exact Hal).
  unfold mbind, ST_bind. rewrite open_wb_writable by exact Hout2.
  assert (now w1 = now w) as Hn by (rewrite Hw1; reflexivity).
  erewrite write_existing by (cbn [fs with_fs]; apply lookup_insert_eq).
  eexists. split; [now rewrite E1 |]. split; [reflexivity |].
  cbn [fs with_fs now]. rewrite Hn. now rewrite insert_insert_eq, lookup_insert_eq.
Qed.

End RoundtripOk.

(** ** The stand-ins satisfy the laws *)

Lemma toy_crypto_laws : CryptoLaws Toy.crypto.
Proof.
  split; intros key b Hb; cbn [AES_decrypt_block AES_encrypt_block Toy.crypto].
  - apply xor_bytes_involutive.
    rewrite length_take, length_app, repeat_length. lia.
  - rewrite xor_bytes_length, length_take, length_app, repeat_length. lia.
Qed.

Lemma toy_zip_laws : ZipLaws Toy.zip.
Proof. split. intros members. cbn. apply decode_encode. Qed.

Lemma codec_world_writable p :
  fs codec_world !! p = None -> posixpath.dirname p = "/d" ->
  writable (fs codec_world) p.
Proof.
  intros Hp Hd. split; [now rewrite Hp |].
  unfold check_parent. rewrite Hd. reflexivity.
Qed.

Lemma roundtrip_loses_aligned_content_witness :
  exists w1,
    EncryptionWorker._encrypt_file (C := Toy.crypto) codec_self
      "/d/empty.bin" "/d/empty.bin.encrypted" codec_world = (Ok tt, w1)
    /\ EncryptionWorker._decrypt_file (C := Toy.crypto) codec_self
         "/d/empty.bin.encrypted" "/d/empty.out" w1
       = (Raise invalid_padding, w1).
Proof.
  destruct (roundtrip_loses_aligned_content (C := Toy.crypto) (L := toy_crypto_laws)
              codec_self "/d/empty.bin" "/d/empty.bin.encrypted" "/d/empty.out"
              codec_world [] 7)
    as (w1 & He & _ & Hd).
  - reflexivity.
  - apply codec_world_writable; reflexivity.
  - reflexivity.
  - exists w1. split; [exact He | apply Hd; reflexivity].
Defined.

Lemma ciphertext_of_aligned_plaintext_unpadded_witness :
  exists container w1,
    EncryptionWorker._encrypt_file (C := Toy.crypto) codec_self
      "/d/empty.bin" "/d/empty.bin.encrypted" codec_world = (Ok tt, w1)
    /\ fs w1 !! "/d/empty.bin.encrypted" = Some (File container 100%Z)
    /\ drop 32 container = [].
Proof.
  destruct (ciphertext_of_aligned_plaintext_unpadded (C := Toy.crypto)
              (L := toy_crypto_laws) codec_self "/d/empty.bin"
              "/d/empty.bin.encrypted" codec_world [] 7)
    as (container & w1 & He & Hf & _ & _ & Hnil).
  - reflexivity.
  - apply codec_world_writable; reflexivity.
  - reflexivity.
  - exists container, w1. split; [exact He |]. split; [exact Hf | now apply Hnil].
Defined.

Lemma container_header_is_fresh_witness :
  exists c1 c2,
    fs (snd (EncryptionWorker._encrypt_file (C := Toy.crypto) codec_self
               "/d/hello.txt" "/d/hello.txt.encrypted" codec_world))
      !! "/d/hello.txt.encrypted" = Some (File c1 100%Z)
    /\ take 16 c1 = random_window codec_world 0 16
    /\ take 16 (drop 16 c1) = random_window codec_world 16 16
    /\ take 16 c2 = random_window codec_world 32 16
    /\ take 16 (drop 16 c2) = random_window codec_world 48 16
    /\ take 32 c1 <> take 32 c2.
Proof.
  destruct (container_header_is_fresh (C := Toy.crypto) codec_self "/d/hello.txt"
              "/d/hello.txt.encrypted" "/d/hello_1.txt.encrypted" codec_world
              [104; 101; 108; 108; 111]%N 7)
    as (c1 & c2 & _ & Hf1 & _ & _ & Hs1 & Hi1 & Hs2 & Hi2 & _ & Hne).
  - reflexivity.
  - apply codec_world_writable; reflexivity.
  - discriminate.
  - split.
    + intros H. vm_compute in H. discriminate H.
    + vm_compute. reflexivity.
  - exists c1, c2. repeat split; try assumption.
    apply Hne. intros H. vm_compute in H. discriminate H.
Defined.

Lemma roundtrip_unaligned_content_witness :
  exists w2,
    EncryptionWorker._decrypt_file (C := Toy.crypto) codec_self
      "/d/hello.txt.encrypted" "/d/hello.out"
      (snd (EncryptionWorker._encrypt_file (C := Toy.crypto) codec_self
              "/d/hello.txt" "/d/hello.txt.encrypted" codec_world))
    = (Ok tt, w2)
    /\ fs w2 !! "/d/hello.out" = Some (File [104; 101; 108; 108; 111]%N 100%Z).
Proof.
  destruct (roundtrip_unaligned_content (C := Toy.crypto) (L := toy_crypto_laws)
              codec_self "/d/hello.txt" "/d/hello.txt.encrypted" "/d/hello.out"
              codec_world [104; 101; 108; 108; 111]%N 7)
    as (w2 & _ & Hd & Hf).
  - discriminate.
  - reflexivity.
  - apply codec_world_writable; reflexivity.
  - discriminate.
  - split.
    + intros H. vm_compute in H. discriminate H.
    + vm_compute. reflexivity.
  - exists w2. split; assumption.
Defined.

(** ** The dispatchers *)

Lemma is_cancelled_quiet d n :
  quiet_for d (S n) ->
  is_cancelled d = (Ok false, with_flag_reads (S (flag_reads d)) d)
  /\ quiet_for (with_flag_reads (S (flag_reads d)) d) n.
Proof.
  unfold quiet_for, is_cancelled. destruct d as [w [a|] r sg]; cbn; intros H.
  - split; [| lia]. replace (a <=? r) with false by (symmetry; apply Nat.leb_gt; lia).
    reflexivity.
  - split; [reflexivity | exact I].
Qed.

Lemma is_cancelled_now d :
  cancelled_now d ->
  is_cancelled d = (Ok true, with_flag_reads (S (flag_reads d)) d)
  /\ cancelled_now (with_flag_reads (S (flag_reads d)) d).
Proof.
  unfold cancelled_now, is_cancelled. destruct d as [w [a|] r sg]; cbn; intros H.
  - split; [| lia]. replace (a <=? r) with true by (symmetry; apply Nat.leb_le; lia).
    reflexivity.
  - destruct H.
Qed.

Lemma bind_Ok {S A B} (m : ST S A) (f : A -> ST S B) w a w' :
  m w = (Ok a, w') -> (m ≫= f) w = f a w'.
Proof. intros H. unfold mbind, ST_bind. now rewrite H. Qed.

Lemma bind_Raise {S A B} (m : ST S A) (f : A -> ST S B) w e w' :
  m w = (Raise e, w') -> (m ≫= f) w = (Raise e, w').
Proof. intros H. unfold mbind, ST_bind. now rewrite H. Qed.

Lemma executor_submit_eq {A} (task : M A) d :
  executor_submit task d
  = (Ok (fst (task (world d))), with_world (snd (task (world d))) d).
Proof. unfold executor_submit. now destruct (task (world d)). Qed.

Lemma try_except_handled {S A} (body : ST S A) (handler : exn -> ST S A) w :
  (forall e w', exists a w'', handler e w' = (Ok a, w'')) ->
  exists a w', try_except body handler w = (Ok a, w').
Proof.
  intros Hh. unfold try_except. destruct (body w) as [[a|e] w']; eauto.
Qed.

Section EncryptionDispatch.
Context {C : CryptoLib} {Zp : ZipLib}.
Import EncryptionWorker EncryptionWorkerSpec.

(** A task never raises: what goes wrong inside is caught at its boundary. *)
Lemma encryption_process_file_returns s file_path w :
  exists r w', _process_file s file_path w = (Ok r, w').
Proof.
  unfold _process_file. apply try_except_handled.
  intros e w'. eexists _, _. reflexivity.
Qed.

Lemma encryption_run_submit_quiet s files : forall futures d,
  quiet_for d (length files) ->
  run_submit s files futures d
  = (Ok (futures ++ fst (tasks_run s files (world d))),
     mkDispatcher (snd (tasks_run s files (world d))) (cancel_at d)
                  (flag_reads d + length files) (signals d)).
Proof.
  induction files as [|p rest IH]; intros futures d Hq.
  - cbn. rewrite app_nil_r, Nat.add_0_r. now destruct d.
  - cbn [run_submit length] in *. destruct (is_cancelled_quiet d _ Hq) as [E Hq'].
    rewrite (bind_Ok _ _ _ _ _ E).
    rewrite (bind_Ok _ _ _ _ _ (executor_submit_eq _ _)).
    rewrite IH by exact Hq'. cbn [tasks_run fst snd].
    cbn [world with_world with_flag_reads cancel_at flag_reads signals].
    rewrite <- app_assoc. cbn [app]. f_equal. f_equal. lia.
Qed.

Lemma encryption_run_submit_cancel s pre post : forall futures d,
  quiet_for d (length pre) ->
  cancel_at d = Some (flag_reads d + length pre) ->
  post <> [] ->
  run_submit s (pre ++ post) futures d
  = (Ok (futures ++ fst (tasks_run s pre (world d))),
     mkDispatcher (snd (tasks_run s pre (world d))) (cancel_at d)
                  (flag_reads d + length pre + 1) (signals d)).
Proof.
  induction pre as [|p rest IH]; intros futures d Hq Hc Hpost.
  - destruct post as [|q post]; [congruence |]. cbn [app run_submit tasks_run fst snd length].
    destruct (is_cancelled_now d) as [E _].
    { unfold cancelled_now. rewrite Hc. cbn. lia. }
    rewrite (bind_Ok _ _ _ _ _ E). cbn. rewrite app_nil_r.
    destruct d; cbn. unfold mret, ST_ret, with_flag_reads. cbn. f_equal. f_equal. lia.
  - cbn [app run_submit length] in *. destruct (is_cancelled_quiet d _ Hq) as [E Hq'].
    rewrite (bind_Ok _ _ _ _ _ E).
    rewrite (bind_Ok _ _ _ _ _ (executor_submit_eq _ _)).
    rewrite IH; [| exact Hq' | cbn; rewrite Hc; f_equal; lia | exact Hpost].
    cbn [tasks_run fst snd].
    cbn [world with_world with_flag_reads cancel_at flag_reads signals].
    rewrite <- app_assoc. cbn [app]. f_equal. f_equal. lia.
Qed.

Lemma encryption_result_step (f : Future (option (string * string)))
    processed total_files d :
  exists sg,
    try_except
      (r ← future_result f;
       match r with
       | Some (source, dest) => emit (file_processed source dest)
       | None => mret tt
       end) (fun _ => mret tt) d
    = (Ok tt, mkDispatcher (world d) (cancel_at d) (flag_reads d) (signals d ++ sg))
    /\ result_signals outcome_signal f processed total_files
       = sg ++ [progress_updated (processed + 1) total_files].
Proof.
  destruct d as [w c r sgs].
  destruct f as [[[source dest]|]|e].
  - exists [file_processed source dest]. split; reflexivity.
  - exists []. split; [| reflexivity]. cbn. now rewrite app_nil_r.
  - exists []. split; [| reflexivity]. cbn. now rewrite app_nil_r.
Qed.

Lemma encryption_run_results_quiet futures : forall processed total_files d,
  quiet_for d (length futures) ->
  run_results futures processed total_files d
  = (Ok (processed + length futures),
     mkDispatcher (world d) (cancel_at d) (flag_reads d + length futures)
       (signals d ++ results_signals outcome_signal futures processed total_files)).
Proof.
  induction futures as [|f rest IH]; intros processed total d Hq.
  - cbn. rewrite app_nil_r, !Nat.add_0_r. now destruct d.
  - cbn [run_results length] in *. destruct (is_cancelled_quiet d _ Hq) as [E Hq'].
    rewrite (bind_Ok _ _ _ _ _ E).
    destruct (encryption_result_step f processed total
                (with_flag_reads (S (flag_reads d)) d)) as (sg & Et & Es).
    rewrite (bind_Ok _ _ _ _ _ Et).
    rewrite (bind_Ok (emit _) _ _ tt _ eq_refl).
    rewrite IH by exact Hq'.
    cbn [results_signals]. rewrite Es.
    cbn [world with_signal with_flag_reads cancel_at flag_reads signals].
    rewrite <- !app_assoc. cbn [app]. f_equal; [f_equal; lia | f_equal; lia].
Qed.

Lemma encryption_run_results_cancelled futures processed total_files d :
  cancelled_now d ->
  exists d', run_results futures processed total_files d = (Ok processed, d')
             /\ world d' = world d /\ signals d' = signals d
             /\ cancelled_now d'.
Proof.
  intros Hc. destruct futures as [|f rest].
  - exists d. cbn. auto.
  - destruct (is_cancelled_now d Hc) as [E Hc'].
    eexists. cbn [run_results]. rewrite (bind_Ok _ _ _ _ _ E).
    split; [reflexivity |]. now destruct d.
Qed.

End EncryptionDispatch.

Section EncryptionRun.
Context {C : CryptoLib} {Zp : ZipLib}.
Import EncryptionWorker EncryptionWorkerSpec.

Lemma tasks_run_length s files : forall w,
  length (fst (tasks_run s files w)) = length files.
Proof. induction files as [|p rest IH]; intros w; cbn; [reflexivity | now rewrite IH]. Qed.

Lemma quiet_for_le d n m : m <= n -> quiet_for d n -> quiet_for d m.
Proof. unfold quiet_for. destruct (cancel_at d); [lia | trivial]. Qed.

(** [run] when nobody cancels: every task runs, every future gets its
    progress increment, and the completion counts all of them. *)
Lemma encryption_run_uncancelled s d :
  quiet_for d (2 * length (files s) + 1) ->
  let n := length (files s) in
  let r := tasks_run s (files s) (world d) in
  run s d
  = (Ok tt,
     mkDispatcher (snd r) (cancel_at d) (flag_reads d + (2 * n + 1))
       (signals d ++ results_signals outcome_signal (fst r) 0 n
        ++ [operation_completed true
              ("Successfully " +:+ operation s +:+ "ed " +:+ Py.str n
               +:+ " of " +:+ Py.str n +:+ " files/folders")])).
Proof.
  intros Hq n r. unfold run, try_except.
  assert (quiet_for d (length (files s))) as Hq0
    by (apply (quiet_for_le d _ _ ltac:(lia) Hq) || (eapply quiet_for_le; [| exact Hq]; lia)).
  rewrite (bind_Ok _ _ _ _ _ (encryption_run_submit_quiet s (files s) [] d Hq0)).
  cbn [app]. fold r.
  set (d1 := mkDispatcher _ _ _ _).
  assert (quiet_for d1 (length (fst r) + 1)) as Hq1.
  { unfold r. rewrite tasks_run_length. unfold quiet_for in *. cbn.
    destruct (cancel_at d); [lia | trivial]. }
  assert (quiet_for d1 (length (fst r))) as Hq1'
    by (eapply quiet_for_le; [| exact Hq1]; lia).
  rewrite (bind_Ok _ _ _ _ _ (encryption_run_results_quiet (fst r) 0 n d1 Hq1')).
  set (d2 := mkDispatcher _ _ _ _).
  assert (quiet_for d2 1) as Hq2.
  { unfold quiet_for in *. cbn in *. destruct (cancel_at d); [lia | trivial]. }
  destruct (is_cancelled_quiet d2 0 Hq2) as [E _].
  rewrite (bind_Ok _ _ _ _ _ E).
  rewrite (bind_Ok (emit _) _ _ tt _ eq_refl) || idtac.
  unfold emit, d2, d1, r.
  cbn [with_signal with_flag_reads world cancel_at flag_reads signals].
  rewrite !tasks_run_length. fold n. cbn [Nat.add].
  unfold with_signal, with_flag_reads.
  cbn [world cancel_at flag_reads signals].
  rewrite <- app_assoc. f_equal. f_equal. lia.
Qed.

(** [run] when the flag is set after [m] tasks were submitted, [m] less than
    the number of entries: exactly the first [m] tasks run, and the only
    signal is the completion, reporting the cancellation. *)
Lemma encryption_run_cancelled s d m :
  m < length (files s) ->
  cancel_at d = Some (flag_reads d + m) ->
  exists d',
    run s d = (Ok tt, d')
    /\ world d' = snd (tasks_run s (take m (files s)) (world d))
    /\ signals d' = signals d ++ [operation_completed false "Operation cancelled"].
Proof.
  intros Hm Hc. unfold run, try_except.
  assert (length (take m (files s)) = m) as Hlen by (rewrite length_take; lia).
  replace (run_submit s (files s) [])
    with (run_submit s (take m (files s) ++ drop m (files s)) [])
    by now rewrite take_drop.
  assert (quiet_for d (length (take m (files s)))) as Hq0
    by (unfold quiet_for; rewrite Hc, Hlen; lia).
  assert (cancel_at d = Some (flag_reads d + length (take m (files s)))) as Hc0
    by now rewrite Hlen.
  assert (drop m (files s) <> []) as Hpost.
  { intros H. apply (f_equal (@length _)) in H.
    rewrite length_drop in H. cbn in H. lia. }
  rewrite (bind_Ok _ _ _ _ _
             (encryption_run_submit_cancel s (take m (files s)) (drop m (files s)) [] d
                Hq0 Hc0 Hpost)).
  cbn [app]. set (d1 := mkDispatcher _ _ _ _).
  assert (cancelled_now d1) as Hc1.
  { unfold cancelled_now. cbn. rewrite Hc, Hlen. lia. }
  destruct (encryption_run_results_cancelled
              (fst (tasks_run s (take m (files s)) (world d))) 0
              (length (files s)) d1 Hc1)
    as (d2 & E2 & Hw2 & Hs2 & Hc2).
  rewrite (bind_Ok _ _ _ _ _ E2).
  destruct (is_cancelled_now d2 Hc2) as [E3 _].
  rewrite (bind_Ok _ _ _ _ _ E3).
  eexists. split; [reflexivity |]. cbn. rewrite Hw2, Hs2. split; reflexivity.
Qed.

End EncryptionRun.

Section OrganizerDispatch.
Context {T : TimeLib}.
Import FileOrganizerWorker FileOrganizerWorkerSpec.

(** A task never raises: what goes wrong inside is caught at its boundary. *)
Lemma organizer_process_file_returns s file_path type_folder date_folder w :
  exists r w', _process_file s file_path type_folder date_folder w = (Ok r, w').
Proof.
  unfold _process_file. apply try_except_handled.
  intros e w'. eexists _, _. reflexivity.
Qed.

Lemma in_world_eq {A} (m : M A) d :
  in_world m d = (fst (m (world d)), with_world (snd (m (world d))) d).
Proof. unfold in_world. now destruct (m (world d)). Qed.

Lemma in_world_isdir p d :
  in_world (os_path_isdir p) d = (Ok (isdir_in (fs (world d)) p), d).
Proof. destruct d. reflexivity. Qed.

Lemma organizer_run_submit_quiet s tf df total files : forall processed fu d,
  quiet_for d (length files) ->
  let r := submit_all s tf df total files processed (world d) in
  run_submit s tf df total files processed fu d
  = (Ok (count r, fu ++ futures r),
     mkDispatcher (after r) (cancel_at d) (flag_reads d + length files)
                  (signals d ++ progress r)).
Proof.
  induction files as [|p rest IH]; intros processed fu d Hq.
  - cbn. rewrite !app_nil_r, Nat.add_0_r. now destruct d.
  - cbn [run_submit length submit_all] in *.
    destruct (is_cancelled_quiet d _ Hq) as [E Hq'].
    rewrite (bind_Ok _ _ _ _ _ E).
    rewrite (bind_Ok _ (fun isdir : bool => if isdir then _ else _) _ _ _
               (in_world_isdir p _)).
    cbn [world with_flag_reads].
    destruct (isdir_in (fs (world d)) p).
    + rewrite (bind_Ok (emit _) _ _ tt _ eq_refl).
      rewrite IH by exact Hq'. cbn [count futures progress after].
      cbn [world with_signal with_flag_reads cancel_at flag_reads signals].
      rewrite <- app_assoc. cbn [app]. f_equal. f_equal. lia.
    + rewrite (bind_Ok _ _ _ _ _ (executor_submit_eq _ _)).
      rewrite IH by exact Hq'. cbn [count futures progress after].
      cbn [world with_world with_flag_reads cancel_at flag_reads signals].
      rewrite <- app_assoc. cbn [app]. f_equal. f_equal. lia.
Qed.

Lemma organizer_run_submit_cancel s tf df total pre post : forall processed fu d,
  quiet_for d (length pre) ->
  cancel_at d = Some (flag_reads d + length pre) ->
  post <> [] ->
  let r := submit_all s tf df total pre processed (world d) in
  run_submit s tf df total (pre ++ post) processed fu d
  = (Ok (count r, fu ++ futures r),
     mkDispatcher (after r) (cancel_at d) (flag_reads d + length pre + 1)
                  (signals d ++ progress r)).
Proof.
  induction pre as [|p rest IH]; intros processed fu d Hq Hc Hpost.
  - destruct post as [|q post]; [congruence |].
    cbn [app run_submit submit_all count futures progress after length].
    destruct (is_cancelled_now d) as [E _].
    { unfold cancelled_now. rewrite Hc. cbn. lia. }
    rewrite (bind_Ok _ _ _ _ _ E). rewrite !app_nil_r.
    destruct d; cbn. unfold mret, ST_ret, with_flag_reads. cbn. f_equal. f_equal. lia.
  - cbn [app run_submit length submit_all] in *.
    destruct (is_cancelled_quiet d _ Hq) as [E Hq'].
    rewrite (bind_Ok _ _ _ _ _ E).
    rewrite (bind_Ok _ (fun isdir : bool => if isdir then _ else _) _ _ _
               (in_world_isdir p _)).
    cbn [world with_flag_reads].
    destruct (isdir_in (fs (world d)) p).
    + rewrite (bind_Ok (emit _) _ _ tt _ eq_refl).
      rewrite IH; [| exact Hq' | cbn; rewrite Hc; f_equal; lia | exact Hpost].
      cbn [count futures progress after].
      cbn [world with_signal with_flag_reads cancel_at flag_reads signals].
      rewrite <- app_assoc. cbn [app]. f_equal. f_equal. lia.
    + rewrite (bind_Ok _ _ _ _ _ (executor_submit_eq _ _)).
      rewrite IH; [| exact Hq' | cbn; rewrite Hc; f_equal; lia | exact Hpost].
      cbn [count futures progress after].
      cbn [world with_world with_flag_reads cancel_at flag_reads signals].
      rewrite <- app_assoc. cbn [app]. f_equal. f_equal. lia.
Qed.

Lemma submit_all_count s tf df total files : forall processed w,
  let r := submit_all s tf df total files processed w in
  count r + length (futures r) = processed + length files
  /\ Forall (fun sg => exists k, sg = progress_updated k total) (progress r).
Proof.
  induction files as [|p rest IH]; intros processed w; cbn [submit_all].
  - cbn. split; [lia | constructor].
  - destruct (isdir_in (fs w) p); cbn [count futures progress length].
    + destruct (IH (processed + 1) w) as [H1 H2]. split; [lia |].
      constructor; [eauto | exact H2].
    + match goal with |- context [submit_all _ _ _ _ _ _ ?w'] =>
        destruct (IH processed w') as [H1 H2] end.
      split; [lia | exact H2].
Qed.

Lemma organizer_result_step (f : Future (option (string * option string)))
    processed total_files d :
  exists sg,
    try_except
      (r ← future_result f;
       match r with
       | Some (source, Some dest) => emit (file_processed source dest)
       | Some (source, None) =>
           raise (TypeError "file_processed(str, str).emit(): argument 2 has unexpected type 'NoneType'")
       | None => mret tt
       end) (fun _ => mret tt) d
    = (Ok tt, mkDispatcher (world d) (cancel_at d) (flag_reads d) (signals d ++ sg))
    /\ result_signals outcome_signal f processed total_files
       = sg ++ [progress_updated (processed + 1) total_files].
Proof.
  destruct d as [w c r sgs].
  destruct f as [[[source [dest|]]|]|e].
  - exists [file_processed source dest]. split; reflexivity.
  - exists []. split; [| reflexivity]. cbn. now rewrite app_nil_r.
  - exists []. split; [| reflexivity]. cbn. now rewrite app_nil_r.
  - exists []. split; [| reflexivity]. cbn. now rewrite app_nil_r.
Qed.

Lemma organizer_run_results_quiet fu : forall processed total_files d,
  quiet_for d (length fu) ->
  run_results fu processed total_files d
  = (Ok (processed + length fu),
     mkDispatcher (world d) (cancel_at d) (flag_reads d + length fu)
       (signals d ++ results_signals outcome_signal fu processed total_files)).
Proof.
  induction fu as [|f rest IH]; intros processed total d Hq.
  - cbn. rewrite app_nil_r, !Nat.add_0_r. now destruct d.
  - cbn [run_results length] in *. destruct (is_cancelled_quiet d _ Hq) as [E Hq'].
    rewrite (bind_Ok _ _ _ _ _ E).
    destruct (organizer_result_step f processed total
                (with_flag_reads (S (flag_reads d)) d)) as (sg & Et & Es).
    rewrite (bind_Ok _ _ _ _ _ Et).
    rewrite (bind_Ok (emit _) _ _ tt _ eq_refl).
    rewrite IH by exact Hq'.
    cbn [results_signals]. rewrite Es.
    cbn [world with_signal with_flag_reads cancel_at flag_reads signals].
    rewrite <- !app_assoc. cbn [app]. f_equal; [f_equal; lia | f_equal; lia].
Qed.

Lemma organizer_run_results_cancelled fu processed total_files d :
  cancelled_now d ->
  exists d', run_results fu processed total_files d = (Ok processed, d')
             /\ world d' = world d /\ signals d' = signals d
             /\ cancelled_now d'.
Proof.
  intros Hc. destruct fu as [|f rest].
  - exists d. cbn. auto.
  - destruct (is_cancelled_now d Hc) as [E Hc'].
    eexists. cbn [run_results]. rewrite (bind_Ok _ _ _ _ _ E).
    split; [reflexivity |]. now destruct d.
Qed.

(** [run] is the creation of the folders, then the two loops and the
    completion; an error of the creation is reported by the completion. *)
Lemma organizer_run_folders s d :
  run s d
  = match create_folders s (world d) with
    | (Ok (type_folder, date_folder), w1) =>
        try_except
          (pf ← run_submit s type_folder date_folder (length (files s)) (files s) 0 [];
           processed ← run_results (snd pf) (fst pf) (length (files s));
           c ← is_cancelled;
           if c : bool then emit (operation_completed false "Operation cancelled")
           else emit (operation_completed true
                        ("Successfully processed " +:+ Py.str processed +:+ " of "
                         +:+ Py.str (length (files s)) +:+ " files")))
          (fun e => emit (operation_completed false ("Error: " +:+ exn_str e)))
          (with_world w1 d)
    | (Raise e, w1) =>
        emit (operation_completed false ("Error: " +:+ exn_str e)) (with_world w1 d)
    end.
Proof.
  destruct d as [w c r sg].
  cbv beta iota zeta delta [mbind ST_bind mret ST_ret in_world try_except
    create_folders run fst snd world with_world cancel_at flag_reads signals].
  destruct (by_type s), (by_date s);
    repeat match goal with
           | |- context [os_makedirs ?p true ?w] =>
               destruct (os_makedirs p true w) as [[[]|?] ?]
           end; reflexivity.
Qed.

Lemma organizer_run_uncancelled s d type_folder date_folder w1 :
  cancel_at d = None ->
  create_folders s (world d) = (Ok (type_folder, date_folder), w1) ->
  let n := length (files s) in
  let r := submit_all s type_folder date_folder n (files s) 0 w1 in
  run s d
  = (Ok tt,
     mkDispatcher (after r) None (flag_reads d + n + length (futures r) + 1)
       (signals d ++ progress r
        ++ results_signals outcome_signal (futures r) (count r) n
        ++ [operation_completed true
              ("Successfully processed " +:+ Py.str n +:+ " of " +:+ Py.str n
               +:+ " files")])).
Proof.
  intros Hc Hf n r. rewrite organizer_run_folders, Hf. unfold try_except.
  assert (forall d' k, cancel_at d' = None -> quiet_for d' k) as Hquiet
    by (intros d' k H; unfold quiet_for; now rewrite H).
  rewrite (bind_Ok _ _ _ _ _
             (organizer_run_submit_quiet s type_folder date_folder n (files s) 0 []
                (with_world w1 d) (Hquiet (with_world w1 d) _ Hc))).
  cbn [app fst snd world with_world]. fold r.
  set (d1 := mkDispatcher _ _ _ _).
  rewrite (bind_Ok _ _ _ _ _
             (organizer_run_results_quiet (futures r) (count r) n d1 (Hquiet d1 _ Hc))).
  set (d2 := mkDispatcher _ _ _ _).
  destruct (is_cancelled_quiet d2 0 (Hquiet d2 _ Hc)) as [E _].
  rewrite (bind_Ok _ _ _ _ _ E).
  destruct (submit_all_count s type_folder date_folder n (files s) 0 w1) as [Hcount _].
  fold r in Hcount. cbn [Nat.add] in Hcount. rewrite Hcount. fold n.
  unfold emit, d2, d1, with_signal, with_flag_reads.
  cbn [world with_world cancel_at flag_reads signals]. rewrite Hc.
  rewrite <- !app_assoc. f_equal. f_equal. lia.
Qed.

Lemma organizer_run_cancelled s d m type_folder date_folder w1 :
  m < length (files s) ->
  cancel_at d = Some (flag_reads d + m) ->
  create_folders s (world d) = (Ok (type_folder, date_folder), w1) ->
  let r := submit_all s type_folder date_folder (length (files s))
             (take m (files s)) 0 w1 in
  exists d',
    run s d = (Ok tt, d')
    /\ world d' = after r
    /\ signals d'
       = signals d ++ progress r ++ [operation_completed false "Operation cancelled"].
Proof.
  intros Hm Hc Hf r. rewrite organizer_run_folders, Hf. unfold try_except.
  assert (length (take m (files s)) = m) as Hlen by (rewrite length_take; lia).
  replace (run_submit s type_folder date_folder (length (files s)) (files s) 0 [])
    with (run_submit s type_folder date_folder (length (files s))
            (take m (files s) ++ drop m (files s)) 0 [])
    by now rewrite take_drop.
  assert (quiet_for (with_world w1 d) (length (take m (files s)))) as Hq0
    by (unfold quiet_for; cbn; rewrite Hc, Hlen; lia).
  assert (cancel_at (with_world w1 d)
          = Some (flag_reads (with_world w1 d) + length (take m (files s)))) as Hc0
    by (cbn; now rewrite Hlen).
  assert (drop m (files s) <> []) as Hpost.
  { intros H. apply (f_equal (@length _)) in H.
    rewrite length_drop in H. cbn in H. lia. }
  rewrite (bind_Ok _ _ _ _ _
             (organizer_run_submit_cancel s type_folder date_folder (length (files s))
                (take m (files s)) (drop m (files s)) 0 [] (with_world w1 d)
                Hq0 Hc0 Hpost)).
  cbn [app fst snd world with_world]. fold r. set (d1 := mkDispatcher _ _ _ _).
  assert (cancelled_now d1) as Hc1.
  { unfold cancelled_now. cbn. rewrite Hc, Hlen. lia. }
  destruct (organizer_run_results_cancelled (futures r) (count r)
              (length (files s)) d1 Hc1)
    as (d2 & E2 & Hw2 & Hs2 & Hc2).
  rewrite (bind_Ok _ _ _ _ _ E2).
  destruct (is_cancelled_now d2 Hc2) as [E3 _].
  rewrite (bind_Ok _ _ _ _ _ E3).
  eexists. split; [reflexivity |]. cbn. rewrite Hw2, Hs2. cbn.
  split; [reflexivity | now rewrite <- app_assoc].
Qed.

End OrganizerDispatch.

Import FileOrganizerWorkerSpec EncryptionWorkerSpec.

(** C4 as the code has it.  When the flag is set after [m] passes of the
    submission loop, [m] less than the number of entries:
    - [EncryptionWorker.run] leaves the world that the tasks of the first [m]
      entries leave, run to their end, and no other task has run; it emits
      one signal, [operation_completed(False, "Operation cancelled")], and
      neither a progress nor an outcome signal for the tasks that ran;
    - [FileOrganizerWorker.run], once its folders exist, has gone through the
      first [m] entries only: at most [m] tasks ran, the only signals before
      the completion are the progress signals of the directories skipped
      among these entries, and the completion is
      [operation_completed(False, "Operation cancelled")]. *)
Theorem cancellation_stops_submission_and_reporting
    {C : CryptoLib} {Zp : ZipLib} {T : TimeLib} :
  (forall (s : EncryptionWorker.self) (d : Dispatcher) (m : nat),
     m < length (EncryptionWorker.files s) ->
     cancel_at d = Some (flag_reads d + m) ->
     exists d',
       EncryptionWorker.run s d = (Ok tt, d')
       /\ world d' = snd (tasks_run s (take m (EncryptionWorker.files s)) (world d))
       /\ signals d' = signals d ++ [operation_completed false "Operation cancelled"])
  /\ (forall (s : FileOrganizerWorker.self) (d : Dispatcher) (m : nat)
        type_folder date_folder w1,
        m < length (FileOrganizerWorker.files s) ->
        cancel_at d = Some (flag_reads d + m) ->
        create_folders s (world d) = (Ok (type_folder, date_folder), w1) ->
        let n := length (FileOrganizerWorker.files s) in
        let r := submit_all s type_folder date_folder n
                   (take m (FileOrganizerWorker.files s)) 0 w1 in
        exists d',
          FileOrganizerWorker.run s d = (Ok tt, d')
          /\ world d' = after r
          /\ signals d'
             = signals d ++ progress r
               ++ [operation_completed false "Operation cancelled"]
          /\ Forall (is_progress n) (progress r)
          /\ length (futures r) <= m).
Proof.
  split.
  - intros s d m Hm Hc. now apply encryption_run_cancelled.
  - intros s d m tf df w1 Hm Hc Hf n r.
    destruct (organizer_run_cancelled s d m tf df w1 Hm Hc Hf) as (d' & E & Hw & Hs).
    exists d'. repeat split; try assumption.
    + apply (submit_all_count s tf df n (take m (FileOrganizerWorker.files s)) 0 w1).
    + pose proof (proj1 (submit_all_count s tf df n
                           (take m (FileOrganizerWorker.files s)) 0 w1)) as H.
      cbn zeta in H. fold r in H. rewrite length_take in H. lia.
Qed.

(** The gap to C4 as it is written: cancelled after one of two tasks was
    submitted, the task ran to its end and returned its outcome (the
    container is on disk), and [run] emitted the completion alone: no progress
    increment and no outcome event for it. *)
Lemma cancelled_run_reports_no_outcome :
  let d := dispatcher_in codec_world (Some 1) in
  let after_run := snd (EncryptionWorker.run (C := Toy.crypto) (Zp := Toy.zip)
                          codec_batch d) in
  fst (tasks_run (C := Toy.crypto) (Zp := Toy.zip) codec_batch ["/d/hello.txt"]
         codec_world)
  = [Ok (Some ("/d/hello.txt", "/d/hello.txt.encrypted"))]
  /\ exists_in (fs (world after_run)) "/d/hello.txt.encrypted" = true
  /\ signals after_run = [operation_completed false "Operation cancelled"].
Proof. vm_compute. repeat split. Qed.

Lemma cancellation_stops_submission_and_reporting_witness :
  (exists d',
     EncryptionWorker.run (C := Toy.crypto) (Zp := Toy.zip) codec_batch
       (dispatcher_in codec_world (Some 1)) = (Ok tt, d')
     /\ signals d' = [operation_completed false "Operation cancelled"])
  /\ (exists d',
        FileOrganizerWorker.run (T := Toy.time) batch_self
          (dispatcher_in batch_world (Some 2)) = (Ok tt, d')
        /\ signals d' = [operation_completed false "Operation cancelled"]).
Proof.
  destruct (cancellation_stops_submission_and_reporting
              (C := Toy.crypto) (Zp := Toy.zip) (T := Toy.time)) as [HE HO].
  split.
  - destruct (HE codec_batch (dispatcher_in codec_world (Some 1)) 1)
      as (d' & E & _ & Hs).
    + cbn. lia.
    + reflexivity.
    + exists d'. split; assumption.
  - destruct (HO batch_self (dispatcher_in batch_world (Some 2)) 2
                (Some "/out/Organized by Type") None
                (snd (create_folders batch_self batch_world)))
      as (d' & E & _ & Hs & _).
    + cbn. lia.
    + reflexivity.
    + vm_compute. reflexivity.
    + exists d'. split; [exact E |]. rewrite Hs. vm_compute. reflexivity.
Defined.

Lemma bind_Ok_inv {S A B} (m : ST S A) (f : A -> ST S B) w b w' :
  (m ≫= f) w = (Ok b, w') ->
  exists a w1, m w = (Ok a, w1) /\ f a w1 = (Ok b, w').
Proof.
  unfold mbind, ST_bind. destruct (m w) as [[a|e] w1]; [eauto | discriminate].
Qed.

Section Containment.
Context {T : TimeLib}.
Import FileOrganizerWorker.

(** An error inside a task ends the task with [None] and an [Error: ...]
    status; it never leaves the task. *)
Lemma organizer_process_file_outcome s file_path type_folder date_folder w :
  exists r w',
    _process_file s file_path type_folder date_folder w = (Ok r, w')
    /\ (r = None ->
        exists e w0,
          w' = with_status ("Error: " +:+ posixpath.basename file_path +:+ " - "
                            +:+ exn_str e) w0).
Proof.
  unfold _process_file, try_except.
  match goal with |- context [match ?body w with _ => _ end] =>
    destruct (body w) as [[r|e] w0] eqn:Eb end.
  - exists r, w0. split; [reflexivity |]. intros ->. exfalso.
    apply bind_Ok_inv in Eb as (? & ? & _ & Eb).
    apply bind_Ok_inv in Eb as (? & ? & _ & Eb).
    apply bind_Ok_inv in Eb as (? & ? & _ & Eb).
    discriminate Eb.
  - eexists None, _. split; [reflexivity |]. intros _. now exists e, w0.
Qed.

End Containment.

(** C5 as the code has it.  An error raised while an entry is processed is
    caught inside its task, which returns [None] after an [Error: ...] status;
    the second loop of [run] gives every future its progress increment and
    an outcome signal to the successful ones; with no cancellation and the
    folders created, [run] goes through every entry and completes with
    [success = True] and the message [Successfully processed n of n files],
    where [n] counts every entry, failed ones included (the code keeps no count
    of successes).  In the batch of five entries whose third is missing:
    four outcome signals, five progress signals, and "5 of 5". *)
Theorem task_errors_are_contained {T : TimeLib} :
  (forall s file_path type_folder date_folder w,
     exists r w',
       FileOrganizerWorker._process_file s file_path type_folder date_folder w
       = (Ok r, w')
       /\ (r = None ->
           exists e w0,
             w' = with_status ("Error: " +:+ posixpath.basename file_path +:+ " - "
                               +:+ exn_str e) w0))
  /\ (forall fu processed total_files d,
        cancel_at d = None ->
        FileOrganizerWorker.run_results fu processed total_files d
        = (Ok (processed + length fu),
           mkDispatcher (world d) None (flag_reads d + length fu)
             (signals d ++ results_signals FileOrganizerWorkerSpec.outcome_signal
                             fu processed total_files)))
  /\ (forall s d type_folder date_folder w1,
        cancel_at d = None ->
        create_folders s (world d) = (Ok (type_folder, date_folder), w1) ->
        let n := length (FileOrganizerWorker.files s) in
        let r := submit_all s type_folder date_folder n
                   (FileOrganizerWorker.files s) 0 w1 in
        FileOrganizerWorker.run s d
        = (Ok tt,
           mkDispatcher (after r) None (flag_reads d + n + length (futures r) + 1)
             (signals d ++ progress r
              ++ results_signals FileOrganizerWorkerSpec.outcome_signal
                   (futures r) (count r) n
              ++ [operation_completed true
                    ("Successfully processed " +:+ Py.str n +:+ " of "
                     +:+ Py.str n +:+ " files")]))
        /\ count r + length (futures r) = n)
  /\ signals (snd (FileOrganizerWorker.run (T := Toy.time) batch_self
                     (dispatcher_in batch_world None)))
     = [ file_processed "/in/a.txt" "/out/Organized by Type/Text/a.txt";
         progress_updated 1 5;
         file_processed "/in/b.jpg" "/out/Organized by Type/Images/b.jpg";
         progress_updated 2 5;
         progress_updated 3 5;
         file_processed "/in/d.mp3" "/out/Organized by Type/Audio/d.mp3";
         progress_updated 4 5;
         file_processed "/in/e.zip" "/out/Organized by Type/Archives/e.zip";
         progress_updated 5 5;
         operation_completed true "Successfully processed 5 of 5 files" ].
Proof.
  split; [apply organizer_process_file_outcome |].
  split.
  { intros fu processed total d Hc.
    rewrite organizer_run_results_quiet by (unfold quiet_for; now rewrite Hc).
    now rewrite Hc. }
  split.
  { intros s d tf df w1 Hc Hf n r. split.
    - now apply organizer_run_uncancelled.
    - apply (submit_all_count s tf df n (FileOrganizerWorker.files s) 0 w1). }
  vm_compute. reflexivity.
Qed.

(** The gap to C5 as it is written: in the batch of five entries whose third
    is missing, the completion says "5 of 5", not 4 of 5, and the third
    task's end is the status [Error: c.pdf - ...]. *)
Lemma completion_counts_failed_entry :
  let after_run := snd (FileOrganizerWorker.run (T := Toy.time) batch_self
                          (dispatcher_in batch_world None)) in
  List.last (signals after_run) (progress_updated 0 0)
  = operation_completed true "Successfully processed 5 of 5 files"
  /\ length (List.filter (fun sg => match sg with
                                    | file_processed _ _ => true
                                    | _ => false
                                    end) (signals after_run)) = 4
  /\ statuses (world after_run)
     = [ "Copied to Type: a.txt"; "Copied to Type: b.jpg";
         "Error: c.pdf - [Errno 2] No such file or directory: '/in/c.pdf'";
         "Copied to Type: d.mp3"; "Copied to Type: e.zip" ].
Proof. vm_compute. repeat split. Qed.

Lemma task_errors_are_contained_witness :
  exists d',
    FileOrganizerWorker.run (T := Toy.time) batch_self (dispatcher_in batch_world None)
    = (Ok tt, d')
    /\ List.last (signals d') (progress_updated 0 0)
       = operation_completed true "Successfully processed 5 of 5 files".
Proof.
  destruct (task_errors_are_contained (T := Toy.time)) as (_ & _ & Hrun & _).
  destruct (Hrun batch_self (dispatcher_in batch_world None)
              (Some "/out/Organized by Type") None
              (snd (create_folders batch_self batch_world))) as [E _].
  - reflexivity.
  - vm_compute. reflexivity.
  - eexists. split; [exact E |]. vm_compute. reflexivity.
Defined.

(** ** Duplicate names *)

(** *** More on strings and paths *)

Section PathFacts.

Lemma str_app_nil_r (s : string) : s +:+ "" = s.
Proof. induction s as [|c s IH]; [reflexivity |]. now rewrite str_app_cons, IH. Qed.

Lemma str_app_assoc (a b c : string) : (a +:+ b) +:+ c = a +:+ (b +:+ c).
Proof. induction a as [|x a IH]; [reflexivity |]. now rewrite !str_app_cons, IH. Qed.

Lemma str_app_inj_r (a b e : string) : a +:+ e = b +:+ e -> a = b.
Proof.
  revert b. induction a as [|x a IH]; intros [|y b] H.
  - reflexivity.
  - apply (f_equal String.length) in H. rewrite !str_length_app in H. simpl in H. lia.
  - apply (f_equal String.length) in H. rewrite !str_length_app in H. simpl in H. lia.
  - rewrite !str_app_cons in H. injection H as -> H. f_equal. now apply IH.
Qed.

Lemma str_app_inj_l (a b c : string) : a +:+ b = a +:+ c -> b = c.
Proof.
  induction a as [|x a IH]; [trivial |]. rewrite !str_app_cons.
  intros H. injection H as H. now apply IH.
Qed.

Lemma existsb_app f (a b : string) :
  Py.existsb f (a +:+ b) = Py.existsb f a || Py.existsb f b.
Proof.
  induction a as [|x a IH]; [reflexivity |].
  rewrite str_app_cons. simpl. now rewrite IH, orb_assoc.
Qed.

Lemma existsb_take f n s : Py.existsb f s = false -> Py.existsb f (Py.take n s) = false.
Proof.
  revert s; induction n as [|n IH]; intros [|c s]; simpl; try reflexivity.
  intros H. apply orb_false_elim in H as [-> H]. now apply IH.
Qed.

Lemma existsb_drop f n s : Py.existsb f s = false -> Py.existsb f (Py.drop n s) = false.
Proof.
  revert s; induction n as [|n IH]; intros [|c s]; simpl; try trivial.
  intros H. apply orb_false_elim in H as [_ H]. now apply IH.
Qed.

Lemma existsb_slice_to f i s :
  Py.existsb f s = false -> Py.existsb f (Py.slice_to i s) = false.
Proof. unfold Py.slice_to. destruct (i <? 0)%Z; apply existsb_take. Qed.

Lemma existsb_slice_from f i s :
  Py.existsb f s = false -> Py.existsb f (Py.slice_from i s) = false.
Proof. unfold Py.slice_from. destruct (i <? 0)%Z; apply existsb_drop. Qed.

Lemma slice_to_from i s : Py.slice_to i s +:+ Py.slice_from i s = s.
Proof. unfold Py.slice_to, Py.slice_from. destruct (i <? 0)%Z; apply str_take_drop. Qed.

(** [rfind] and the absence of the character. *)
Lemma rfind_none c s : Py.existsb (fun a => Ascii.eqb a c) s = false -> Py.rfind c s = (-1)%Z.
Proof.
  induction s as [|a s IH]; [reflexivity |]. simpl.
  intros H. apply orb_false_elim in H as [Ha Hs]. rewrite (IH Hs), Ha. reflexivity.
Qed.

Lemma rfind_app c (a b : string) :
  Py.rfind c (a +:+ b)
  = if (0 <=? Py.rfind c b)%Z then (Z.of_nat (String.length a) + Py.rfind c b)%Z
    else Py.rfind c a.
Proof.
  induction a as [|x a IH].
  - change ("" +:+ b) with b. cbn [String.length Py.rfind].
    pose proof (rfind_bounds c b).
    destruct (0 <=? Py.rfind c b)%Z eqn:E.
    + lia.
    + apply Z.leb_gt in E. lia.
  - rewrite str_app_cons. cbn [Py.rfind String.length]. rewrite IH.
    pose proof (rfind_bounds c b). pose proof (rfind_bounds c a).
    destruct (0 <=? Py.rfind c b)%Z eqn:E.
    + apply Z.leb_le in E.
      replace (0 <=? Z.of_nat (String.length a) + Py.rfind c b)%Z with true
        by (symmetry; apply Z.leb_le; lia).
      lia.
    + reflexivity.
Qed.

Lemma rfind_last c (a : string) :
  Py.rfind c (a +:+ String c "") = Z.of_nat (String.length a).
Proof.
  rewrite rfind_app. cbn [Py.rfind]. rewrite Ascii.eqb_refl. cbn. lia.
Qed.

(** The name [basename] returns has no separator. *)
Lemma rfind_drop_none c s :
  Py.existsb (fun a => Ascii.eqb a c) (Py.drop (Z.to_nat (Py.rfind c s + 1)) s) = false.
Proof.
  induction s as [|a s IH]; [reflexivity |].
  cbn [Py.rfind]. pose proof (rfind_bounds c s) as Hb.
  destruct (0 <=? Py.rfind c s)%Z eqn:E.
  - apply Z.leb_le in E.
    replace (Z.to_nat (Py.rfind c s + 1 + 1)) with (S (Z.to_nat (Py.rfind c s + 1))) by lia.
    exact IH.
  - apply Z.leb_gt in E. assert (Py.rfind c s = (-1)%Z) as Hr by lia.
    rewrite Hr in IH. change (Z.to_nat (-1 + 1)) with 0 in IH. cbn [Py.drop] in IH.
    destruct (Ascii.eqb a c) eqn:Ea.
    + change (Z.to_nat (0 + 1)) with 1. exact IH.
    + change (Z.to_nat (-1 + 1)) with 0. cbn [Py.drop Py.existsb]. now rewrite Ea, IH.
Qed.

Lemma basename_no_sep p : has_sep (posixpath.basename p) = false.
Proof.
  unfold has_sep, posixpath.basename, Py.slice_from.
  pose proof (rfind_bounds "/" p).
  replace (Py.rfind "/" p + 1 <? 0)%Z with false by (symmetry; apply Z.ltb_ge; lia).
  apply rfind_drop_none.
Qed.

Lemma splitext_app p :
  fst (posixpath.splitext p) +:+ snd (posixpath.splitext p) = p.
Proof.
  unfold posixpath.splitext.
  destruct (_ <? _)%Z; [| apply str_app_nil_r].
  destruct (Py.existsb _ _); [apply slice_to_from | apply str_app_nil_r].
Qed.

Lemma splitext_no_sep p :
  has_sep p = false ->
  has_sep (fst (posixpath.splitext p)) = false
  /\ has_sep (snd (posixpath.splitext p)) = false.
Proof.
  intros H. unfold posixpath.splitext.
  destruct (_ <? _)%Z; [| now split].
  destruct (Py.existsb _ _); [| now split].
  split; [now apply existsb_slice_to | now apply existsb_slice_from].
Qed.

(** [str(n)] is made of digits and determines [n]. *)
Lemma str_no_sep n : has_sep (Py.str n) = false.
Proof.
  unfold Py.str. generalize (Nat.to_uint n). intros d.
  unfold NilEmpty.string_of_uint.
  induction d; simpl; auto.
Qed.

Lemma str_inj n m : Py.str n = Py.str m -> n = m.
Proof.
  unfold Py.str. intros H.
  apply Unsigned.to_uint_inj.
  pose proof (NilEmpty.usu (Nat.to_uint n)) as H1.
  pose proof (NilEmpty.usu (Nat.to_uint m)) as H2.
  rewrite H in H1. congruence.
Qed.

Lemma str_nonempty n : 1 <= String.length (Py.str n).
Proof.
  unfold Py.str.
  assert (forall d, d <> Decimal.Nil ->
                    1 <= String.length (NilEmpty.string_of_uint d)) as H.
  { intros d Hd. destruct d; simpl; try lia. congruence. }
  apply H. intros E.
  pose proof (Unsigned.of_to n) as Hn. rewrite E in Hn. cbn in Hn. subst n.
  discriminate E.
Qed.

End PathFacts.

Section JoinFacts.

Lemma endswith_sep_cons c r :
  r <> "" -> Py.endswith (String c r) "/" = Py.endswith r "/".
Proof.
  intros Hr. unfold Py.endswith. cbn [String.length].
  destruct r as [|x r']; [congruence |]. cbn [String.length].
  replace (1 <=? S (S (String.length r'))) with true by reflexivity.
  replace (1 <=? S (String.length r')) with true by reflexivity.
  cbn [andb]. replace (S (S (String.length r')) - 1) with (S (String.length r')) by lia.
  replace (S (String.length r') - 1) with (String.length r') by lia.
  reflexivity.
Qed.

Lemma endswith_sep_single c : Py.endswith (String c "") "/" = Ascii.eqb c "/".
Proof.
  unfold Py.endswith. cbn. now destruct (Ascii.eqb c "/").
Qed.

Lemma endswith_app_sep d : Py.endswith (d +:+ "/") "/" = true.
Proof.
  induction d as [|c d IH]; [reflexivity |].
  rewrite str_app_cons, endswith_sep_cons; [exact IH |].
  destruct d; discriminate.
Qed.

Lemma all_sep_cons c r :
  posixpath.all_sep (String c r) = Ascii.eqb c "/" && posixpath.all_sep r.
Proof. unfold posixpath.all_sep. cbn. now rewrite negb_orb, negb_involutive. Qed.

Lemma all_sep_endswith d : d <> "" -> posixpath.all_sep d = true -> Py.endswith d "/" = true.
Proof.
  induction d as [|c d IH]; [congruence |]. intros _. rewrite all_sep_cons.
  intros H. apply andb_prop in H as [Hc Hd].
  destruct d as [|x d'].
  - now rewrite endswith_sep_single.
  - rewrite endswith_sep_cons by discriminate. now apply IH.
Qed.

Lemma rstrip_sep_cons c r :
  posixpath.rstrip_sep (String c r)
  = match posixpath.rstrip_sep r with
    | "" => if Ascii.eqb c "/" then "" else String c ""
    | r' => String c r'
    end.
Proof. reflexivity. Qed.

Lemma rstrip_sep_all d : posixpath.all_sep d = true -> posixpath.rstrip_sep d = "".
Proof.
  induction d as [|c d IH]; [reflexivity |]. rewrite all_sep_cons.
  intros H. apply andb_prop in H as [Hc Hd]. rewrite rstrip_sep_cons. now rewrite IH, Hc.
Qed.

Lemma rstrip_sep_id d : Py.endswith d "/" = false -> posixpath.rstrip_sep d = d.
Proof.
  induction d as [|c d IH]; [reflexivity |]. intros H.
  destruct d as [|x d'].
  - rewrite endswith_sep_single in H. cbn. now rewrite H.
  - rewrite endswith_sep_cons in H by discriminate.
    rewrite rstrip_sep_cons, (IH H). reflexivity.
Qed.

Lemma rstrip_sep_app_sep d : posixpath.rstrip_sep (d +:+ "/") = posixpath.rstrip_sep d.
Proof.
  induction d as [|c d IH]; [reflexivity |].
  rewrite str_app_cons, !rstrip_sep_cons. now rewrite IH.
Qed.

Lemma rstrip_sep_no_trailing s : Py.endswith (posixpath.rstrip_sep s) "/" = false.
Proof.
  induction s as [|c s IH]; [reflexivity |]. rewrite rstrip_sep_cons.
  destruct (posixpath.rstrip_sep s) as [|x r] eqn:E.
  - destruct (Ascii.eqb c "/") eqn:Ec; [reflexivity |].
    now rewrite endswith_sep_single.
  - now rewrite endswith_sep_cons by discriminate.
Qed.

Lemma all_sep_app (a b : string) :
  posixpath.all_sep (a +:+ b) = posixpath.all_sep a && posixpath.all_sep b.
Proof.
  unfold posixpath.all_sep. rewrite existsb_app. now rewrite negb_orb.
Qed.

Lemma not_endswith_not_all_sep d :
  d <> "" -> Py.endswith d "/" = false -> posixpath.all_sep d = false.
Proof.
  intros Hne He. destruct (posixpath.all_sep d) eqn:E; [| reflexivity].
  rewrite (all_sep_endswith d Hne E) in He. discriminate.
Qed.

Lemma all_sep_rfind d :
  d <> "" -> posixpath.all_sep d = true ->
  Py.rfind "/" d = (Z.of_nat (String.length d) - 1)%Z.
Proof.
  induction d as [|c d IH]; [congruence |]. intros _. rewrite all_sep_cons.
  intros H. apply andb_prop in H as [Hc Hd]. cbn [Py.rfind String.length].
  destruct d as [|x d'].
  - cbn. now rewrite Hc.
  - rewrite (IH ltac:(discriminate) Hd). cbn [String.length].
    replace (0 <=? Z.of_nat (S (String.length d')) - 1)%Z with true
      by (symmetry; apply Z.leb_le; lia).
    lia.
Qed.

Lemma take_app_exact (a b : string) : Py.take (String.length a) (a +:+ b) = a.
Proof.
  induction a as [|c a IH]; [now destruct b |].
  rewrite str_app_cons. cbn. now rewrite IH.
Qed.

Lemma drop_app_exact (a b : string) : Py.drop (String.length a) (a +:+ b) = b.
Proof.
  induction a as [|c a IH]; [reflexivity |].
  rewrite str_app_cons. cbn. exact IH.
Qed.

Lemma no_sep_startswith x : has_sep x = false -> Py.startswith x "/" = false.
Proof.
  destruct x as [|c x]; [reflexivity |]. unfold has_sep.
  change (Py.existsb ?f (String c x)) with (f c || Py.existsb f x).
  change (Py.startswith (String c x) "/") with (Ascii.eqb "/" c && Py.startswith x "").
  intros H. apply orb_false_elim in H as [Hc _]. rewrite Ascii.eqb_sym in Hc.
  now rewrite Hc.
Qed.

Lemma dirname_normal p : dir_normal (posixpath.dirname p).
Proof.
  unfold posixpath.dirname, dir_normal.
  set (h := Py.slice_to _ p).
  destruct (String.eqb h "") eqn:E1.
  - apply String.eqb_eq in E1. rewrite E1. cbn. now left.
  - cbn [negb andb]. destruct (posixpath.all_sep h) eqn:E2; cbn [negb].
    + now left.
    + right. apply rstrip_sep_no_trailing.
Qed.

Lemma join_no_sep d x :
  has_sep x = false -> posixpath.join d x = d +:+ join_sep d +:+ x.
Proof.
  intros Hx. unfold posixpath.join, join_sep.
  rewrite (no_sep_startswith x Hx).
  destruct (String.eqb d "" || Py.endswith d "/"); reflexivity.
Qed.

Lemma join_length d x :
  has_sep x = false ->
  String.length (posixpath.join d x)
  = String.length d + String.length (join_sep d) + String.length x.
Proof. intros Hx. rewrite join_no_sep by exact Hx. rewrite !str_length_app. lia. Qed.

Lemma dirname_basename_join d x :
  dir_normal d -> has_sep x = false ->
  posixpath.dirname (posixpath.join d x) = d
  /\ posixpath.basename (posixpath.join d x) = x.
Proof.
  intros Hd Hx. rewrite join_no_sep by exact Hx.
  assert (Py.rfind "/" x = (-1)%Z) as Hrx by now apply rfind_none.
  unfold posixpath.dirname, posixpath.basename, Py.slice_to, Py.slice_from, join_sep.
  destruct (String.eqb d "") eqn:Ed.
  - apply String.eqb_eq in Ed. subst d. cbn [orb].
    change ("" +:+ "" +:+ x) with x. rewrite Hrx. cbn. now destruct x.
  - apply String.eqb_neq in Ed. cbn [orb].
    destruct (Py.endswith d "/") eqn:Ee.
    + (* [d] is all separators *)
      destruct Hd as [Hall|Hno]; [| congruence].
      change ("" +:+ x) with x.
      rewrite rfind_app, Hrx. cbn [Z.leb]. 
      replace (0 <=? -1)%Z with false by reflexivity.
      rewrite (all_sep_rfind d Ed Hall).
      replace (Z.of_nat (String.length d) - 1 + 1 <? 0)%Z with false
        by (symmetry; apply Z.ltb_ge; lia).
      replace (Z.to_nat (Z.of_nat (String.length d) - 1 + 1)) with (String.length d) by lia.
      rewrite take_app_exact, drop_app_exact. rewrite Hall.
      split; [| reflexivity]. now destruct (negb (String.eqb d "")).
    + (* [d] ends with a name *)
      rewrite <- str_app_assoc.
      rewrite rfind_app, Hrx.
      replace (0 <=? -1)%Z with false by reflexivity.
      rewrite (rfind_last "/" d).
      replace (Z.of_nat (String.length d) + 1 <? 0)%Z with false
        by (symmetry; apply Z.ltb_ge; lia).
      replace (Z.to_nat (Z.of_nat (String.length d) + 1))
        with (String.length (d +:+ "/")) by (rewrite str_length_app; cbn; lia).
      rewrite take_app_exact, drop_app_exact.
      rewrite all_sep_app, (not_endswith_not_all_sep d Ed Ee). cbn [andb negb].
      replace (String.eqb (d +:+ "/") "") with false
        by (symmetry; apply String.eqb_neq; destruct d; discriminate).
      cbn [negb andb]. rewrite rstrip_sep_app_sep, (rstrip_sep_id d Ee).
      split; reflexivity.
Qed.

End JoinFacts.

Section Resolve.

Lemma candidate_S body c p n :
  candidate body c p (S n) = body (c + n) (candidate body c p n).
Proof.
  revert c p. induction n as [|n IH]; intros c p.
  - cbn. now rewrite Nat.add_0_r.
  - change (candidate body c p (S (S n)))
      with (candidate body (S c) (body c p) (S n)).
    rewrite IH. cbn [candidate]. f_equal. lia.
Qed.

Lemma while_exists_loop_Some m body fuel c p q :
  while_exists_loop m body fuel c p = Some q ->
  exists k, k <= fuel /\ q = candidate body c p k /\ exists_in m q = false
    /\ forall j, j < k -> exists_in m (candidate body c p j) = true.
Proof.
  revert c p. induction fuel as [|fuel IH]; intros c p; cbn [while_exists_loop];
    destruct (exists_in m p) eqn:E; intros H; try discriminate.
  - injection H as <-. exists 0. repeat split; [lia | exact E | intros j Hj; lia].
  - destruct (IH _ _ H) as (k & Hk & -> & Hq & Hlt).
    exists (S k). repeat split; [lia | exact Hq |].
    intros [|j] Hj; [exact E |]. apply Hlt. lia.
  - injection H as <-. exists 0. repeat split; [lia | exact E | intros j Hj; lia].
Qed.

Lemma while_exists_loop_None m body fuel c p :
  while_exists_loop m body fuel c p = None ->
  forall j, j <= fuel -> exists_in m (candidate body c p j) = true.
Proof.
  revert c p. induction fuel as [|fuel IH]; intros c p; cbn [while_exists_loop];
    destruct (exists_in m p) eqn:E; intros H; try discriminate.
  - intros j Hj. replace j with 0 by lia. exact E.
  - intros [|j] Hj; [exact E |]. apply (IH _ _ H). lia.
Qed.

(** No more distinct paths are on disk than the disk has entries. *)
Lemma present_bound (m : gmap string node) (f : nat -> string) n :
  (forall j, j < n -> exists_in m (f j) = true) ->
  (forall i j, i < n -> j < n -> f i = f j -> i = j) ->
  n <= size m.
Proof.
  intros Hin Hinj.
  set (l := f <$> seq 0 n).
  assert (NoDup l) as Hnd.
  { apply NoDup_fmap_2_strong; [| apply NoDup_seq].
    intros x y Hx Hy. apply elem_of_seq in Hx, Hy. apply Hinj; lia. }
  assert (list_to_set l ⊆@{gset string} dom m) as Hsub.
  { intros x Hx. apply elem_of_list_to_set in Hx.
    apply list_elem_of_fmap in Hx as (j & -> & Hj). apply elem_of_seq in Hj.
    apply elem_of_dom. specialize (Hin j ltac:(lia)). unfold exists_in in Hin.
    destruct (m !! f j); [eauto | discriminate]. }
  apply subseteq_size in Hsub.
  rewrite size_list_to_set in Hsub by exact Hnd.
  rewrite size_dom in Hsub. unfold l in Hsub.
  rewrite length_fmap, length_seq in Hsub. exact Hsub.
Qed.

(** The loop ends as soon as its candidates from the first on are pairwise
    distinct. *)
Lemma while_exists_ends body path w :
  (forall i j, candidate body 1 path (S i) = candidate body 1 path (S j) -> i = j) ->
  exists p, resolves body path w p.
Proof.
  intros Hinj. unfold resolves, while_exists.
  destruct (while_exists_loop (fs w) body (S (size (fs w))) 1 path) as [q|] eqn:E.
  - destruct (while_exists_loop_Some _ _ _ _ _ _ E) as (k & Hk & -> & Hq & Hlt).
    exists (candidate body 1 path k).
    split; [| split; [exact Hq | exists k; split; [reflexivity | exact Hlt]]].
    unfold mbind, ST_bind, get_world. rewrite E. reflexivity.
  - exfalso. pose proof (while_exists_loop_None _ _ _ _ _ E) as Hall.
    assert (S (size (fs w)) <= size (fs w)); [| lia].
    apply (present_bound (fs w) (fun j => candidate body 1 path (S j))).
    + intros j Hj. apply Hall. lia.
    + intros i j _ _. apply Hinj.
Qed.

(** *** The organizer's names *)

Lemma startswith_single c s x :
  Py.startswith (String c s) (String x "") = Ascii.eqb x c.
Proof.
  change (Py.startswith (String c s) (String x ""))
    with (Ascii.eqb x c && Py.startswith s "").
  destruct s; cbn [Py.startswith]; apply andb_true_r.
Qed.

Lemma startswith_sep_app name a b :
  Py.startswith (name +:+ "_" +:+ a) "/" = Py.startswith (name +:+ "_" +:+ b) "/".
Proof.
  destruct name as [|c name].
  - change ("" +:+ "_" +:+ a) with ("_" +:+ a).
    change ("" +:+ "_" +:+ b) with ("_" +:+ b).
    rewrite !str_app_cons. now rewrite !startswith_single.
  - rewrite !str_app_cons. now rewrite !startswith_single.
Qed.

Lemma join_name_inj folder name a b :
  posixpath.join folder (name +:+ "_" +:+ a)
  = posixpath.join folder (name +:+ "_" +:+ b) -> a = b.
Proof.
  unfold posixpath.join. rewrite (startswith_sep_app name a b).
  destruct (Py.startswith (name +:+ "_" +:+ b) "/").
  - intros H. apply str_app_inj_l in H. now apply str_app_inj_l in H.
  - destruct (String.eqb folder "" || Py.endswith folder "/"); intros H;
      repeat apply str_app_inj_l in H; exact H.
Qed.

Lemma organizer_candidate folder name ext c path n :
  candidate (FileOrganizerWorker.duplicate_body folder name ext) c path (S n)
  = posixpath.join folder (name +:+ "_" +:+ Py.str (c + n) +:+ ext).
Proof. now rewrite candidate_S. Qed.


(** *** The names of the encrypted outputs *)



(** *** The names of the decrypted outputs *)

Lemma startswith_length s pre :
  Py.startswith s pre = true -> String.length pre <= String.length s.
Proof.
  revert s. induction pre as [|a pre IH]; intros [|b s]; cbn; try lia; try discriminate.
  intros H. apply andb_prop in H as [_ H]. apply IH in H. lia.
Qed.

Lemma has_sep_app a b : has_sep (a +:+ b) = has_sep a || has_sep b.
Proof. apply existsb_app. Qed.

Lemma decrypted_stem_no_sep name : has_sep name = false -> has_sep (decrypted_stem name) = false.
Proof.
  intros H. unfold decrypted_stem. destruct (Py.startswith name "decrypted_"); [| exact H].
  now apply existsb_slice_from.
Qed.

Lemma decrypted_stem_length name :
  String.length name <= String.length (decrypted_stem name) + 10.
Proof.
  unfold decrypted_stem. destruct (Py.startswith name "decrypted_") eqn:E; [| lia].
  apply startswith_length in E. cbn [String.length] in E.
  unfold Py.slice_from. replace (10 <? 0)%Z with false by reflexivity.
  rewrite str_length_drop. lia.
Qed.

(** One body of the decrypt loop keeps the directory and renames the file. *)
Lemma decrypt_duplicate_body_shape c p :
  let name := fst (posixpath.splitext (posixpath.basename p)) in
  let ext := snd (posixpath.splitext (posixpath.basename p)) in
  let base := "decrypted_" +:+ Py.str c +:+ "_" +:+ decrypted_stem name +:+ ext in
  EncryptionWorker.decrypt_duplicate_body c p = posixpath.join (posixpath.dirname p) base
  /\ has_sep base = false
  /\ posixpath.dirname (EncryptionWorker.decrypt_duplicate_body c p) = posixpath.dirname p
  /\ posixpath.basename (EncryptionWorker.decrypt_duplicate_body c p) = base.
Proof.
  intros name ext base.
  assert (EncryptionWorker.decrypt_duplicate_body c p
          = posixpath.join (posixpath.dirname p) base) as Heq.
  { unfold EncryptionWorker.decrypt_duplicate_body, base, name, ext, decrypted_stem.
    destruct (posixpath.splitext (posixpath.basename p)) as [nm ex]. cbn [fst snd].
    destruct (Py.startswith nm "decrypted_"); now rewrite !str_app_assoc. }
  assert (has_sep base = false) as Hb.
  { destruct (splitext_no_sep _ (basename_no_sep p)) as [Hn He].
    subst base name ext. rewrite !has_sep_app, (str_no_sep c), He.
    rewrite (decrypted_stem_no_sep _ Hn). reflexivity. }
  rewrite Heq.
  destruct (dirname_basename_join _ _ (dirname_normal p) Hb) as [Hd Hbn].
  repeat split; assumption.
Qed.

Lemma decrypt_duplicate_body_longer c p :
  String.length (posixpath.basename p) + 2
  <= String.length (posixpath.basename (EncryptionWorker.decrypt_duplicate_body c p)).
Proof.
  destruct (decrypt_duplicate_body_shape c p) as (_ & _ & _ & ->).
  rewrite <- (splitext_app (posixpath.basename p)) at 1.
  rewrite !str_length_app.
  pose proof (decrypted_stem_length (fst (posixpath.splitext (posixpath.basename p)))).
  pose proof (str_nonempty c).
  change (String.length "decrypted_") with 10. change (String.length "_") with 1. lia.
Qed.


Lemma decrypt_candidate_basename_grows c p n :
  String.length (posixpath.basename (candidate EncryptionWorker.decrypt_duplicate_body c p n)) + 2
  <= String.length (posixpath.basename (candidate EncryptionWorker.decrypt_duplicate_body c p (S n))).
Proof. rewrite candidate_S. apply decrypt_duplicate_body_longer. Qed.

Lemma decrypt_candidate_basename_mono c p i j :
  i < j ->
  String.length (posixpath.basename (candidate EncryptionWorker.decrypt_duplicate_body c p i))
  < String.length (posixpath.basename (candidate EncryptionWorker.decrypt_duplicate_body c p j)).
Proof.
  induction 1 as [|j Hle IH].
  - pose proof (decrypt_candidate_basename_grows c p i). lia.
  - pose proof (decrypt_candidate_basename_grows c p j). lia.
Qed.

Lemma decrypt_resolves path w :
  exists p, resolves EncryptionWorker.decrypt_duplicate_body path w p.
Proof.
  apply while_exists_ends. intros i j H.
  destruct (Nat.lt_trichotomy i j) as [Hlt | [-> | Hlt]]; [| reflexivity |].
  - pose proof (decrypt_candidate_basename_mono 1 path (S i) (S j) ltac:(lia)) as Hm.
    rewrite H in Hm. lia.
  - pose proof (decrypt_candidate_basename_mono 1 path (S j) (S i) ltac:(lia)) as Hm.
    rewrite H in Hm. lia.
Qed.

End Resolve.

Section ResolveFirst.

Lemma resolves_first body path w k :
  (forall i j, candidate body 1 path (S i) = candidate body 1 path (S j) -> i = j) ->
  (forall j, j < k -> exists_in (fs w) (candidate body 1 path j) = true) ->
  exists_in (fs w) (candidate body 1 path k) = false ->
  resolves body path w (candidate body 1 path k).
Proof.
  intros Hinj Hlt Hk.
  destruct (while_exists_ends body path w Hinj) as (p & Hrun & Hp & k' & -> & Hlt').
  assert (k' = k) as ->; [| repeat split; eauto].
  destruct (Nat.lt_trichotomy k' k) as [H | [H | H]]; [| exact H |].
  - rewrite (Hlt _ H) in Hp. discriminate.
  - rewrite (Hlt' _ H) in Hk. discriminate.
Qed.

Lemma organizer_resolves_first folder name ext path w k :
  let body := FileOrganizerWorker.duplicate_body folder name ext in
  (forall j, j < k -> exists_in (fs w) (candidate body 1 path j) = true) ->
  exists_in (fs w) (candidate body 1 path k) = false ->
  resolves body path w (candidate body 1 path k).
Proof.
  intros body. apply resolves_first. intros i j. unfold body.
  rewrite !organizer_candidate.
  intros H. apply join_name_inj, str_app_inj_r, str_inj in H. lia.
Qed.

Lemma report_first folder w :
  exists_in (fs w) (posixpath.join folder "report.txt") = true ->
  exists_in (fs w) (posixpath.join folder "report_1.txt") = false ->
  resolves (FileOrganizerWorker.duplicate_body folder "report" ".txt")
           (posixpath.join folder "report.txt") w (posixpath.join folder "report_1.txt").
Proof.
  intros H0 H1.
  apply (organizer_resolves_first folder "report" ".txt" _ w 1).
  - intros j Hj. replace j with 0 by lia. exact H0.
  - exact H1.
Qed.

Lemma report_second folder w :
  exists_in (fs w) (posixpath.join folder "report.txt") = true ->
  exists_in (fs w) (posixpath.join folder "report_1.txt") = true ->
  exists_in (fs w) (posixpath.join folder "report_2.txt") = false ->
  resolves (FileOrganizerWorker.duplicate_body folder "report" ".txt")
           (posixpath.join folder "report.txt") w (posixpath.join folder "report_2.txt").
Proof.
  intros H0 H1 H2.
  apply (organizer_resolves_first folder "report" ".txt" _ w 2).
  - intros [|[|j]] Hj; [exact H0 | exact H1 | lia].
  - exact H2.
Qed.


End ResolveFirst.

(** ** Directories *)

(** [m w] evaluated, as the equation [E]. *)
Ltac run_as E m w :=
  let r := fresh "r" in
  pose (r := m w); assert (E : m w = r) by reflexivity; vm_compute in r; subst r.

Section Directories.
Context {C : CryptoLib} {Zp : ZipLib} {ZL : ZipLaws Zp}.
Import EncryptionWorker.

Lemma zipfile_extractall_packed zip_path dest w members t :
  fs w !! zip_path = Some (File (zip_pack members) t) ->
  zipfile_extractall zip_path dest w = for_each members (extract_member dest) w.
Proof.
  intros H. unfold zipfile_extractall, open_rb.
  unfold mbind, ST_bind. rewrite H. now rewrite zip_unpack_pack.
Qed.

End Directories.

(** The archive at [zip_path] is unpacked and [E] says what extracting its
    members gives. *)
Ltac extract_as E :=
  match goal with
  | |- context [mbind _ (zipfile_extractall ?zip_path ?dest) ?w] =>
      let r := fresh "r" in
      let E' := fresh "E" in
      let E'' := fresh "E" in
      pose (r := fs w !! zip_path); vm_compute in r;
      match eval cbv delta [r] in r with
      | Some (File (_ ?members) ?t) =>
          assert (E' : zipfile_extractall zip_path dest w
                       = for_each members (extract_member dest) w)
            by (apply (zipfile_extractall_packed zip_path dest w members t);
                vm_compute; reflexivity);
          clear r;
          run_as E'' (for_each members (extract_member dest)) w;
          pose proof (eq_trans E' E'') as E; clear E' E''
      end
  end.

(** C7.  A directory with an empty [a.txt] and a three-byte [sub/b.txt] is
    encrypted into exactly one new entry, the container file, and nothing
    else changes on disk; decrypting that container with the same password
    raises [Failed to decrypt directory: Invalid padding or incorrect
    password] at the empty file, and leaves an empty output directory: no
    file of the directory is reproduced.  This holds for every cipher and
    every archive format that unpacks what it packed. *)
Theorem directory_with_empty_file_is_not_restored
    {C : CryptoLib} {Zp : ZipLib} {ZL : ZipLaws Zp} (s : EncryptionWorker.self) :
  let w := tree_world [] [1; 2; 3]%N in
  let encrypted := EncryptionWorker._encrypt_directory s "/d/docs" "/d/docs.encrypted" w in
  let decrypted :=
    EncryptionWorker._decrypt_directory s "/d/docs.encrypted" "/d/out" (snd encrypted) in
  fst encrypted = Ok tt
  /\ exists_in (fs (snd encrypted)) "/d/docs.encrypted" = true
  /\ isdir_in (fs (snd encrypted)) "/d/docs.encrypted" = false
  /\ delete "/d/docs.encrypted" (fs (snd encrypted)) = fs w
  /\ fst decrypted
     = Raise (ValueError "Failed to decrypt directory: Invalid padding or incorrect password")
  /\ fs (snd decrypted) = <["/d/out" := Dir]> (fs (snd encrypted)).
Proof.
  intros w encrypted decrypted.
  vm_compute in encrypted.
  split; [reflexivity |].
  split; [vm_compute; reflexivity |].
  split; [vm_compute; reflexivity |].
  split; [vm_compute; reflexivity |].
  assert (decrypted
          = (Raise (ValueError
               "Failed to decrypt directory: Invalid padding or incorrect password"),
             with_fs (insert "/d/out" Dir) (snd encrypted))) as ->.
  2: { split; [reflexivity | vm_compute; reflexivity]. }
  subst decrypted encrypted. cbn [snd].
  unfold EncryptionWorker._decrypt_directory.
  match goal with |- context [mbind _ ?m ?w] => run_as E1 m w end.
  rewrite (bind_Ok _ _ _ _ _ E1). clear E1.
  unfold try_finally, try_except.
  match goal with
  | |- context [mbind _ (shutil_copy2 ?a ?b) ?w] => run_as E2 (shutil_copy2 a b) w
  end.
  rewrite (bind_Ok _ _ _ _ _ E2). clear E2. cbv beta.
  extract_as E3. rewrite (bind_Ok _ _ _ _ _ E3). clear E3.
  vm_compute. reflexivity.
Qed.

Lemma directory_with_empty_file_is_not_restored_witness :
  fst (EncryptionWorker._decrypt_directory (C := Toy.crypto) (Zp := Toy.zip) codec_self
         "/d/docs.encrypted" "/d/out"
         (snd (EncryptionWorker._encrypt_directory (C := Toy.crypto) (Zp := Toy.zip)
                 codec_self "/d/docs" "/d/docs.encrypted" (tree_world [] [1; 2; 3]%N))))
  = Raise (ValueError "Failed to decrypt directory: Invalid padding or incorrect password").
Proof.
  exact (proj1 (proj2 (proj2 (proj2 (proj2
    (directory_with_empty_file_is_not_restored (ZL := toy_zip_laws) codec_self)))))).
Defined.

(** With contents that are not a multiple of 16 long the same directory is
    restored, and the manifest is not among the files. *)
Example directory_roundtrip_unaligned :
  let w := tree_world [9; 8]%N [1; 2; 3]%N in
  let encrypted :=
    EncryptionWorker._encrypt_directory (C := Toy.crypto) (Zp := Toy.zip) codec_self
      "/d/docs" "/d/docs.encrypted" w in
  let decrypted :=
    EncryptionWorker._decrypt_directory (C := Toy.crypto) (Zp := Toy.zip) codec_self
      "/d/docs.encrypted" "/d/out" (snd encrypted) in
  fst decrypted = Ok tt
  /\ subtree "/d/out" (fs (snd decrypted))
     = list_to_map [ ("", Dir); ("/a.txt", File [9; 8]%N 100); ("/sub", Dir);
                     ("/sub/b.txt", File [1; 2; 3]%N 100) ].
Proof. vm_compute. split; reflexivity. Qed.

(** ** The branch without manifest *)

Section Trees.

Lemma startswith_nil s : Py.startswith s "" = true.
Proof. now destruct s. Qed.

Lemma startswith_cons c s a p :
  Py.startswith (String c s) (String a p) = Ascii.eqb a c && Py.startswith s p.
Proof. reflexivity. Qed.

Lemma startswith_app p x : Py.startswith (p +:+ x) p = true.
Proof.
  induction p as [|a p IH]; [apply startswith_nil |].
  rewrite str_app_cons, startswith_cons, Ascii.eqb_refl. exact IH.
Qed.

Lemma startswith_inv k p : Py.startswith k p = true -> k = p +:+ Py.drop (String.length p) k.
Proof.
  revert k. induction p as [|a p IH]; intros k H; [now destruct k |].
  destruct k as [|c k]; [discriminate |].
  rewrite startswith_cons in H. apply andb_prop in H as [Hc Hk].
  apply Ascii.eqb_eq in Hc. subst c. rewrite str_app_cons. cbn. f_equal. now apply IH.
Qed.

Lemma startswith_app_l d a b : Py.startswith (d +:+ a) (d +:+ b) = Py.startswith a b.
Proof.
  induction d as [|c d IH]; [reflexivity |].
  now rewrite !str_app_cons, startswith_cons, Ascii.eqb_refl.
Qed.

Lemma str_app_eq_l d r : String.eqb (d +:+ r) d = String.eqb r "".
Proof.
  induction d as [|c d IH]; [reflexivity |].
  rewrite str_app_cons. cbn [String.eqb]. now rewrite Ascii.eqb_refl.
Qed.

Lemma under_app d r : under d (d +:+ r) = is_rel r.
Proof. unfold under, is_rel. now rewrite str_app_eq_l, startswith_app_l. Qed.

Lemma under_inv d k :
  under d k = true ->
  k = d +:+ Py.drop (String.length d) k /\ is_rel (Py.drop (String.length d) k) = true.
Proof.
  unfold under. intros H.
  assert (k = d +:+ Py.drop (String.length d) k) as Hk.
  { apply orb_prop in H as [H | H].
    - apply String.eqb_eq in H. subst k.
      pose proof (drop_app_exact d "") as Hd. rewrite str_app_nil_r in Hd.
      now rewrite Hd, str_app_nil_r.
    - apply startswith_inv in H. rewrite str_app_assoc in H.
      rewrite H at 2. now rewrite drop_app_exact. }
  split; [exact Hk |]. rewrite <- (under_app d), <- Hk. exact H.
Qed.

Lemma under_refl d : under d d = true.
Proof. unfold under. now rewrite String.eqb_refl. Qed.

Lemma str_app_eq_prefix (a b u v : string) :
  a +:+ u = b +:+ v -> String.length a <= String.length b ->
  exists z, b = a +:+ z /\ u = z +:+ v.
Proof.
  revert b. induction a as [|c a IH]; intros b H Hl.
  - exists b. split; [reflexivity | exact H].
  - destruct b as [|c' b]; [cbn in Hl; lia |].
    rewrite !str_app_cons in H. injection H as -> H.
    destruct (IH b H) as (z & -> & ->); [cbn in Hl; lia |].
    exists z. now rewrite str_app_cons.
Qed.

Lemma is_rel_app_l z v : z <> "" -> is_rel (z +:+ v) = true -> is_rel z = true.
Proof.
  destruct z as [|c z]; [congruence |]. intros _. unfold is_rel.
  rewrite str_app_cons. cbn [String.eqb orb]. now rewrite !startswith_cons, !startswith_nil.
Qed.

(** Of two directories neither of which lies in the other, no entry lies in
    both. *)
Lemma under_disjoint a b k :
  under a b = false -> under b a = false -> under a k = true -> under b k = false.
Proof.
  intros Hab Hba Ha. destruct (under b k) eqn:Hb; [exfalso | reflexivity].
  apply under_inv in Ha as [Ha Hra]. apply under_inv in Hb as [Hb Hrb].
  set (u := Py.drop (String.length a) k) in *.
  set (v := Py.drop (String.length b) k) in *.
  assert (a +:+ u = b +:+ v) as Heq by congruence.
  destruct (Nat.le_gt_cases (String.length a) (String.length b)) as [Hl | Hl].
  - destruct (str_app_eq_prefix _ _ _ _ Heq Hl) as (z & Hz & Hu).
    rewrite Hz, under_app in Hab.
    destruct z as [|c z]; [discriminate Hab |].
    rewrite (is_rel_app_l (String c z) v) in Hab; [discriminate | discriminate | now rewrite <- Hu].
  - symmetry in Heq.
    destruct (str_app_eq_prefix _ _ _ _ Heq ltac:(lia)) as (z & Hz & Hv).
    rewrite Hz, under_app in Hba.
    destruct z as [|c z]; [discriminate Hba |].
    rewrite (is_rel_app_l (String c z) u) in Hba; [discriminate | discriminate | now rewrite <- Hv].
Qed.

(** The temporary archive is not in the temporary directory. *)
Lemma temp_zip_not_under_temp_dir input_path :
  under (input_path +:+ "_temp") (input_path +:+ ".zip") = false.
Proof.
  unfold under. rewrite str_app_assoc, startswith_app_l.
  replace (Py.startswith ".zip" ("_temp" +:+ "/")) with false by reflexivity.
  rewrite orb_false_r. apply String.eqb_neq. intros H.
  apply str_app_inj_l in H. discriminate.
Qed.

#[local] Instance str_app_inj d : Inj (=) (=) (String.append d).
Proof. intros a b H. now apply str_app_inj_l in H. Qed.

Lemma lookup_filter_under d (m : gmap string node) k :
  filter (fun kv => under d (fst kv) = false) m !! k
  = if under d k then None else m !! k.
Proof.
  destruct (under d k) eqn:E.
  - apply map_lookup_filter_None. right. intros x _. cbn. congruence.
  - destruct (m !! k) as [x|] eqn:Hk.
    + apply map_lookup_filter_Some. split; [exact Hk | exact E].
    + apply map_lookup_filter_None. now left.
Qed.

Lemma subtree_lookup_Some d m r x :
  subtree d m !! r = Some x -> is_rel r = true /\ m !! (d +:+ r) = Some x.
Proof.
  unfold subtree. intros H. apply elem_of_list_to_map_2 in H.
  apply list_elem_of_omap in H as ([k y] & Hk & Hf). cbn [fst snd] in Hf.
  destruct (under d k) eqn:E; [| discriminate]. injection Hf as <- <-.
  apply elem_of_map_to_list in Hk. apply under_inv in E as [E1 E2].
  split; [exact E2 |]. now rewrite <- E1.
Qed.

Lemma subtree_lookup d m r :
  is_rel r = true -> subtree d m !! r = m !! (d +:+ r).
Proof.
  intros Hr. destruct (subtree d m !! r) as [x|] eqn:E.
  - apply subtree_lookup_Some in E as [_ E]. now rewrite E.
  - destruct (m !! (d +:+ r)) as [x|] eqn:Hk; [exfalso | reflexivity].
    unfold subtree in E. apply not_elem_of_list_to_map in E. apply E.
    apply list_elem_of_fmap. exists (r, x). split; [reflexivity |].
    apply list_elem_of_omap. exists (d +:+ r, x). split.
    + now apply elem_of_map_to_list.
    + cbn [fst snd]. rewrite under_app, Hr. now rewrite drop_app_exact.
Qed.

Lemma graft_lookup_under d t m r :
  graft d t m !! (d +:+ r) = match t !! r with Some x => Some x | None => m !! (d +:+ r) end.
Proof.
  unfold graft. rewrite lookup_union.
  rewrite (lookup_kmap (String.append d)).
  destruct (t !! r), (m !! (d +:+ r)); reflexivity.
Qed.

Lemma graft_subtree_lookup_outside dst src m0 m k :
  under dst k = false -> graft dst (subtree src m0) m !! k = m !! k.
Proof.
  intros Hk. unfold graft. rewrite lookup_union.
  assert (kmap (String.append dst) (subtree src m0) !! k = None) as ->.
  { apply lookup_kmap_None; [apply _ |]. intros r ->.
    destruct (subtree src m0 !! r) as [x|] eqn:E; [exfalso | reflexivity].
    apply subtree_lookup_Some in E as [E _]. rewrite under_app in Hk. congruence. }
  now destruct (m !! k).
Qed.

End Trees.

Section Fallback.
Context {C : CryptoLib} {Zp : ZipLib}.
Import EncryptionWorker.

Section Lookups.
Variables (input_path output_dir : string) (m : gmap string node).
Let temp_dir := input_path +:+ "_temp".
Let temp_zip := input_path +:+ ".zip".
Hypothesis Hd1 : under output_dir temp_dir = false.
Hypothesis Hd2 : under temp_dir output_dir = false.
Hypothesis Hd3 : under output_dir temp_zip = false.

Lemma fallback_fs_output r :
  is_rel r = true ->
  fallback_fs input_path output_dir m !! (output_dir +:+ r) = m !! (temp_dir +:+ r).
Proof.
  intros Hr. unfold fallback_fs. fold temp_dir temp_zip.
  assert (under output_dir (output_dir +:+ r) = true) as Ho by now rewrite under_app.
  assert (under temp_dir (temp_dir +:+ r) = true) as Ht by now rewrite under_app.
  rewrite lookup_delete_ne by (intros E; rewrite <- E in Ho; congruence).
  rewrite lookup_filter_under.
  rewrite (under_disjoint output_dir temp_dir _ Hd1 Hd2 Ho).
  rewrite graft_lookup_under, (subtree_lookup _ _ _ Hr), !lookup_filter_under.
  rewrite (under_disjoint temp_dir output_dir _ Hd2 Hd1 Ht), Ho.
  now destruct (m !! (temp_dir +:+ r)).
Qed.

Lemma fallback_fs_frame k :
  under output_dir k = false -> under temp_dir k = false -> k <> temp_zip ->
  fallback_fs input_path output_dir m !! k = m !! k.
Proof.
  intros Ho Ht Hz. unfold fallback_fs. fold temp_dir temp_zip.
  rewrite lookup_delete_ne by congruence.
  rewrite lookup_filter_under, Ht, (graft_subtree_lookup_outside _ _ _ _ _ Ho).
  now rewrite lookup_filter_under, Ho.
Qed.

Lemma fallback_fs_temp k :
  under temp_dir k = true -> fallback_fs input_path output_dir m !! k = None.
Proof.
  intros Ht. unfold fallback_fs. fold temp_dir temp_zip.
  destruct (decide (temp_zip = k)) as [<- | Hne]; [apply lookup_delete_eq |].
  rewrite lookup_delete_ne by exact Hne. now rewrite lookup_filter_under, Ht.
Qed.

End Lookups.

Lemma fallback_run s input_path output_dir w w1 w4 data t :
  let temp_dir := input_path +:+ "_temp" in
  let temp_zip := input_path +:+ ".zip" in
  os_makedirs temp_dir true w = (Ok tt, w1) ->
  extract_steps input_path output_dir w1 = (Ok tt, w4) ->
  exists_in (fs w4) (posixpath.join temp_dir manifest_name) = false ->
  fs w4 !! output_dir = Some Dir ->
  fs w4 !! temp_dir = Some Dir ->
  fs w4 !! temp_zip = Some (File data t) ->
  check_parent (fs w4) output_dir = Ok tt ->
  under output_dir (posixpath.dirname output_dir) = false ->
  under output_dir temp_dir = false ->
  under temp_dir output_dir = false ->
  under output_dir temp_zip = false ->
  _decrypt_directory s input_path output_dir w
  = (Ok tt, with_fs (fallback_fs input_path output_dir) w4).
Proof.
  intros temp_dir temp_zip H1 H2 Hman Hout Htmp Hzip Hpar Hpar2 Hd1 Hd2 Hd3.
  unfold extract_steps in H2. fold temp_dir temp_zip in H2.
  apply bind_Ok_inv in H2 as ([] & w2 & Hc & H2).
  apply bind_Ok_inv in H2 as ([] & w3 & He & Hm).
  unfold _decrypt_directory. fold temp_dir temp_zip.
  rewrite (bind_Ok _ _ _ _ _ H1).
  unfold try_finally, try_except.
  rewrite (bind_Ok _ _ _ _ _ Hc), (bind_Ok _ _ _ _ _ He), (bind_Ok _ _ _ _ _ Hm).
  (* the manifest is not there *)
  rewrite (bind_Ok (os_path_exists _) _ w4 false w4)
    by (unfold os_path_exists, get_world, mbind, ST_bind, mret, ST_ret; now rewrite Hman).
  (* the output directory is removed *)
  set (m5 := filter (fun kv => under output_dir (fst kv) = false) (fs w4)).
  rewrite (bind_Ok (shutil_rmtree output_dir) _ w4 tt (with_fs (fun _ => m5) w4))
    by (unfold shutil_rmtree; now rewrite Hout).
  (* the extracted tree takes its place *)
  assert (m5 !! temp_dir = Some Dir) as Htmp5
    by (unfold m5; now rewrite lookup_filter_under, Hd1).
  assert (m5 !! output_dir = None) as Hout5
    by (unfold m5; now rewrite lookup_filter_under, under_refl).
  assert (check_parent m5 output_dir = Ok tt) as Hpar5.
  { unfold check_parent in *. destruct (String.eqb (posixpath.dirname output_dir) "");
      [reflexivity |]. unfold m5. now rewrite lookup_filter_under, Hpar2. }
  set (m6 := graft output_dir (subtree temp_dir m5) m5).
  assert (shutil_copytree temp_dir output_dir (with_fs (fun _ => m5) w4)
          = (Ok tt, with_fs (fun _ => m6) w4)) as ->.
  { unfold shutil_copytree. cbn [fs with_fs]. now rewrite Htmp5, Hout5, Hpar5. }
  (* the temporary directory and archive are removed *)
  assert (m6 !! temp_dir = Some Dir) as Htmp6
    by (unfold m6; now rewrite (graft_subtree_lookup_outside _ _ _ _ _ Hd1)).
  unfold os_path_exists, get_world, mbind, ST_bind, mret, ST_ret, exists_in.
  cbn [fs with_fs]. rewrite Htmp6.
  unfold shutil_rmtree. cbn [fs with_fs]. rewrite Htmp6.
  set (m7 := filter (fun kv => under temp_dir (fst kv) = false) m6).
  assert (m7 !! temp_zip = Some (File data t)) as Hzip7.
  { unfold m7. rewrite lookup_filter_under.
    unfold temp_dir, temp_zip at 1. rewrite temp_zip_not_under_temp_dir.
    unfold m6. rewrite (graft_subtree_lookup_outside _ _ _ _ _ Hd3).
    unfold m5. now rewrite lookup_filter_under, Hd3. }
  match goal with
  | |- context [fs ?w !! temp_zip] => set (w7 := w)
  end.
  assert (fs w7 = m7) as Hw7 by reflexivity.
  rewrite Hw7, Hzip7. unfold os_remove. rewrite Hw7, Hzip7.
  reflexivity.
Qed.

End Fallback.

(** The branch without manifest, for [_decrypt_directory] as a function
    called on a container that is a regular file.  When it has unpacked its
    input and made the output directory, and the manifest is not among what was unpacked, it
    returns normally and leaves the output directory holding exactly the
    extracted tree: at every path below the output directory there is what
    the extraction put at the same relative path, and nothing else, so what
    the directory held before is gone.  The output path is used as given, no
    other name is tried.  The temporary directory and archive are removed and
    every other entry is as before.  The three paths are assumed not to lie
    in one another. *)
Theorem fallback_replaces_output_directory {C : CryptoLib} {Zp : ZipLib}
    (s : EncryptionWorker.self) (input_path output_dir : string)
    (w w1 w4 : World) (data : bytes) (t : Z) :
  let temp_dir := input_path +:+ "_temp" in
  let temp_zip := input_path +:+ ".zip" in
  os_makedirs temp_dir true w = (Ok tt, w1) ->
  extract_steps input_path output_dir w1 = (Ok tt, w4) ->
  exists_in (fs w4) (posixpath.join temp_dir EncryptionWorker.manifest_name) = false ->
  fs w4 !! output_dir = Some Dir ->
  fs w4 !! temp_dir = Some Dir ->
  fs w4 !! temp_zip = Some (File data t) ->
  check_parent (fs w4) output_dir = Ok tt ->
  under output_dir (posixpath.dirname output_dir) = false ->
  under output_dir temp_dir = false ->
  under temp_dir output_dir = false ->
  under output_dir temp_zip = false ->
  exists w',
    EncryptionWorker._decrypt_directory s input_path output_dir w = (Ok tt, w')
    /\ (forall r, is_rel r = true ->
                  fs w' !! (output_dir +:+ r) = fs w4 !! (temp_dir +:+ r))
    /\ (forall k, under output_dir k = false -> under temp_dir k = false ->
                  k <> temp_zip -> fs w' !! k = fs w4 !! k)
    /\ (forall k, under temp_dir k = true -> fs w' !! k = None)
    /\ fs w' !! temp_zip = None.
Proof.
  intros temp_dir temp_zip H1 H2 Hman Hout Htmp Hzip Hpar Hpar2 Hd1 Hd2 Hd3.
  exists (with_fs (fallback_fs input_path output_dir) w4).
  split; [eapply fallback_run; eassumption |].
  cbn [fs with_fs].
  split; [intros r Hr; now apply fallback_fs_output |].
  split; [intros k Ho Ht Hz; now apply fallback_fs_frame |].
  split; [intros k Ht; now apply fallback_fs_temp |].
  unfold fallback_fs. apply lookup_delete_eq.
Qed.

Lemma fallback_replaces_output_directory_witness :
  let decrypted :=
    EncryptionWorker._decrypt_directory (C := Toy.crypto) (Zp := Toy.zip) codec_self
      "/d/pack.encrypted" "/d/pack" pack_world in
  fst decrypted = Ok tt
  /\ fs (snd decrypted) !! "/d/pack/old.txt" = None
  /\ fs (snd decrypted) !! "/d/pack/x.txt" = Some (File [120]%N 100)
  /\ fs (snd decrypted) !! "/d/pack/sub/y.txt" = Some (File [121]%N 100)
  /\ fs (snd decrypted) !! "/d/pack.encrypted" = fs pack_world !! "/d/pack.encrypted".
Proof.
  intros decrypted.
  pose (w1 := snd (os_makedirs "/d/pack.encrypted_temp" true pack_world)).
  pose (w4 := snd (extract_steps (Zp := Toy.zip) "/d/pack.encrypted" "/d/pack" w1)).
  destruct (fallback_replaces_output_directory (C := Toy.crypto) (Zp := Toy.zip)
              codec_self "/d/pack.encrypted" "/d/pack" pack_world w1 w4
              (zip_pack (ZipLib := Toy.zip)
                 [("x.txt", Some [120]%N); ("sub", None); ("sub/y.txt", Some [121]%N)]) 9%Z
              ltac:(vm_compute; reflexivity) ltac:(vm_compute; reflexivity)
              ltac:(vm_compute; reflexivity) ltac:(vm_compute; reflexivity)
              ltac:(vm_compute; reflexivity) ltac:(vm_compute; reflexivity)
              ltac:(vm_compute; reflexivity) ltac:(vm_compute; reflexivity)
              ltac:(vm_compute; reflexivity) ltac:(vm_compute; reflexivity)
              ltac:(vm_compute; reflexivity))
    as (w' & Hrun & Hout & Hframe & _ & _).
  subst decrypted. rewrite Hrun. cbn [fst snd].
  split; [reflexivity |].
  split; [change "/d/pack/old.txt" with ("/d/pack" +:+ "/old.txt");
          rewrite (Hout "/old.txt" eq_refl); vm_compute; reflexivity |].
  split; [change "/d/pack/x.txt" with ("/d/pack" +:+ "/x.txt");
          rewrite (Hout "/x.txt" eq_refl); vm_compute; reflexivity |].
  split; [change "/d/pack/sub/y.txt" with ("/d/pack" +:+ "/sub/y.txt");
          rewrite (Hout "/sub/y.txt" eq_refl); vm_compute; reflexivity |].
  rewrite (Hframe "/d/pack.encrypted" eq_refl eq_refl ltac:(discriminate)).
  vm_compute; reflexivity.
Defined.

(** ** Entries of the crypto pipeline *)

Section FileEntries.
Context {C : CryptoLib} {Zp : ZipLib}.
Import EncryptionWorker.

Lemma isdir_in_insert_file (m : gmap string node) p d t k :
  isdir_in m p = false -> isdir_in (<[p := File d t]> m) k = isdir_in m k.
Proof.
  intros H. unfold isdir_in in *. destruct (decide (p = k)) as [<- | Hne].
  - rewrite lookup_insert_eq. now rewrite H.
  - now rewrite lookup_insert_ne.
Qed.

Lemma isdir_in_delete_file (m : gmap string node) p k :
  isdir_in m p = false -> isdir_in (delete p m) k = isdir_in m k.
Proof.
  intros H. unfold isdir_in in *. destruct (decide (p = k)) as [<- | Hne].
  - rewrite lookup_delete_eq. now rewrite H.
  - now rewrite lookup_delete_ne.
Qed.

(** X2.  An entry that is a regular file is decrypted as a single file, whatever
    it holds: [_process_file] hands it to [_decrypt_file], so the task
    returns, no directory is made or removed, and the output, when there is
    one, is a regular file at a path that was free.  A container made from a
    directory is such an entry. *)
Theorem file_entry_is_decrypted_as_a_file s file_path w data t :
  String.eqb (operation s) "encrypt" = false ->
  fs w !! file_path = Some (File data t) ->
  exists r w',
    _process_file s file_path w = (Ok r, w')
    /\ (forall k, isdir_in (fs w') k = isdir_in (fs w) k)
    /\ (forall source output, r = Some (source, output) ->
          exists_in (fs w) output = false
          /\ exists decrypted t', fs w' !! output = Some (File decrypted t')).
Proof.
  intros Hop Hin. unfold _process_file, try_except.
  rewrite (bind_Ok (status_updated _) _ w tt _ eq_refl).
  set (w0 := with_status _ w).
  assert (fs w0 !! file_path = Some (File data t)) as Hin0 by exact Hin.
  rewrite (bind_Ok (os_path_isdir file_path) _ w0 false w0)
    by (unfold os_path_isdir, get_world, mbind, ST_bind, mret, ST_ret, isdir_in;
        now rewrite Hin0).
  rewrite !Hop.
  destruct (decrypt_resolves (decrypt_output_path file_path) w0) as (p & Hrun & Hp & _).
  unfold mbind, ST_bind, mret, ST_ret. rewrite Hrun.
  rewrite (_decrypt_file_spec s file_path p w0 data t Hin0).
  assert (isdir_in (fs w0) p = false) as Hpd
    by (unfold exists_in in Hp; unfold isdir_in; destruct (fs w0 !! p); [discriminate | reflexivity]).
  assert (isdir_in (fs w0) file_path = false) as Hfd by (unfold isdir_in; now rewrite Hin0).
  destruct (decrypt_bytes (password s) data) as [decrypted_data | e].
  2: { eexists _, _. split; [reflexivity |]. split; [reflexivity | discriminate]. }
  unfold mbind, ST_bind.
  destruct (open_wb_cases p w0) as [(w1 & -> & Hfs & Hnow) | (e & -> & _)].
  2: { eexists _, _. split; [reflexivity |]. split; [reflexivity | discriminate]. }
  rewrite (write_existing p decrypted_data w1 [] (now w0))
    by (rewrite Hfs; apply lookup_insert_eq).
  set (w2 := with_fs _ w1).
  assert (fs w2 = <[p := File decrypted_data (now w1)]> (fs w0)) as Hfs2.
  { unfold w2. cbn [fs with_fs]. rewrite Hfs. apply insert_insert_eq. }
  assert (forall k, isdir_in (fs w2) k = isdir_in (fs w0) k) as Hd2
    by (intros k; rewrite Hfs2; now apply isdir_in_insert_file).
  destruct (remove_originals s).
  - unfold os_path_isdir, get_world, mbind, ST_bind, mret, ST_ret.
    rewrite Hd2, Hfd.
    assert (fs w2 !! file_path = Some (File data t)) as Hin2.
    { rewrite Hfs2, lookup_insert_ne; [exact Hin0 |].
      intros ->. unfold exists_in in Hp. now rewrite Hin0 in Hp. }
    unfold os_remove. rewrite Hin2.
    eexists _, _. split; [reflexivity |]. split.
    + intros k. cbn [fs with_fs].
      rewrite isdir_in_delete_file by (now rewrite Hd2). apply Hd2.
    + intros source output [= _ <-]. split; [exact Hp |].
      exists decrypted_data, (now w1). cbn [fs with_fs].
      rewrite lookup_delete_ne by (intros ->; unfold exists_in in Hp; now rewrite Hin0 in Hp).
      rewrite Hfs2. apply lookup_insert_eq.
  - eexists _, _. split; [reflexivity |]. split; [exact Hd2 |].
    intros source output [= _ <-]. split; [exact Hp |].
    exists decrypted_data, (now w1). rewrite Hfs2. apply lookup_insert_eq.
Qed.
Lemma str_neq_app_zip (p : string) : String.eqb p (p +:+ ".zip") = false.
Proof. rewrite String.eqb_sym, str_app_eq_l. reflexivity. Qed.

End FileEntries.

Lemma file_entry_is_decrypted_as_a_file_witness :
  exists r w',
    EncryptionWorker._process_file (C := Toy.crypto) (Zp := Toy.zip)
      (decrypting ["/d/docs.encrypted"]) "/d/docs.encrypted"
      (snd (EncryptionWorker._encrypt_directory (C := Toy.crypto) (Zp := Toy.zip)
              codec_self "/d/docs" "/d/docs.encrypted" (tree_world [9; 8]%N [1; 2; 3]%N)))
    = (Ok r, w')
    /\ isdir_in (fs w') "/d/decrypted_1_docs" = false
    /\ isdir_in (fs w') "/d/docs.encrypted" = false.
Proof.
  pose (w := snd (EncryptionWorker._encrypt_directory (C := Toy.crypto) (Zp := Toy.zip)
                    codec_self "/d/docs" "/d/docs.encrypted"
                    (tree_world [9; 8]%N [1; 2; 3]%N))).
  pose (data := match fs w !! "/d/docs.encrypted" with
                | Some (File d _) => d
                | _ => []
                end).
  destruct (file_entry_is_decrypted_as_a_file (C := Toy.crypto) (Zp := Toy.zip)
              (decrypting ["/d/docs.encrypted"]) "/d/docs.encrypted" w data 100%Z
              eq_refl ltac:(vm_compute; reflexivity))
    as (r & w' & Hrun & Hdirs & _).
  exists r, w'. split; [exact Hrun |].
  rewrite !Hdirs. split; vm_compute; reflexivity.
Defined.

(** ** The walk *)

Section Walk.

Lemma longest_path_bound (m : gmap string node) k x :
  m !! k = Some x -> String.length k <= longest_path m.
Proof.
  intros H. unfold longest_path. apply max_list_elem_of_le.
  apply list_elem_of_In, in_map_iff. exists (k, x). split; [reflexivity |].
  apply list_elem_of_In. now apply elem_of_map_to_list.
Qed.

Lemma child_name_Some root k name :
  child_name root k = Some name ->
  k = root +:+ "/" +:+ name /\ name <> "" /\ has_sep name = false.
Proof.
  unfold child_name. destruct (Py.startswith k (root +:+ "/")) eqn:E; [| discriminate].
  apply startswith_inv in E. rewrite str_length_app in E. cbn [String.length] in E.
  replace (String.length root + 1) with (String.length root + 1) in * by lia.
  destruct (String.eqb _ "") eqn:E1; [discriminate |]. cbn [orb].
  destruct (Py.existsb _ _) eqn:E2; [discriminate |].
  intros [= <-]. split; [| split].
  - rewrite <- str_app_assoc. exact E.
  - now apply String.eqb_neq.
  - exact E2.
Qed.

Lemma scandir_names_spec m root want_dir name :
  In name (scandir_names m root want_dir) ->
  name <> "" /\ has_sep name = false
  /\ exists x, m !! (root +:+ "/" +:+ name) = Some x.
Proof.
  unfold scandir_names. intros H. apply list_elem_of_In, list_elem_of_omap in H.
  destruct H as ([k x] & Hk & Hf). cbn [fst snd] in Hf.
  destruct (child_name root k) as [n|] eqn:E; [| now destruct x].
  apply child_name_Some in E as (-> & Hne & Hs).
  assert (n = name) as -> by (destruct x, want_dir; congruence).
  split; [exact Hne |]. split; [exact Hs |]. exists x. now apply elem_of_map_to_list.
Qed.

(** Once the fuel exceeds what the longest path leaves below [top], more
    fuel gives the same walk. *)
Lemma os_walk_loop_enough m n : forall top extra,
  longest_path m <= String.length top + n ->
  os_walk_loop m (S (n + extra)) top = os_walk_loop m (S n) top.
Proof.
  induction n as [|n IH]; intros top extra Hlen.
  - assert (scandir_names m top true = []) as Hd.
    { destruct (scandir_names m top true) as [|name l] eqn:E; [reflexivity | exfalso].
      destruct (scandir_names_spec m top true name) as (_ & _ & x & Hx);
        [rewrite E; now left |].
      apply longest_path_bound in Hx. rewrite !str_length_app in Hx.
      cbn [String.length] in Hx. lia. }
    cbn [os_walk_loop Nat.add]. now rewrite Hd.
  - change (S n + extra) with (S (n + extra)).
    cbn [os_walk_loop]. f_equal. f_equal. apply map_ext_in. intros name Hin.
    apply scandir_names_spec in Hin as (Hne & Hs & _).
    change (os_walk_loop m (S (n + extra)) (posixpath.join top name)
            = os_walk_loop m (S n) (posixpath.join top name)).
    apply IH. rewrite join_length by exact Hs.
    destruct name; [congruence |]. cbn [String.length]. lia.
Qed.

End Walk.

(** ** The event protocol of the workers *)

Section Protocol.

Lemma omap_app_list {A B} (f : A -> option B) (l1 l2 : list A) :
  omap f (l1 ++ l2) = omap f l1 ++ omap f l2.
Proof.
  induction l1 as [|x l1 IH]; [reflexivity |]. cbn. destruct (f x); cbn; now rewrite IH.
Qed.

Lemma counting_up_S first k total :
  counting_up first (S k) total = (first + 1, total) :: counting_up (first + 1) k total.
Proof.
  unfold counting_up. cbn [seq List.map]. f_equal.
  rewrite <- seq_shift, List.map_map. apply map_ext. intros i. f_equal. lia.
Qed.

Lemma counting_up_app first k j total :
  counting_up first (k + j) total
  = counting_up first k total ++ counting_up (first + k) j total.
Proof.
  revert first. induction k as [|k IH]; intros first.
  - cbn. now rewrite Nat.add_0_r.
  - cbn [Nat.add]. rewrite !counting_up_S, IH. cbn. do 3 f_equal. lia.
Qed.

Lemma is_cancelled_any d :
  (is_cancelled d = (Ok false, with_flag_reads (S (flag_reads d)) d))
  \/ (is_cancelled d = (Ok true, with_flag_reads (S (flag_reads d)) d)
      /\ cancelled_now d).
Proof.
  unfold is_cancelled, cancelled_now. destruct (cancel_at d) as [a|].
  - destruct (a <=? flag_reads d) eqn:E; [right | left]; [| reflexivity].
    split; [reflexivity |]. now apply Nat.leb_le.
  - now left.
Qed.

Lemma cancelled_now_later d d' :
  cancel_at d' = cancel_at d -> flag_reads d <= flag_reads d' ->
  cancelled_now d -> cancelled_now d'.
Proof. unfold cancelled_now. intros -> Hle. destruct (cancel_at d); [lia | trivial]. Qed.

End Protocol.

Section EncryptionProtocol.
Context {C : CryptoLib} {Zp : ZipLib}.
Import EncryptionWorker EncryptionWorkerSpec.

Lemma encryption_process_file_source s file_path w source output w' :
  _process_file s file_path w = (Ok (Some (source, output)), w') -> source = file_path.
Proof.
  unfold _process_file, try_except.
  match goal with |- context [match ?body w with _ => _ end] =>
    destruct (body w) as [[r|e] w0] eqn:Eb end.
  - intros [= -> _].
    apply bind_Ok_inv in Eb as (? & ? & _ & Eb).
    apply bind_Ok_inv in Eb as (? & ? & _ & Eb).
    apply bind_Ok_inv in Eb as (? & ? & _ & Eb).
    apply bind_Ok_inv in Eb as (? & ? & _ & Eb).
    now injection Eb as <- _.
  - unfold mbind, ST_bind, status_updated, mret, ST_ret. discriminate.
Qed.

(** The first loop for any state of the flag: the tasks of the first [m]
    entries ran, the loop stopped there only if the flag was seen. *)
Lemma encryption_run_submit_any s files : forall futures d,
  exists m d',
    run_submit s files futures d
    = (Ok (futures ++ fst (tasks_run s (take m files) (world d))), d')
    /\ m <= length files
    /\ world d' = snd (tasks_run s (take m files) (world d))
    /\ cancel_at d' = cancel_at d
    /\ flag_reads d <= flag_reads d'
    /\ signals d' = signals d
    /\ (m < length files -> cancelled_now d').
Proof.
  induction files as [|p rest IH]; intros futures d.
  - exists 0, d. cbn. rewrite app_nil_r. repeat split; try reflexivity; lia.
  - cbn [run_submit]. destruct (is_cancelled_any d) as [E | [E Hc]];
      rewrite (bind_Ok _ _ _ _ _ E).
    + rewrite (bind_Ok _ _ _ _ _ (executor_submit_eq _ _)).
      match goal with |- context [run_submit s rest ?fu ?d1] =>
        destruct (IH fu d1) as (m & d' & Er & Hm & Hw & Ha & Hr & Hs & Hn) end.
      exists (S m), d'. rewrite Er. cbn [take tasks_run fst snd length].
      cbn [world with_world with_flag_reads cancel_at flag_reads signals] in *.
      rewrite <- app_assoc. cbn [app].
      repeat split; try assumption; try lia. intros H. apply Hn. lia.
    + exists 0, (with_flag_reads (S (flag_reads d)) d). cbn. rewrite app_nil_r.
      repeat split; try reflexivity; try lia.
      intros _. unfold cancelled_now in *. cbn. destruct (cancel_at d); [lia | trivial].
Qed.

(** The second loop for any state of the flag: the first [k] futures were
    reported. *)
Lemma encryption_run_results_any futures : forall processed total_files d,
  exists k d',
    run_results futures processed total_files d = (Ok (processed + k), d')
    /\ k <= length futures
    /\ world d' = world d
    /\ cancel_at d' = cancel_at d
    /\ flag_reads d <= flag_reads d'
    /\ signals d'
       = signals d ++ results_signals outcome_signal (take k futures) processed total_files
    /\ (k < length futures -> cancelled_now d').
Proof.
  induction futures as [|f rest IH]; intros processed total d.
  - exists 0, d. cbn. rewrite app_nil_r, Nat.add_0_r.
    repeat split; try reflexivity; lia.
  - cbn [run_results]. destruct (is_cancelled_any d) as [E | [E Hc]];
      rewrite (bind_Ok _ _ _ _ _ E).
    + destruct (encryption_result_step f processed total
                  (with_flag_reads (S (flag_reads d)) d)) as (sg & Es & Hsg).
      rewrite (bind_Ok _ _ _ _ _ Es).
      rewrite (bind_Ok (emit _) _ _ tt _ eq_refl).
      match goal with |- context [run_results rest _ _ ?d1] =>
        destruct (IH (processed + 1) total d1) as (k & d' & Er & Hk & Hw & Ha & Hr & Hs & Hn)
      end.
      exists (S k), d'. rewrite Er.
      cbn [world with_signal with_flag_reads cancel_at flag_reads signals length take
           results_signals] in *.
      rewrite Hs, Hsg, <- !app_assoc.
      repeat split; try assumption; try lia.
      * do 2 f_equal. lia.
      * intros H. apply Hn. lia.
    + exists 0, (with_flag_reads (S (flag_reads d)) d). cbn.
      rewrite app_nil_r, Nat.add_0_r.
      repeat split; try reflexivity; try lia.
      intros _. unfold cancelled_now in *. cbn. destruct (cancel_at d); [lia | trivial].
Qed.

Lemma encryption_results_progress futures : forall processed total,
  progress_counts (results_signals outcome_signal futures processed total)
  = counting_up processed (length futures) total
  /\ completions (results_signals outcome_signal futures processed total) = [].
Proof.
  induction futures as [|f rest IH]; intros processed total; [split; reflexivity |].
  cbn [results_signals length]. unfold progress_counts, completions in *.
  rewrite !omap_app_list, counting_up_S.
  destruct (IH (processed + 1) total) as [-> ->].
  destruct f as [[[source dest]|]|e]; split; reflexivity.
Qed.

Lemma encryption_results_sources s files : forall w k processed total,
  processed_sources
    (results_signals outcome_signal (take k (fst (tasks_run s files w))) processed total)
  `sublist_of` files.
Proof.
  induction files as [|p rest IH]; intros w k processed total.
  - cbn. now rewrite take_nil.
  - destruct k as [|k]; [cbn; apply sublist_nil_l |].
    cbn [tasks_run fst take results_signals]. unfold processed_sources in *.
    rewrite omap_app_list.
    destruct (_process_file s p w) as [[[[source dest]|]|e] w1] eqn:E; cbn [fst snd].
    + apply encryption_process_file_source in E as ->. cbn.
      apply sublist_skip, IH.
    + cbn. apply sublist_cons, IH.
    + cbn. apply sublist_cons, IH.
Qed.

End EncryptionProtocol.

(** X4.  Whatever the batch, the disk and the moment of a cancellation,
    [EncryptionWorker.run] returns normally and emits exactly one completion
    signal, as its last signal.  Before it, the progress signals count
    [1, 2, ..., k] of [n] with [k <= n], and the sources named by the outcome
    signals form a subsequence of the batch.  A
    completion with [success = True] comes only after the count reached [n]
    and says [Successfully <operation>ed n of n files/folders]; any other
    completion is [Operation cancelled]: the [Error: ...] completion is never
    emitted. *)
Theorem encryption_run_event_protocol {C : CryptoLib} {Zp : ZipLib}
    (s : EncryptionWorker.self) (d : Dispatcher) :
  let n := length (EncryptionWorker.files s) in
  exists d' reports k success message,
    EncryptionWorker.run s d = (Ok tt, d')
    /\ signals d' = signals d ++ reports ++ [operation_completed success message]
    /\ completions reports = []
    /\ progress_counts reports = counting_up 0 k n
    /\ k <= n
    /\ processed_sources reports `sublist_of` EncryptionWorker.files s
    /\ (success = true ->
        k = n
        /\ message = "Successfully " +:+ EncryptionWorker.operation s +:+ "ed "
                     +:+ Py.str n +:+ " of " +:+ Py.str n +:+ " files/folders")
    /\ (success = false -> message = "Operation cancelled").
Proof.
  intros n. unfold EncryptionWorker.run, try_except.
  destruct (encryption_run_submit_any s (EncryptionWorker.files s) [] d)
    as (m & d1 & E1 & Hm & Hw1 & Ha1 & Hr1 & Hs1 & Hn1).
  rewrite (bind_Ok _ _ _ _ _ E1). cbn [app].
  set (fu := fst (EncryptionWorkerSpec.tasks_run s (take m (EncryptionWorker.files s))
                    (world d))) in *.
  destruct (encryption_run_results_any fu 0 n d1)
    as (k & d2 & E2 & Hk & Hw2 & Ha2 & Hr2 & Hs2 & Hn2).
  fold n. rewrite (bind_Ok _ _ _ _ _ E2).
  assert (length fu = m) as Hfu
    by (unfold fu; rewrite tasks_run_length, length_take; lia).
  set (reports := results_signals EncryptionWorkerSpec.outcome_signal (take k fu) 0 n) in *.
  assert (completions reports = [] /\ progress_counts reports = counting_up 0 k n)
    as [Hc Hp].
  { destruct (encryption_results_progress (take k fu) 0 n) as [H1 H2].
    rewrite length_take in H1. replace (k `min` length fu) with k in H1 by lia.
    split; assumption. }
  assert (processed_sources reports `sublist_of` EncryptionWorker.files s) as Hsrc.
  { unfold reports, fu.
    etransitivity; [apply encryption_results_sources | apply sublist_take]. }
  destruct (is_cancelled_any d2) as [E | [E Hc2]]; rewrite (bind_Ok _ _ _ _ _ E).
  - (* the flag was never seen: every entry was processed *)
    assert (~ cancelled_now d2) as Hq.
    { unfold is_cancelled in E. unfold cancelled_now.
      destruct (cancel_at d2) as [a|]; [| tauto].
      injection E as E. apply Nat.leb_gt in E. lia. }
    assert (k = m) as -> by (destruct (Nat.lt_ge_cases k (length fu)); [tauto | lia]).
    assert (m = n) as ->.
    { destruct (Nat.lt_ge_cases m n) as [H|H]; [| unfold n in *; lia].
      exfalso. apply Hq. apply (cancelled_now_later d1); [exact Ha2 | exact Hr2 |].
      apply Hn1. exact H. }
    eexists _, reports, n, true, _. split; [reflexivity |].
    cbn [signals with_signal with_flag_reads]. rewrite Hs2, Hs1, <- app_assoc.
    repeat split; try assumption; try reflexivity; try lia; try discriminate.
  - eexists _, reports, k, false, _. split; [reflexivity |].
    cbn [signals with_signal with_flag_reads]. rewrite Hs2, Hs1, <- app_assoc.
    repeat split; try assumption; try reflexivity; try lia; try discriminate.
Qed.

Section OrganizerProtocol.
Context {T : TimeLib}.
Import FileOrganizerWorker FileOrganizerWorkerSpec.

Lemma organizer_process_file_source s file_path tf df w source dest w' :
  _process_file s file_path tf df w = (Ok (Some (source, dest)), w') -> source = file_path.
Proof.
  unfold _process_file, try_except.
  match goal with |- context [match ?body w with _ => _ end] =>
    destruct (body w) as [[r|e] w0] eqn:Eb end.
  - intros [= -> _].
    apply bind_Ok_inv in Eb as (? & ? & _ & Eb).
    apply bind_Ok_inv in Eb as (? & ? & _ & Eb).
    apply bind_Ok_inv in Eb as (? & ? & _ & Eb).
    now injection Eb as <- _.
  - unfold mbind, ST_bind, status_updated, mret, ST_ret. discriminate.
Qed.

Lemma organizer_run_submit_any s tf df total files : forall processed fu d,
  exists m d',
    let r := submit_all s tf df total (take m files) processed (world d) in
    run_submit s tf df total files processed fu d = (Ok (count r, fu ++ futures r), d')
    /\ m <= length files
    /\ world d' = after r
    /\ cancel_at d' = cancel_at d
    /\ flag_reads d <= flag_reads d'
    /\ signals d' = signals d ++ progress r
    /\ (m < length files -> cancelled_now d').
Proof.
  induction files as [|p rest IH]; intros processed fu d.
  - exists 0, d. cbn. rewrite !app_nil_r. repeat split; try reflexivity; lia.
  - cbn [run_submit]. destruct (is_cancelled_any d) as [E | [E Hc]];
      rewrite (bind_Ok _ _ _ _ _ E).
    + rewrite (bind_Ok _ (fun isdir : bool => if isdir then _ else _) _ _ _
                 (in_world_isdir p _)).
      cbn [world with_flag_reads].
      destruct (isdir_in (fs (world d)) p) eqn:Ed.
      * rewrite (bind_Ok (emit _) _ _ tt _ eq_refl).
        match goal with |- context [run_submit s tf df total rest ?pr ?fu1 ?d1] =>
          destruct (IH pr fu1 d1) as (m & d' & Er & Hm & Hw & Ha & Hr & Hs & Hn) end.
        exists (S m), d'. cbn zeta in *. rewrite Er.
        cbn [take submit_all length]. rewrite Ed.
        cbn [count futures progress after world with_signal with_flag_reads
             cancel_at flag_reads signals] in *.
        rewrite Hs, <- app_assoc.
        repeat split; try assumption; try reflexivity; try lia. intros H. apply Hn. lia.
      * rewrite (bind_Ok _ _ _ _ _ (executor_submit_eq _ _)).
        match goal with |- context [run_submit s tf df total rest ?pr ?fu1 ?d1] =>
          destruct (IH pr fu1 d1) as (m & d' & Er & Hm & Hw & Ha & Hr & Hs & Hn) end.
        exists (S m), d'. cbn zeta in *. rewrite Er.
        cbn [take submit_all length]. rewrite Ed.
        cbn [count futures progress after world with_world with_flag_reads
             cancel_at flag_reads signals] in *.
        rewrite <- app_assoc.
        repeat split; try assumption; try reflexivity; try lia. intros H. apply Hn. lia.
    + exists 0, (with_flag_reads (S (flag_reads d)) d). cbn. rewrite !app_nil_r.
      repeat split; try reflexivity; try lia.
      intros _. unfold cancelled_now in *. cbn. destruct (cancel_at d); [lia | trivial].
Qed.

Lemma organizer_run_results_any futures : forall processed total_files d,
  exists k d',
    run_results futures processed total_files d = (Ok (processed + k), d')
    /\ k <= length futures
    /\ world d' = world d
    /\ cancel_at d' = cancel_at d
    /\ flag_reads d <= flag_reads d'
    /\ signals d'
       = signals d ++ results_signals outcome_signal (take k futures) processed total_files
    /\ (k < length futures -> cancelled_now d').
Proof.
  induction futures as [|f rest IH]; intros processed total d.
  - exists 0, d. cbn. rewrite app_nil_r, Nat.add_0_r.
    repeat split; try reflexivity; lia.
  - cbn [run_results]. destruct (is_cancelled_any d) as [E | [E Hc]];
      rewrite (bind_Ok _ _ _ _ _ E).
    + destruct (organizer_result_step f processed total
                  (with_flag_reads (S (flag_reads d)) d)) as (sg & Es & Hsg).
      rewrite (bind_Ok _ _ _ _ _ Es).
      rewrite (bind_Ok (emit _) _ _ tt _ eq_refl).
      match goal with |- context [run_results rest _ _ ?d1] =>
        destruct (IH (processed + 1) total d1) as (k & d' & Er & Hk & Hw & Ha & Hr & Hs & Hn)
      end.
      exists (S k), d'. rewrite Er.
      cbn [world with_signal with_flag_reads cancel_at flag_reads signals length take
           results_signals] in *.
      rewrite Hs, Hsg, <- !app_assoc.
      repeat split; try assumption; try lia.
      * do 2 f_equal. lia.
      * intros H. apply Hn. lia.
    + exists 0, (with_flag_reads (S (flag_reads d)) d). cbn.
      rewrite app_nil_r, Nat.add_0_r.
      repeat split; try reflexivity; try lia.
      intros _. unfold cancelled_now in *. cbn. destruct (cancel_at d); [lia | trivial].
Qed.

Lemma organizer_results_progress futures : forall processed total,
  progress_counts (results_signals outcome_signal futures processed total)
  = counting_up processed (length futures) total
  /\ completions (results_signals outcome_signal futures processed total) = [].
Proof.
  induction futures as [|f rest IH]; intros processed total; [split; reflexivity |].
  cbn [results_signals length]. unfold progress_counts, completions in *.
  rewrite !omap_app_list, counting_up_S.
  destruct (IH (processed + 1) total) as [-> ->].
  destruct f as [[[source [dest|]]|]|e]; split; reflexivity.
Qed.

Lemma submit_all_progress s tf df total files : forall processed w,
  let r := submit_all s tf df total files processed w in
  exists j, count r = processed + j
            /\ j + length (futures r) = length files
            /\ progress_counts (progress r) = counting_up processed j total
            /\ completions (progress r) = []
            /\ processed_sources (progress r) = [].
Proof.
  induction files as [|p rest IH]; intros processed w; cbn [submit_all].
  - exists 0. cbn. repeat split; try reflexivity; lia.
  - destruct (isdir_in (fs w) p); cbn [count futures progress length].
    + destruct (IH (processed + 1) w) as (j & H1 & H2 & H3 & H4 & H5).
      exists (S j). rewrite counting_up_S. cbn zeta in *.
      change (progress_counts (progress_updated (processed + 1) total :: ?l))
        with ((processed + 1, total) :: progress_counts l).
      change (completions (progress_updated (processed + 1) total :: ?l))
        with (completions l).
      change (processed_sources (progress_updated (processed + 1) total :: ?l))
        with (processed_sources l).
      rewrite H3, H4, H5. repeat split; try reflexivity; lia.
    + match goal with |- context [submit_all _ _ _ _ _ _ ?w'] =>
        destruct (IH processed w') as (j & H1 & H2 & H3 & H4 & H5) end.
      exists j. cbn zeta in *. repeat split; try assumption; lia.
Qed.

Lemma organizer_results_sources s tf df total files : forall processed w k processed' total',
  processed_sources
    (results_signals outcome_signal
       (take k (futures (submit_all s tf df total files processed w))) processed' total')
  `sublist_of` files.
Proof.
  induction files as [|p rest IH]; intros processed w k processed' total'.
  - cbn. now rewrite take_nil.
  - cbn [submit_all]. destruct (isdir_in (fs w) p); cbn [futures].
    + apply sublist_cons, IH.
    + destruct k as [|k]; [cbn; apply sublist_nil_l |].
      cbn [take results_signals]. unfold processed_sources in *.
      rewrite omap_app_list.
      match goal with |- context [_process_file s p ?a ?b w] =>
        destruct (_process_file s p a b w) as [[[[source [dest|]]|]|e] w1] eqn:E
      end; cbn [fst snd].
      * apply organizer_process_file_source in E as ->. cbn.
        apply sublist_skip, IH.
      * cbn. apply sublist_cons, IH.
      * cbn. apply sublist_cons, IH.
      * cbn. apply sublist_cons, IH.
Qed.

End OrganizerProtocol.

(** X5.  Whatever the batch, the disk and the moment of a cancellation,
    [FileOrganizerWorker.run] returns normally and emits exactly one
    completion signal, as its last signal.  Before it, the progress signals
    count [1, 2, ..., k] of [n] with [k <= n] (skipped directories and
    reported tasks alike), and the sources named by the outcome signals
    form a subsequence of the batch.  A completion with
    [success = True] comes only after the count reached [n] and says
    [Successfully processed n of n files]; a completion with
    [success = False] is [Operation cancelled], or [Error: ...] when the
    folders of the organisation could not be made, and then nothing was
    reported before it. *)
Theorem organizer_run_event_protocol {T : TimeLib}
    (s : FileOrganizerWorker.self) (d : Dispatcher) :
  let n := length (FileOrganizerWorker.files s) in
  exists d' reports k success message,
    FileOrganizerWorker.run s d = (Ok tt, d')
    /\ signals d' = signals d ++ reports ++ [operation_completed success message]
    /\ completions reports = []
    /\ progress_counts reports = counting_up 0 k n
    /\ k <= n
    /\ processed_sources reports `sublist_of` FileOrganizerWorker.files s
    /\ (success = true ->
        k = n
        /\ message = "Successfully processed " +:+ Py.str n +:+ " of " +:+ Py.str n
                     +:+ " files")
    /\ (success = false ->
        message = "Operation cancelled"
        \/ (reports = [] /\ exists e, message = "Error: " +:+ exn_str e)).
Proof.
  intros n. rewrite organizer_run_folders.
  destruct (FileOrganizerWorkerSpec.create_folders s (world d)) as [[[tf df]|e] w1].
  2: { eexists _, [], 0, false, _. split; [reflexivity |].
       repeat split; try reflexivity; try lia; try discriminate.
       - apply sublist_nil_l.
       - intros _. right. split; [reflexivity |]. now exists e. }
  unfold try_except. fold n.
  set (d0 := with_world w1 d).
  destruct (organizer_run_submit_any s tf df n (FileOrganizerWorker.files s) 0 [] d0)
    as (m & d1 & E1 & Hm & Hw1 & Ha1 & Hr1 & Hs1 & Hn1).
  cbn zeta in *.
  set (r := FileOrganizerWorkerSpec.submit_all s tf df n
              (take m (FileOrganizerWorker.files s)) 0 (world d0)) in *.
  rewrite (bind_Ok _ _ _ _ _ E1). cbn [app fst snd].
  destruct (organizer_run_results_any (FileOrganizerWorkerSpec.futures r)
              (FileOrganizerWorkerSpec.count r) n d1)
    as (k & d2 & E2 & Hk & Hw2 & Ha2 & Hr2 & Hs2 & Hn2).
  rewrite (bind_Ok _ _ _ _ _ E2).
  destruct (submit_all_progress s tf df n (take m (FileOrganizerWorker.files s)) 0
              (world d0)) as (j & Hj & Hlen & Hp1 & Hc1 & Hsrc1).
  cbn zeta in *. fold r in Hj, Hlen, Hp1, Hc1, Hsrc1.
  rewrite length_take in Hlen. cbn [Nat.add] in Hj.
  set (reports := FileOrganizerWorkerSpec.progress r
                  ++ results_signals FileOrganizerWorkerSpec.outcome_signal
                       (take k (FileOrganizerWorkerSpec.futures r))
                       (FileOrganizerWorkerSpec.count r) n).
  assert (completions reports = []
          /\ progress_counts reports = counting_up 0 (j + k) n) as [Hc Hp].
  { destruct (organizer_results_progress (take k (FileOrganizerWorkerSpec.futures r))
                (FileOrganizerWorkerSpec.count r) n) as [H1 H2].
    rewrite length_take in H1.
    replace (k `min` length (FileOrganizerWorkerSpec.futures r)) with k in H1 by lia.
    unfold reports, completions, progress_counts in *. rewrite !omap_app_list.
    rewrite Hc1, H2, Hp1, H1, counting_up_app, Hj. split; reflexivity. }
  assert (processed_sources reports `sublist_of` FileOrganizerWorker.files s) as Hsrc.
  { unfold reports, processed_sources in *. rewrite omap_app_list, Hsrc1. cbn [app].
    unfold r. etransitivity; [apply organizer_results_sources | apply sublist_take]. }
  assert (signals d2 = signals d ++ reports) as Hsig.
  { rewrite Hs2, Hs1. unfold reports. now rewrite <- app_assoc. }
  destruct (is_cancelled_any d2) as [E | [E Hc2]]; rewrite (bind_Ok _ _ _ _ _ E).
  - assert (~ cancelled_now d2) as Hq.
    { unfold is_cancelled in E. unfold cancelled_now.
      destruct (cancel_at d2) as [a|]; [| tauto].
      injection E as E. apply Nat.leb_gt in E. lia. }
    assert (k = length (FileOrganizerWorkerSpec.futures r)) as Hk'
      by (destruct (Nat.lt_ge_cases k (length (FileOrganizerWorkerSpec.futures r)));
          [tauto | lia]).
    assert (m = n) as Hmn.
    { destruct (Nat.lt_ge_cases m n) as [H|H]; [| unfold n in *; lia].
      exfalso. apply Hq. apply (cancelled_now_later d1); [exact Ha2 | exact Hr2 |].
      apply Hn1. exact H. }
    assert (j + k = n) as Hjk by (unfold n in *; lia).
    eexists _, reports, (j + k), true, _. split; [reflexivity |].
    cbn [signals with_signal with_flag_reads]. rewrite Hsig, <- app_assoc.
    repeat split; try assumption; try reflexivity; try lia; try discriminate.
    rewrite Hj. cbn [Nat.add]. now rewrite Hjk.
  - eexists _, reports, (j + k), false, _. split; [reflexivity |].
    cbn [signals with_signal with_flag_reads]. rewrite Hsig, <- app_assoc.
    repeat split; try assumption; try reflexivity; try discriminate.
    + unfold n in *. lia.
    + intros _. now left.
Qed.

(** ** Outcomes of the codec calls and of a crypto task *)

Section CodecOutcomes.
Context {C : CryptoLib}.
Import EncryptionWorker.

Lemma open_wb_Ok_writable p w w' :
  open_wb p w = (Ok p, w') -> writable (fs w) p.
Proof.
  unfold open_wb, writable.
  destruct (fs w !! p) as [[|]|] eqn:E; try discriminate;
    destruct (check_parent (fs w) p) as [[]|e]; try discriminate;
    intros _; split; congruence.
Qed.

Lemma open_rb_cases p w :
  (exists data t, fs w !! p = Some (File data t) /\ open_rb p w = (Ok data, w))
  \/ (fs w !! p = Some Dir /\ open_rb p w = (Raise (IsADirectoryError p), w))
  \/ (fs w !! p = None /\ open_rb p w = (Raise (FileNotFoundError p), w)).
Proof.
  unfold open_rb. destruct (fs w !! p) as [[data t|]|]; eauto 10.
Qed.


Lemma _encrypt_file_cases s input_path output_path w :
  (exists content t,
     fs w !! input_path = Some (File content t) /\ writable (fs w) output_path
     /\ _encrypt_file s input_path output_path w
        = (Ok tt,
           with_fs (insert output_path
                      (File (container_of (password s)
                               (random_window w (drawn w) 16)
                               (random_window w (drawn w + 16) 16) content)
                            (now w)))
             (with_drawn (drawn w + 16 + 16) w)))
  \/ (exists e w',
        _encrypt_file s input_path output_path w = (Raise e, w')
        /\ fs w' = fs w /\ drawn w' = drawn w + 32 /\ statuses w' = statuses w
        /\ is_OSError e = true
        /\ ((forall content t, fs w !! input_path <> Some (File content t))
            \/ ~ writable (fs w) output_path)).
Proof.
  destruct (open_rb_cases input_path w)
    as [(content & t & Hin & _) | Hno].
  - destruct (open_wb_cases output_path w) as [(w2 & E & _) | (e1 & E & He)].
    + left. exists content, t. pose proof (open_wb_Ok_writable _ _ _ E) as Hout.
      split; [exact Hin |]. split; [exact Hout |].
      exact (_encrypt_file_spec s input_path output_path w content t Hin Hout).
    + right. unfold _encrypt_file.
      rewrite (bind_Ok (get_random_bytes 16) _ w _ _ eq_refl).
      set (salt := List.map (random w) (seq (drawn w) 16)).
      set (w1 := with_drawn (drawn w + 16) w).
      rewrite (bind_Ok (derive_key_from_password _ (Some salt)) _ w1 _ _ eq_refl).
      cbn [fst].
      rewrite (bind_Ok (get_random_bytes 16) _ w1 _ _ eq_refl).
      set (iv := List.map (random w1) (seq (drawn w1) 16)).
      set (w0 := with_drawn (drawn w1 + 16) w1).
      assert (length iv = 16) as Hiv by (unfold iv; now rewrite length_map, length_seq).
      rewrite (bind_Ok (lift (AES_new _ iv)) _ w0 (mkCipher _ iv) w0)
        by (unfold lift, AES_new; now rewrite Hiv).
      rewrite (bind_Ok (open_rb input_path) _ w0 content w0)
        by (unfold open_rb; cbn [fs w0 w1 with_drawn]; now rewrite Hin).
      assert (open_wb output_path w0 = (Raise e1, w0)) as E0.
      { unfold open_wb in *. cbn [fs w0 w1 with_drawn now] in *.
        destruct (fs w !! output_path) as [[|]|];
          destruct (check_parent (fs w) output_path); congruence. }
      rewrite (bind_Raise _ _ _ _ _ E0).
      exists e1, w0. split; [reflexivity |].
      repeat split; try assumption; try reflexivity; [unfold w0, w1; cbn; lia |].
      right. intros Hout. rewrite (open_wb_writable _ _ Hout) in E. discriminate.
  - right. unfold _encrypt_file.
    rewrite (bind_Ok (get_random_bytes 16) _ w _ _ eq_refl).
    set (salt := List.map (random w) (seq (drawn w) 16)).
    set (w1 := with_drawn (drawn w + 16) w).
    rewrite (bind_Ok (derive_key_from_password _ (Some salt)) _ w1 _ _ eq_refl).
    cbn [fst].
    rewrite (bind_Ok (get_random_bytes 16) _ w1 _ _ eq_refl).
    set (iv := List.map (random w1) (seq (drawn w1) 16)).
    set (w0 := with_drawn (drawn w1 + 16) w1).
    assert (length iv = 16) as Hiv by (unfold iv; now rewrite length_map, length_seq).
    rewrite (bind_Ok (lift (AES_new _ iv)) _ w0 (mkCipher _ iv) w0)
      by (unfold lift, AES_new; now rewrite Hiv).
    assert (exists e, open_rb input_path w0 = (Raise e, w0) /\ is_OSError e = true
                      /\ forall content t, fs w !! input_path <> Some (File content t))
      as (e & Er & He & Hnf).
    { unfold open_rb. cbn [fs w0 w1 with_drawn].
      destruct Hno as [[Hin _] | [Hin _]]; rewrite Hin; eexists;
        (split; [reflexivity | split; [reflexivity | discriminate]]). }
    rewrite (bind_Raise _ _ _ _ _ Er).
    exists e, w0. split; [reflexivity |].
    repeat split; try assumption; try reflexivity; [unfold w0, w1; cbn; lia |].
    now left.
Qed.

End CodecOutcomes.


(** X7.  What [_decrypt_file] says of an input that cannot be a container.  A
    file shorter than the 32 bytes of salt and IV raises the cipher's own
    [ValueError], [Incorrect IV length (it must be 16 bytes long)], which is
    raised before the [try] and so is not turned into the invalid-padding
    message; a file of exactly 32 bytes, or one whose length past the 32 bytes
    is not a multiple of 16, raises [Invalid padding or incorrect password].
    In each case nothing is written. *)
Theorem decrypt_file_rejects_by_length {C : CryptoLib}
    (s : EncryptionWorker.self) (input_path output_path : string) (w : World)
    (data : bytes) (t : Z) :
  fs w !! input_path = Some (File data t) ->
  (length data < 32 ->
   EncryptionWorker._decrypt_file s input_path output_path w
   = (Raise (ValueError "Incorrect IV length (it must be 16 bytes long)"), w))
  /\ (length data = 32 ->
      EncryptionWorker._decrypt_file s input_path output_path w = (Raise invalid_padding, w))
  /\ (32 <= length data -> (length data - 32) mod 16 <> 0 ->
      EncryptionWorker._decrypt_file s input_path output_path w = (Raise invalid_padding, w)).
Proof.
  intros Hin. rewrite (_decrypt_file_spec s input_path output_path w data t Hin).
  unfold decrypt_bytes. rewrite length_take, !length_drop.
  split; [| split].
  - intros Hlt. replace (16 `min` (length data - 16) =? 16) with false
      by (symmetry; apply Nat.eqb_neq; lia). reflexivity.
  - intros Hlen. replace (16 `min` (length data - 16) =? 16) with true
      by (symmetry; apply Nat.eqb_eq; lia).
    replace (length data - 16 - 16) with 0 by lia. cbn [Nat.modulo Nat.eqb].
    assert (drop 16 (drop 16 data) = []) as ->
      by (apply length_zero_iff_nil; rewrite !length_drop; lia).
    simp cbc_decrypt. reflexivity.
  - intros Hge Hmod. replace (16 `min` (length data - 16) =? 16) with true
      by (symmetry; apply Nat.eqb_eq; lia).
    replace (length data - 16 - 16) with (length data - 32) by lia.
    replace ((length data - 32) mod 16 =? 0) with false
      by (symmetry; now apply Nat.eqb_neq).
    reflexivity.
Qed.

Lemma decrypt_file_rejects_by_length_witness :
  EncryptionWorker._decrypt_file (C := Toy.crypto) codec_self
    "/d/hello.txt" "/d/hello.out" codec_world
  = (Raise (ValueError "Incorrect IV length (it must be 16 bytes long)"), codec_world).
Proof.
  exact (proj1 (decrypt_file_rejects_by_length (C := Toy.crypto) codec_self
                  "/d/hello.txt" "/d/hello.out" codec_world
                  [104; 101; 108; 108; 111]%N 7 eq_refl)
               ltac:(cbn; lia)).
Defined.

(** X8.  [_encrypt_file] fails only on its files: it raises exactly when the
    input is not a regular file or the output cannot be opened for writing,
    and then the disk is as before, while the 32 random bytes of salt and IV
    have already been drawn. *)
Theorem encrypt_file_fails_only_on_open {C : CryptoLib}
    (s : EncryptionWorker.self) (input_path output_path : string) (w : World) :
  ((exists content t, fs w !! input_path = Some (File content t))
   /\ writable (fs w) output_path ->
   fst (EncryptionWorker._encrypt_file s input_path output_path w) = Ok tt)
  /\ (forall e w', EncryptionWorker._encrypt_file s input_path output_path w = (Raise e, w') ->
        fs w' = fs w /\ drawn w' = drawn w + 32
        /\ is_OSError e = true
        /\ ((forall content t, fs w !! input_path <> Some (File content t))
            \/ ~ writable (fs w) output_path)).
Proof.
  split.
  - intros [(content & t & Hin) Hout].
    now rewrite (_encrypt_file_spec s input_path output_path w content t Hin Hout).
  - intros e w' H.
    destruct (_encrypt_file_cases s input_path output_path w)
      as [(content & t & _ & _ & E) | (e1 & w1 & E & Hfs & Hd & _ & He & Hwhy)];
      rewrite E in H; [discriminate |].
    injection H as <- <-. repeat split; assumption.
Qed.



(** ** Output names *)

Section OutputNames.
Import EncryptionWorker.

Lemma endswith_app p suf : Py.endswith (p +:+ suf) suf = true.
Proof.
  unfold Py.endswith. rewrite str_length_app.
  replace (String.length suf <=? String.length p + String.length suf) with true
    by (symmetry; apply Nat.leb_le; lia).
  replace (String.length p + String.length suf - String.length suf)
    with (String.length p) by lia.
  rewrite drop_app_exact. cbn [andb]. apply String.eqb_refl.
Qed.

Lemma endswith_inv s suf :
  Py.endswith s suf = true ->
  s = Py.take (String.length s - String.length suf) s +:+ suf.
Proof.
  unfold Py.endswith. intros H. apply andb_prop in H as [_ H].
  apply String.eqb_eq in H.
  rewrite <- H at 2. symmetry. apply str_take_drop.
Qed.

Lemma slice_to_strip p suf :
  suf <> "" -> Py.slice_to (- Py.len suf) (p +:+ suf) = p.
Proof.
  intros Hne. unfold Py.slice_to, Py.len. rewrite str_length_app.
  assert (0 < String.length suf) by (destruct suf; [congruence | cbn; lia]).
  replace (- Z.of_nat (String.length suf) <? 0)%Z with true
    by (symmetry; apply Z.ltb_lt; lia).
  replace (Z.to_nat (Z.of_nat (String.length p + String.length suf)
                     + - Z.of_nat (String.length suf)))
    with (String.length p) by lia.
  apply take_app_exact.
Qed.

Lemma take_app_le n (a b : string) :
  n <= String.length a -> Py.take n (a +:+ b) = Py.take n a.
Proof.
  revert a. induction n as [|n IH]; intros a H.
  - transitivity ""; [now destruct (a +:+ b) | now destruct a].
  - destruct a as [|c a]; [cbn in H; lia |].
    rewrite str_app_cons. cbn [Py.take]. f_equal. apply IH. cbn in H. lia.
Qed.

Lemma drop_app_le n (a b : string) :
  n <= String.length a -> Py.drop n (a +:+ b) = Py.drop n a +:+ b.
Proof.
  revert a. induction n as [|n IH]; intros a H.
  - reflexivity.
  - destruct a as [|c a]; [cbn in H; lia |].
    rewrite str_app_cons. cbn [Py.drop]. apply IH. cbn in H. lia.
Qed.

(** A suffix without separator changes neither the directory of a path nor,
    but for itself, its name. *)
Lemma dirname_basename_app p suf :
  has_sep suf = false ->
  posixpath.dirname (p +:+ suf) = posixpath.dirname p
  /\ posixpath.basename (p +:+ suf) = posixpath.basename p +:+ suf.
Proof.
  intros Hs. unfold posixpath.dirname, posixpath.basename, Py.slice_to, Py.slice_from.
  rewrite rfind_app, (rfind_none "/" suf Hs).
  replace (0 <=? -1)%Z with false by reflexivity.
  pose proof (rfind_bounds "/" p) as Hb.
  replace (Py.rfind "/" p + 1 <? 0)%Z with false by (symmetry; apply Z.ltb_ge; lia).
  rewrite take_app_le, drop_app_le by lia. split; reflexivity.
Qed.

End OutputNames.

(** X10.  The names of the crypto pipeline.  Decryption proposes for the
    default output of an encryption the very path that was encrypted:
    stripping the suffix undoes adding it.  Every proposed output lies in the
    directory of its input: encryption appends [.encrypted] to the name, and
    decryption of a path without the suffix prefixes the name with
    [decrypted_]. *)
Theorem crypto_output_names_stay_beside_the_input :
  (forall p, EncryptionWorker.decrypt_output_path (p +:+ DEFAULT_ENCRYPTION_EXTENSION) = p)
  /\ (forall p,
        posixpath.dirname (p +:+ DEFAULT_ENCRYPTION_EXTENSION) = posixpath.dirname p
        /\ posixpath.basename (p +:+ DEFAULT_ENCRYPTION_EXTENSION)
           = posixpath.basename p +:+ DEFAULT_ENCRYPTION_EXTENSION)
  /\ (forall p,
        posixpath.dirname (EncryptionWorker.decrypt_output_path p) = posixpath.dirname p)
  /\ (forall p,
        Py.endswith p DEFAULT_ENCRYPTION_EXTENSION = false ->
        posixpath.basename (EncryptionWorker.decrypt_output_path p)
        = "decrypted_" +:+ posixpath.basename p).
Proof.
  assert (has_sep DEFAULT_ENCRYPTION_EXTENSION = false) as Hext by reflexivity.
  split; [| split; [| split]].
  - intros p. unfold EncryptionWorker.decrypt_output_path.
    rewrite endswith_app. apply slice_to_strip. discriminate.
  - intros p. now apply dirname_basename_app.
  - intros p. unfold EncryptionWorker.decrypt_output_path.
    destruct (Py.endswith p DEFAULT_ENCRYPTION_EXTENSION) eqn:E.
    + apply endswith_inv in E.
      revert E. generalize (Py.take (String.length p
                                     - String.length DEFAULT_ENCRYPTION_EXTENSION) p).
      intros q ->.
      rewrite slice_to_strip by discriminate.
      symmetry. now apply dirname_basename_app.
    + apply dirname_basename_join; [apply dirname_normal |].
      rewrite has_sep_app, basename_no_sep. reflexivity.
  - intros p E. unfold EncryptionWorker.decrypt_output_path. rewrite E.
    apply dirname_basename_join; [apply dirname_normal |].
    rewrite has_sep_app, basename_no_sep. reflexivity.
Qed.

(** ** A task of the organizer *)

Section MakeDirs.

Lemma os_mkdir_adds p w k :
  let m' := fs (snd (os_mkdir p w)) in
  m' !! k = fs w !! k \/ (fs w !! k = None /\ m' !! k = Some Dir).
Proof.
  unfold os_mkdir. destruct (fs w !! p) eqn:Ep; cbn; [now left |].
  destruct (check_parent (fs w) p); cbn; [| now left].
  destruct (decide (k = p)) as [-> | Hne].
  - right. now rewrite lookup_insert_eq.
  - left. now rewrite lookup_insert_ne.
Qed.

Lemma makedirs_mkdir_adds name exist_ok w k :
  let m' := fs (snd (makedirs_mkdir name exist_ok w)) in
  m' !! k = fs w !! k \/ (fs w !! k = None /\ m' !! k = Some Dir).
Proof.
  pose proof (os_mkdir_adds name w k) as H. cbv zeta in *.
  unfold makedirs_mkdir, try_except.
  destruct (os_mkdir name w) as [[[]|e] w1]; cbn [snd] in *; [exact H |].
  destruct (is_OSError e); [| exact H].
  unfold os_path_isdir, get_world, mbind, ST_bind, mret, ST_ret; cbn.
  destruct (negb exist_ok || negb (isdir_in (fs w1) name)); exact H.
Qed.

Lemma adds_trans (m1 m2 m3 : gmap string node) k :
  (m2 !! k = m1 !! k \/ (m1 !! k = None /\ m2 !! k = Some Dir)) ->
  (m3 !! k = m2 !! k \/ (m2 !! k = None /\ m3 !! k = Some Dir)) ->
  m3 !! k = m1 !! k \/ (m1 !! k = None /\ m3 !! k = Some Dir).
Proof.
  intros [H1 | [H1 H1']] [H2 | [H2 H2']].
  - left. congruence.
  - right. split; congruence.
  - right. split; congruence.
  - congruence.
Qed.

(** [os.makedirs] changes no entry and adds only directories, also when it
    raises. *)
Lemma os_makedirs_adds name exist_ok w k :
  let m' := fs (snd (os_makedirs name exist_ok w)) in
  m' !! k = fs w !! k \/ (fs w !! k = None /\ m' !! k = Some Dir).
Proof.
  cbv zeta. funelim (os_makedirs name exist_ok w).
  - clear H0 H1 Heqcall.
    destruct (exists_in (fs w) head_); [apply makedirs_mkdir_adds |].
    unfold mbind, ST_bind, try_except.
    pose proof (H w k) as Hrec.
    destruct (os_makedirs head_ exist_ok w) as [[[]|e] w1]; cbn [snd] in Hrec.
    + destruct (String.eqb tail_ "."); [exact Hrec |].
      eapply adds_trans; [exact Hrec | apply makedirs_mkdir_adds].
    + assert (forall r : result unit,
                 (fs (snd (r, w1)) !! k = fs w !! k
                  \/ (fs w !! k = None /\ fs (snd (r, w1)) !! k = Some Dir))) as Hsame
        by (intros r; exact Hrec).
      destruct e; cbn; try exact Hrec.
      destruct (String.eqb tail_ "."); [exact Hrec |].
      eapply adds_trans; [exact Hrec | apply makedirs_mkdir_adds].
  - apply makedirs_mkdir_adds.
Qed.

Lemma os_makedirs_keeps name exist_ok w r w1 k n :
  os_makedirs name exist_ok w = (r, w1) ->
  fs w !! k = Some n -> fs w1 !! k = Some n.
Proof.
  intros E Hk. pose proof (os_makedirs_adds name exist_ok w k) as H.
  cbv zeta in H. rewrite E in H. cbn [snd] in H.
  destruct H as [H | [H _]]; congruence.
Qed.




End MakeDirs.

Section OrganizerTask.
Context {T : TimeLib}.
Import FileOrganizerWorker.


End OrganizerTask.


(** ** Sizes for display *)

Section FormatSize.
Local Open Scope Z_scope.

Lemma round_half_even_near n d :
  0 <= n -> 0 < d ->
  let t := round_half_even n d in
  2 * Z.abs (n - t * d) <= d /\ n / d <= t <= n / d + 1.
Proof.
  intros Hn Hd. unfold round_half_even. cbv zeta.
  pose proof (Z.div_mod n d ltac:(lia)) as Hdm.
  pose proof (Z.mod_pos_bound n d Hd) as Hr.
  set (q := n / d) in *. set (r := n mod d) in *.
  destruct (2 * r <? d) eqn:E1; [apply Z.ltb_lt in E1; split; nia |].
  apply Z.ltb_ge in E1.
  destruct (d <? 2 * r) eqn:E2; [apply Z.ltb_lt in E2; split; nia |].
  apply Z.ltb_ge in E2.
  destruct (Z.even q); split; nia.
Qed.

Lemma true_divide_exact a k :
  0 < a < 2 ^ 53 -> true_divide_pow2 a k = Some (a, - k).
Proof.
  intros [Ha Hb]. unfold true_divide_pow2. cbv zeta.
  apply Z.log2_lt_pow2 in Hb; [| exact Ha].
  replace (Z.log2 a + 1 <=? 53) with true by (symmetry; apply Z.leb_le; lia).
  reflexivity.
Qed.

Lemma format_size_scaled size k (unit : string) :
  0 < k -> 2 ^ k <= size < 2 ^ 53 ->
  exists tenths,
    (x ← true_divide_pow2 size k; Some (format_1f x +:+ unit))
    = Some (Py.str (Z.to_nat (tenths / 10)) +:+ "."
            +:+ Py.str (Z.to_nat (tenths mod 10)) +:+ unit)
    /\ 2 * Z.abs (10 * size - tenths * 2 ^ k) <= 2 ^ k
    /\ 10 <= tenths
    /\ (size < 1024 * 2 ^ k -> tenths <= 10240)
    /\ (20479 * 2 ^ k < 20 * size -> 10240 <= tenths).
Proof.
  intros Hk [Hlo Hhi].
  assert (0 < 2 ^ k) as Hp by (apply Z.pow_pos_nonneg; lia).
  rewrite true_divide_exact by lia. cbn [mbind option_bind].
  unfold format_1f. replace (0 <=? - k) with false by (symmetry; apply Z.leb_gt; lia).
  rewrite Z.opp_involutive.
  destruct (round_half_even_near (10 * size) (2 ^ k) ltac:(lia) Hp) as [Hnear [Hq1 Hq2]].
  set (t := round_half_even (10 * size) (2 ^ k)) in *.
  exists t. split; [now rewrite !str_app_assoc |]. split; [exact Hnear |].
  clearbody t. remember (2 ^ k) as d eqn:Hd. clear Hd.
  assert (10 <= 10 * size / d) by (apply Z.div_le_lower_bound; lia).
  split; [lia |]. split.
  - intros Hup. assert (10 * size / d < 10240) by (apply Z.div_lt_upper_bound; lia). lia.
  - intros Hup. nia.
Qed.

End FormatSize.

(** X12.  A size below 2**53 bytes is shown in the unit of its magnitude (B
    below 1024, then KB, MB and, without upper limit, GB); the number shown
    for KB, MB and GB has one decimal and differs from the exact quotient by
    at most 0.05.  It is at least 1.0 and, for KB and MB, at most 1024.0: the
    last 51 sizes below a megabyte are shown as 1024.0 KB. *)
Theorem format_size_rounds_to_a_tenth (size : Z) :
  (0 <= size < 2 ^ 53)%Z ->
  ((size < 1024)%Z -> format_size size = Some (Py.str (Z.to_nat size) +:+ " B"))
  /\ ((1024 <= size)%Z ->
      exists (tenths : Z) (unit : string) (scale : Z),
        format_size size
        = Some (Py.str (Z.to_nat (tenths / 10)) +:+ "."
                +:+ Py.str (Z.to_nat (tenths mod 10)) +:+ " " +:+ unit)
        /\ In (unit, scale) [("KB", 2 ^ 10); ("MB", 2 ^ 20); ("GB", 2 ^ 30)]%Z
        /\ (scale <= size)%Z
        /\ (unit <> "GB" -> (size < 1024 * scale)%Z)
        /\ (2 * Z.abs (10 * size - tenths * scale) <= scale)%Z
        /\ (10 <= tenths)%Z
        /\ (unit <> "GB" -> (tenths <= 10240)%Z))
  /\ ((1048525 <= size < 1048576)%Z -> format_size size = Some "1024.0 KB").
Proof.
  intros [Hlo Hhi]. split; [| split].
  - intros Hsmall. unfold format_size, str_int.
    replace (size <? 1024)%Z with true by (symmetry; apply Z.ltb_lt; lia).
    replace (size <? 0)%Z with false by (symmetry; apply Z.ltb_ge; lia).
    reflexivity.
  - intros Hbig. unfold format_size.
    replace (size <? 1024)%Z with false by (symmetry; apply Z.ltb_ge; lia).
    change (1024 * 1024 * 1024)%Z with (2 ^ 30)%Z.
    change (1024 * 1024)%Z with (2 ^ 20)%Z.
    destruct (size <? 2 ^ 20)%Z eqn:E1; [| destruct (size <? 2 ^ 30)%Z eqn:E2].
    + apply Z.ltb_lt in E1.
      destruct (format_size_scaled size 10 " KB" ltac:(lia) ltac:(lia))
        as (t & Hf & Hn & H10 & Hup & _).
      exists t, "KB", (2 ^ 10)%Z. split; [exact Hf |].
      split; [now left |]. repeat split; try lia.
    + apply Z.ltb_ge in E1. apply Z.ltb_lt in E2.
      destruct (format_size_scaled size 20 " MB" ltac:(lia) ltac:(lia))
        as (t & Hf & Hn & H10 & Hup & _).
      exists t, "MB", (2 ^ 20)%Z. split; [exact Hf |].
      split; [right; now left |]. repeat split; try lia.
    + apply Z.ltb_ge in E2.
      destruct (format_size_scaled size 30 " GB" ltac:(lia) ltac:(lia))
        as (t & Hf & Hn & H10 & _ & _).
      exists t, "GB", (2 ^ 30)%Z. split; [exact Hf |].
      split; [right; right; now left |]. repeat split; try lia; congruence.
  - intros [Ha Hb]. unfold format_size.
    replace (size <? 1024)%Z with false by (symmetry; apply Z.ltb_ge; lia).
    replace (size <? 1024 * 1024)%Z with true by (symmetry; apply Z.ltb_lt; lia).
    destruct (format_size_scaled size 10 " KB" ltac:(lia) ltac:(lia))
      as (t & Hf & _ & _ & Hup & Hdown).
    rewrite Hf. assert (t = 10240%Z) as -> by lia. reflexivity.
Qed.

Lemma format_size_rounds_to_a_tenth_witness :
  format_size 512 = Some "512 B" /\ format_size 1048575 = Some "1024.0 KB".
Proof.
  split.
  - exact (proj1 (format_size_rounds_to_a_tenth 512 ltac:(lia)) ltac:(lia)).
  - exact (proj2 (proj2 (format_size_rounds_to_a_tenth 1048575 ltac:(lia))) ltac:(lia)).
Defined.

(** ** The tile view *)

Section TileView.
Import FileTileView.

Lemma contains_spec (xs : list string) (x : string) :
  Py.contains xs x = true <-> x ∈ xs.
Proof.
  unfold Py.contains. rewrite existsb_exists. split.
  - intros (y & Hy & E). apply String.eqb_eq in E. subst. now apply list_elem_of_In.
  - intros H. exists x. split; [now apply list_elem_of_In | apply String.eqb_refl].
Qed.

Lemma contains_false (xs : list string) (x : string) :
  Py.contains xs x = false <-> x ∉ xs.
Proof.
  rewrite <- contains_spec. destruct (Py.contains xs x); split; congruence.
Qed.

Lemma filter_sublist {A} (f : A -> bool) (l : list A) : List.filter f l `sublist_of` l.
Proof.
  induction l as [|x l IH]; [constructor |]. cbn. destruct (f x); now constructor.
Qed.

Lemma NoDup_snoc (l : list string) (x : string) : x ∉ l -> NoDup l -> NoDup (l ++ [x]).
Proof.
  intros Hx Hl. apply NoDup_app. split; [exact Hl |]. split.
  - intros y Hy Hin. apply list_elem_of_singleton in Hin. now subst.
  - apply NoDup_singleton.
Qed.

Lemma add_files_loop_NoDup file_paths : forall files added,
  NoDup files -> NoDup (fst (add_files_loop file_paths files added)).
Proof.
  induction file_paths as [|p rest IH]; intros files added Hnd; [exact Hnd |].
  cbn [add_files_loop]. destruct (Py.contains files p) eqn:E; cbn [negb].
  - now apply IH.
  - apply IH, NoDup_snoc; [now apply contains_false | exact Hnd].
Qed.

Lemma add_files_loop_added file_paths : forall files,
  snd (add_files_loop file_paths files true) = true.
Proof.
  induction file_paths as [|p rest IH]; intros files; [reflexivity |].
  cbn [add_files_loop]. destruct (negb (Py.contains files p)); apply IH.
Qed.

Lemma add_files_loop_none file_paths : forall files,
  snd (add_files_loop file_paths files false) = false ->
  fst (add_files_loop file_paths files false) = files.
Proof.
  induction file_paths as [|p rest IH]; intros files; [reflexivity |].
  cbn [add_files_loop]. destruct (negb (Py.contains files p)).
  - rewrite add_files_loop_added. discriminate.
  - apply IH.
Qed.

Lemma list_remove_sublist x l : list_remove x l `sublist_of` l.
Proof.
  induction l as [|y l IH]; [constructor |]. cbn.
  destruct (String.eqb y x); [now constructor | now constructor].
Qed.

Lemma list_remove_gone x l : NoDup l -> x ∉ list_remove x l.
Proof.
  induction l as [|y l IH]; intros Hnd; [apply not_elem_of_nil |].
  apply NoDup_cons in Hnd as [Hy Hl]. cbn.
  destruct (String.eqb y x) eqn:E.
  - apply String.eqb_eq in E. now subst.
  - apply String.eqb_neq in E. apply not_elem_of_cons. split; [congruence | now apply IH].
Qed.

Lemma _apply_filters_files m s : files (_apply_filters m s) = files s.
Proof. reflexivity. Qed.

Lemma _apply_filters_sublist m s :
  filtered_files (_apply_filters m s) `sublist_of` files s.
Proof.
  unfold _apply_filters. cbn [filtered_files with_filtered_files].
  repeat match goal with
         | |- context [if ?b then _ else _] => destruct b
         end;
    repeat (etransitivity; [apply filter_sublist |]); reflexivity.
Qed.

(** The cells the loop of [_update_layout] gives to [n] tiles from index [i]. *)
Lemma _update_layout_loop_spec columns sel l : forall i tw g,
  let r := _update_layout_loop columns sel i l tw g in
  List.map (fun t => file_path (fst t)) (snd r)
  = List.map (fun t => file_path (fst t)) g ++ l
  /\ List.map snd (snd r)
     = List.map snd g
       ++ List.map (fun k => ((i + Z.of_nat k) / columns, (i + Z.of_nat k) mod columns)%Z)
            (seq 0 (length l))
  /\ forall p, is_Some (fst r !! p) <-> is_Some (tw !! p) \/ p ∈ l.
Proof.
  induction l as [|x l IH]; intros i tw g; cbv zeta.
  - cbn. rewrite !app_nil_r. split; [reflexivity |]. split; [reflexivity |].
    intros p. rewrite elem_of_nil. tauto.
  - cbn [_update_layout_loop length seq List.map].
    destruct (IH (i + 1)%Z
                (<[x := tile x (bool_decide (x ∈ sel))]> tw)
                (g ++ [(tile x (bool_decide (x ∈ sel)),
                        ((i / columns)%Z, (i mod columns)%Z))])) as (H1 & H2 & H3).
    cbv zeta in H1, H2, H3. split; [| split].
    + rewrite H1, map_app, <- app_assoc. reflexivity.
    + rewrite H2, map_app, <- app_assoc. cbn [List.map app snd].
      rewrite Z.add_0_r. f_equal. f_equal.
      rewrite <- seq_shift, map_map. apply map_ext. intros k.
      now replace (i + 1 + Z.of_nat k)%Z with (i + Z.of_nat (S k))%Z by lia.
    + intros p. rewrite H3, elem_of_cons.
      destruct (decide (p = x)) as [-> | Hne].
      * rewrite lookup_insert_eq. split; [intros _; right; now left | intros _; left; eauto].
      * rewrite lookup_insert_ne by congruence. tauto.
Qed.

Lemma cells_distinct columns i n :
  (0 < columns)%Z ->
  NoDup (List.map (fun k => ((i + Z.of_nat k) / columns, (i + Z.of_nat k) mod columns)%Z)
           (seq 0 n)).
Proof.
  intros Hc. apply NoDup_fmap_2_strong; [| apply NoDup_seq].
  intros a b _ _ [= Hd Hm].
  pose proof (Z.div_mod (i + Z.of_nat a) columns ltac:(lia)).
  pose proof (Z.div_mod (i + Z.of_nat b) columns ltac:(lia)).
  rewrite Hd, Hm in H. lia.
Qed.

Lemma view_invariant_refilter m s :
  NoDup (files s) -> NoDup (List.map snd (grid_layout s)) ->
  view_invariant (update_timer_start (_apply_filters m s)).
Proof.
  intros Hnd Hg. split; [exact Hnd |].
  split; [exact (_apply_filters_sublist m s) |].
  split; [exact Hg |]. discriminate.
Qed.

Lemma view_step_invariant m c s : view_invariant s -> view_invariant (view_step m c s).
Proof.
  intros Hs. pose proof Hs as (Hnd & Hsub & Hg & Hshown).
  destruct c; cbn [view_step].
  - (* clear *)
    unfold clear. split; [constructor |]. split; [constructor |].
    split; [constructor |]. intros _. split; [reflexivity |].
    intros p. cbn. rewrite lookup_empty, elem_of_nil. split; [intros [? [=]] | tauto].
  - (* add_file *)
    unfold add_file. destruct (Py.contains (files s) file_path0) eqn:E.
    + exact Hs.
    + apply view_invariant_refilter; [| exact Hg].
      apply NoDup_snoc; [now apply contains_false | exact Hnd].
  - (* add_files *)
    unfold add_files.
    pose proof (add_files_loop_NoDup file_paths (files s) false Hnd) as Hnd'.
    pose proof (add_files_loop_none file_paths (files s)) as Hnone.
    destruct (add_files_loop file_paths (files s) false) as [fl added].
    cbn [fst snd] in *. destruct added.
    + apply view_invariant_refilter; [exact Hnd' | exact Hg].
    + rewrite (Hnone eq_refl). destruct s. exact Hs.
  - (* remove_file *)
    unfold remove_file. destruct (Py.contains (files s) file_path0) eqn:E.
    + apply view_invariant_refilter.
      * assert (NoDup (list_remove file_path0 (files s))) as Hrm
          by (eapply sublist_NoDup; [exact Hnd | apply list_remove_sublist]).
        now destruct (bool_decide _).
      * now destruct (bool_decide _).
    + exact Hs.
  - now apply view_invariant_refilter.
  - now apply view_invariant_refilter.
  - now apply view_invariant_refilter.
  - (* resize *)
    split; [exact Hnd |]. split; [exact Hsub |]. split; [exact Hg |]. discriminate.
  - (* timeout *)
    unfold update_timer_timeout. destruct (update_timer s) eqn:Et.
    + unfold _update_layout. cbn [selected_files filtered_files].
      set (columns := Z.max 1 (container_width / (150 + spacing))).
      destruct (_update_layout_loop_spec columns (selected_files s) (filtered_files s)
                  0%Z ∅ []) as (H1 & H2 & H3).
      destruct (_update_layout_loop columns (selected_files s) 0 (filtered_files s) ∅ [])
        as [tw g]. cbn [fst snd] in *.
      split; [exact Hnd |]. split; [exact Hsub |]. split.
      * cbn [grid_layout]. rewrite H2. cbn [List.map app].
        apply cells_distinct. unfold columns. lia.
      * intros _. cbn [grid_layout tile_widgets filtered_files]. split; [exact H1 |].
        intros p. rewrite H3, lookup_empty. split; [intros [[? [=]] | ?]; assumption | tauto].
    + exact Hs.
Qed.

Lemma view_run_invariant calls : forall s,
  view_invariant s -> view_invariant (view_run calls s).
Proof.
  induction calls as [|[m c] calls IH]; intros s Hs; [exact Hs |].
  apply IH. now apply view_step_invariant.
Qed.

End TileView.

(** X13.  What the tile view keeps through every history of calls and events,
    from its creation: no path is listed twice; the paths shown are a
    subsequence of the paths listed; no two tiles of the grid share a cell;
    and whenever the update timer is not running, the grid holds exactly one
    tile for each path shown, in their order.  Hence [remove_file] leaves no
    occurrence of the path, listed or shown. *)
Theorem tile_view_keeps_paths_distinct_and_grid_current
    (calls : list (gmap string node * view_call)) :
  let s := view_run calls FileTileView.__init__ in
  NoDup (FileTileView.files s)
  /\ FileTileView.filtered_files s `sublist_of` FileTileView.files s
  /\ NoDup (List.map snd (FileTileView.grid_layout s))
  /\ (FileTileView.update_timer s = false ->
      List.map (fun t => FileTileView.file_path (fst t)) (FileTileView.grid_layout s)
      = FileTileView.filtered_files s
      /\ forall p, is_Some (FileTileView.tile_widgets s !! p)
                   <-> p ∈ FileTileView.filtered_files s)
  /\ (forall m p,
        (p ∉ FileTileView.files (FileTileView.remove_file m p s))
        /\ (p ∉ FileTileView.filtered_files (FileTileView.remove_file m p s))).
Proof.
  intros s.
  assert (view_invariant s) as Hs.
  { apply view_run_invariant. split; [constructor |]. split; [constructor |].
    split; [constructor |]. intros _. split; [reflexivity |].
    intros p. cbn. rewrite lookup_empty, elem_of_nil. split; [intros [? [=]] | tauto]. }
  destruct Hs as (Hnd & Hsub & Hg & Hshown).
  split; [exact Hnd |]. split; [exact Hsub |]. split; [exact Hg |]. split; [exact Hshown |].
  intros m p.
  assert (p ∉ FileTileView.files (FileTileView.remove_file m p s)) as Hgone.
  { unfold FileTileView.remove_file.
    destruct (Py.contains (FileTileView.files s) p) eqn:E.
    - destruct (bool_decide _); cbn; now apply list_remove_gone.
    - now apply contains_false. }
  split; [exact Hgone |].
  intros Hin. apply Hgone.
  pose proof (view_step_invariant m (call_remove_file p) s
                (conj Hnd (conj Hsub (conj Hg Hshown)))) as (_ & Hsub' & _).
  cbn [view_step] in Hsub'. eapply elem_of_sublist; eassumption.
Qed.

(** ** The main window *)

Section History.
Import MainWindow.

Lemma no_repeat_snoc l x :
  no_repeat l -> last l <> Some x -> no_repeat (l ++ [x]).
Proof.
  induction l as [|a l IH]; intros Hl Hx; [exact I |].
  destruct l as [|b l].
  - cbn in *. split; [congruence | exact I].
  - destruct Hl as [Hab Hl]. change ((a :: b :: l) ++ [x]) with (a :: (b :: l ++ [x])).
    split; [exact Hab |]. apply IH; [exact Hl |]. exact Hx.
Qed.

(** What navigation keeps of the history. *)
Lemma navigate_to_path_history m s :
  current_path_index s = (Z.of_nat (length (path_history s)) - 1)%Z ->
  no_repeat (path_history s) ->
  let s' := navigate_to_path m s in
  current_path_index s' = (Z.of_nat (length (path_history s')) - 1)%Z
  /\ no_repeat (path_history s')
  /\ path_history s `prefix_of` path_history s'.
Proof.
  intros Hidx Hrep. cbv zeta. unfold navigate_to_path.
  set (path := str_strip (path_input s)).
  destruct (String.eqb path ""); [now repeat split |].
  destruct (negb (exists_in m path)); [now repeat split |].
  destruct (isdir_in m path); [| now repeat split].
  cbv zeta. cbn [current_path_index path_history with_file_view showMessage].
  replace (current_path_index s <? Z.of_nat (length (path_history s)) - 1)%Z with false
    by (symmetry; apply Z.ltb_ge; lia).
  cbn [current_path_index path_history with_file_view showMessage].
  destruct (last (path_history s)) as [top|] eqn:El.
  - destruct (String.eqb top path) eqn:E; cbn [negb].
    + now repeat split.
    + cbn [current_path_index path_history with_history].
      split; [reflexivity |]. split.
      * apply no_repeat_snoc; [exact Hrep |]. rewrite El.
        apply String.eqb_neq in E. congruence.
      * now apply prefix_app_r.
  - cbn [current_path_index path_history with_history].
    split; [reflexivity |]. split.
    + apply no_repeat_snoc; [exact Hrep |]. rewrite El. discriminate.
    + now apply prefix_app_r.
Qed.

Lemma rename_selected_file_history answer s w :
  let s' := fst (rename_selected_file answer s w) in
  path_history s' = path_history s /\ current_path_index s' = current_path_index s.
Proof.
  cbv zeta. unfold rename_selected_file.
  destruct (selected_file s) as [p|]; [| now split].
  destruct answer as [new_name ok].
  destruct (ok && _ && _); [| now split].
  destruct (exists_in _ _); [now split |].
  destruct (os_rename _ _ w) as [[[]|e] w']; now split.
Qed.

Lemma window_step_history w c s :
  current_path_index s = (Z.of_nat (length (path_history s)) - 1)%Z ->
  no_repeat (path_history s) ->
  let s' := window_step w c s in
  current_path_index s' = (Z.of_nat (length (path_history s')) - 1)%Z
  /\ no_repeat (path_history s')
  /\ path_history s `prefix_of` path_history s'.
Proof.
  intros Hidx Hrep. cbv zeta. destruct c; cbn [window_step].
  - now repeat split.
  - now apply navigate_to_path_history.
  - unfold navigate_to_parent_folder.
    destruct (_ || _); [now repeat split |].
    destruct (String.eqb _ _); [now repeat split |].
    exact (navigate_to_path_history (fs w)
             (path_input_setText (posixpath.dirname (str_strip (path_input s))) s)
             Hidx Hrep).
  - unfold refresh_files. destruct (_ && _); [| now repeat split].
    exact (navigate_to_path_history (fs w) s Hidx Hrep).
  - destruct (rename_selected_file_history answer s w) as [-> ->].
    now repeat split.
  - now repeat split.
  - now repeat split.
Qed.

Lemma window_run_history calls : forall s,
  current_path_index s = (Z.of_nat (length (path_history s)) - 1)%Z ->
  no_repeat (path_history s) ->
  let s' := window_run calls s in
  current_path_index s' = (Z.of_nat (length (path_history s')) - 1)%Z
  /\ no_repeat (path_history s')
  /\ path_history s `prefix_of` path_history s'.
Proof.
  induction calls as [|[w c] calls IH]; intros s Hidx Hrep; [now repeat split |].
  cbv zeta. cbn [window_run fold_left fst snd].
  destruct (window_step_history w c s Hidx Hrep) as (Hidx1 & Hrep1 & Hpre1).
  destruct (IH _ Hidx1 Hrep1) as (Hidx2 & Hrep2 & Hpre2).
  split; [exact Hidx2 |]. split; [exact Hrep2 |].
  etransitivity; eassumption.
Qed.

End History.

(** X14.  The navigation history only grows.  Through every history of calls
    of the window, [current_path_index] is the index of the last entry of
    [path_history], so that the truncation in [navigate_to_path] never takes
    place; an entry once made is never removed or changed; and no two
    neighbours of the history are the same path. *)
Theorem navigation_history_only_grows (before after : list (World * window_call)) :
  let s1 := window_run before MainWindow.__init__ in
  let s2 := window_run after s1 in
  MainWindow.current_path_index s2
  = (Z.of_nat (length (MainWindow.path_history s2)) - 1)%Z
  /\ no_repeat (MainWindow.path_history s2)
  /\ MainWindow.path_history s1 `prefix_of` MainWindow.path_history s2.
Proof.
  intros s1 s2.
  destruct (window_run_history before MainWindow.__init__ eq_refl I) as (Hidx & Hrep & _).
  exact (window_run_history after s1 Hidx Hrep).
Qed.

Section Navigation.
Import MainWindow.

Lemma omap_NoDup {A B} (f : A -> option B) (l : list A) :
  NoDup l ->
  (forall x y z, x ∈ l -> y ∈ l -> f x = Some z -> f y = Some z -> x = y) ->
  NoDup (omap f l).
Proof.
  induction l as [|a l IH]; intros Hnd Hinj; [constructor |].
  apply NoDup_cons in Hnd as [Ha Hl]. cbn.
  assert (NoDup (omap f l)) as Hrest.
  { apply IH; [exact Hl |]. intros x y z Hx Hy. apply Hinj; now right. }
  destruct (f a) as [b|] eqn:E; [| exact Hrest].
  apply NoDup_cons. split; [| exact Hrest].
  intros Hin. apply list_elem_of_omap in Hin as (x & Hx & Ex).
  assert (a = x) by (apply (Hinj a x b); [now left | now right | exact E | exact Ex]).
  now subst.
Qed.

Lemma os_listdir_NoDup m path : NoDup (os_listdir m path).
Proof.
  unfold os_listdir. apply omap_NoDup; [apply NoDup_map_to_list |].
  intros [k1 x1] [k2 x2] name H1 H2 E1 E2. cbn [fst] in E1, E2.
  apply child_name_Some in E1 as (-> & _). apply child_name_Some in E2 as (-> & _).
  apply elem_of_map_to_list in H1, H2. f_equal. congruence.
Qed.

Lemma os_listdir_names m path name :
  name ∈ os_listdir m path -> has_sep name = false.
Proof.
  unfold os_listdir. intros H. apply list_elem_of_omap in H as ([k x] & _ & E).
  now apply child_name_Some in E as (_ & _ & Hs).
Qed.

Lemma items_NoDup m path :
  NoDup (List.map (fun item => posixpath.join path item) (os_listdir m path)).
Proof.
  apply NoDup_fmap_2_strong; [| apply os_listdir_NoDup].
  intros a b Ha Hb. apply os_listdir_names in Ha, Hb.
  rewrite !join_no_sep by assumption. intros H.
  now repeat apply str_app_inj_l in H.
Qed.

Lemma add_files_loop_fresh items : forall files added,
  NoDup (files ++ items) ->
  fst (FileTileView.add_files_loop items files added) = files ++ items.
Proof.
  induction items as [|p rest IH]; intros files added Hnd.
  - cbn. now rewrite app_nil_r.
  - cbn [FileTileView.add_files_loop].
    assert (p ∉ files) as Hp.
    { apply NoDup_app in Hnd as (_ & Hdis & _). intros Hin.
      apply (Hdis p Hin). now left. }
    apply contains_false in Hp. rewrite Hp. cbn [negb].
    rewrite IH by now rewrite <- app_assoc.
    now rewrite <- app_assoc.
Qed.

Lemma filter_all {A} (f : A -> bool) (l : list A) :
  (forall x, f x = true) -> List.filter f l = l.
Proof.
  intros H. induction l as [|x l IH]; [reflexivity |]. cbn. now rewrite H, IH.
Qed.

Lemma set_file_folder_filter_fields m a b v :
  let v' := FileTileView.set_file_folder_filter m a b v in
  FileTileView.files v' = FileTileView.files v
  /\ FileTileView.selected_files v' = FileTileView.selected_files v
  /\ FileTileView.current_category v' = FileTileView.current_category v
  /\ FileTileView.search_text v' = FileTileView.search_text v
  /\ FileTileView.show_files v' = a
  /\ FileTileView.show_folders v' = b.
Proof. now repeat split. Qed.

Lemma set_category_filter_fields m c v :
  let v' := FileTileView.set_category_filter m c v in
  FileTileView.files v' = FileTileView.files v
  /\ FileTileView.selected_files v' = FileTileView.selected_files v
  /\ FileTileView.current_category v' = c
  /\ FileTileView.search_text v' = FileTileView.search_text v.
Proof. now repeat split. Qed.

(** With the category All Files and both switches on, only the search text
    filters. *)
Lemma set_file_folder_filter_all m v :
  FileTileView.current_category v = "All Files" ->
  let v' := FileTileView.set_file_folder_filter m true true v in
  FileTileView.filtered_files v'
  = (if String.eqb (FileTileView.search_text v) "" then FileTileView.files v
     else List.filter (fun f => str_in (FileTileView.search_text v)
                                       (Py.lower (posixpath.basename f)))
                      (FileTileView.files v)).
Proof.
  intros Hc. destruct v as [fl ff cat search sf sd sel tw g timer].
  cbn [FileTileView.current_category] in Hc. subst cat.
  cbv zeta. unfold FileTileView.set_file_folder_filter, FileTileView.update_timer_start,
    FileTileView._apply_filters, FileTileView.with_filtered_files.
  cbn [FileTileView.files FileTileView.filtered_files FileTileView.current_category
       FileTileView.search_text FileTileView.show_files FileTileView.show_folders].
  change (negb ("All Files" =? "All Files")%string
          && negb (Py.contains ["Files"; "Folders"] "All Files")) with false.
  change ("All Files" =? "Files")%string with false.
  change ("All Files" =? "Folders")%string with false. cbv iota.
  rewrite (filter_all _ fl) by (intros f; destruct (isdir_in m f); reflexivity).
  now destruct (String.eqb search "").
Qed.

Lemma add_files_cleared m items v :
  NoDup items ->
  let v' := FileTileView.add_files m items (FileTileView.clear v) in
  FileTileView.files v' = items
  /\ FileTileView.selected_files v' = ∅
  /\ FileTileView.search_text v' = FileTileView.search_text v.
Proof.
  intros Hnd. cbv zeta. unfold FileTileView.add_files.
  pose proof (add_files_loop_fresh items [] false Hnd) as Hl.
  cbn [FileTileView.files FileTileView.clear] in *.
  destruct (FileTileView.add_files_loop items [] false) as [fl added].
  cbn [fst app] in Hl. subst fl. destruct added; now repeat split.
Qed.

(** The directory branch of [navigate_to_path]. *)
Lemma navigate_to_path_directory m s :
  let path := str_strip (path_input s) in
  path <> "" ->
  isdir_in m path = true ->
  file_view (navigate_to_path m s)
  = FileTileView.set_file_folder_filter m true true
      (FileTileView.set_category_filter m "All Files"
         (FileTileView.add_files m
            (List.map (fun item => posixpath.join path item) (os_listdir m path))
            (FileTileView.clear (file_view s))))
  /\ last (path_history (navigate_to_path m s)) = Some path.
Proof.
  intros path Hne Hdir. unfold navigate_to_path. fold path.
  apply String.eqb_neq in Hne. rewrite Hne.
  assert (exists_in m path = true) as Hex
    by (unfold isdir_in in Hdir; unfold exists_in; destruct (m !! path); congruence).
  rewrite Hex, Hdir. cbn [negb]. cbv zeta.
  cbn [current_path_index path_history with_file_view showMessage file_view].
  destruct (current_path_index s <? Z.of_nat (length (path_history s)) - 1)%Z.
  - cbn [current_path_index path_history with_history file_view with_file_view showMessage].
    destruct (last (list_slice_to (current_path_index s + 1) (path_history s)))
      as [top|] eqn:El.
    + destruct (String.eqb top path) eqn:E; cbn [negb].
      * cbn [current_path_index path_history with_history file_view with_file_view showMessage]. split; [reflexivity |].
        rewrite El. apply String.eqb_eq in E. now subst.
      * cbn [current_path_index path_history with_history file_view with_file_view showMessage]. split; [reflexivity | apply last_snoc].
    + cbn [current_path_index path_history with_history file_view with_file_view showMessage]. split; [reflexivity | apply last_snoc].
  - cbn [current_path_index path_history with_history file_view with_file_view showMessage].
    destruct (last (path_history s)) as [top|] eqn:El.
    + destruct (String.eqb top path) eqn:E; cbn [negb].
      * cbn [current_path_index path_history with_history file_view with_file_view showMessage]. split; [reflexivity |].
        rewrite El. apply String.eqb_eq in E. now subst.
      * cbn [current_path_index path_history with_history file_view with_file_view showMessage]. split; [reflexivity | apply last_snoc].
    + cbn [current_path_index path_history with_history file_view with_file_view showMessage]. split; [reflexivity | apply last_snoc].
Qed.

End Navigation.

Section Rename.
Import MainWindow.




End Rename.



Section Delete.
Import MainWindow.

(** One deletion removes the path, touches nothing outside it and adds
    nothing, also when it fails. *)
Lemma delete_one file_path w :
  let w' := snd (if isdir_in (fs w) file_path
                 then shutil_rmtree file_path w
                 else os_remove file_path w) in
  (forall k x, fs w' !! k = Some x -> fs w !! k = Some x)
  /\ (forall k, under file_path k = false -> fs w' !! k = fs w !! k)
  /\ exists_in (fs w') file_path = false.
Proof.
  cbv zeta. unfold isdir_in, shutil_rmtree, os_remove, exists_in.
  destruct (fs w !! file_path) as [[data t|]|] eqn:E; cbn [snd fs with_fs].
  - split; [| split].
    + intros k x Hk. destruct (decide (k = file_path)) as [-> | Hne].
      * now rewrite lookup_delete_eq in Hk.
      * now rewrite lookup_delete_ne in Hk by congruence.
    + intros k Hk. rewrite lookup_delete_ne; [reflexivity |].
      intros <-. now rewrite under_refl in Hk.
    + now rewrite lookup_delete_eq.
  - split; [| split].
    + intros k x. rewrite lookup_filter_under. now destruct (under file_path k).
    + intros k Hk. now rewrite lookup_filter_under, Hk.
    + now rewrite lookup_filter_under, under_refl.
  - rewrite E. now repeat split.
Qed.

Lemma delete_selected_file_loop_spec selected_files : forall deleted_count s w,
  let w' := snd (delete_selected_file_loop selected_files deleted_count s w) in
  (forall k x, fs w' !! k = Some x -> fs w !! k = Some x)
  /\ (forall k, (forall p, p ∈ selected_files -> under p k = false) ->
                fs w' !! k = fs w !! k)
  /\ (forall p, p ∈ selected_files -> exists_in (fs w') p = false).
Proof.
  induction selected_files as [|file_path rest IH]; intros deleted_count s w; cbv zeta.
  - cbn. split; [auto |]. split; [auto |]. intros p Hp. now apply elem_of_nil in Hp.
  - cbn [delete_selected_file_loop].
    destruct (delete_one file_path w) as (Hsub & Hframe & Hgone).
    destruct (if isdir_in (fs w) file_path
              then shutil_rmtree file_path w
              else os_remove file_path w) as [[[]|e] w1]; cbn [snd] in Hsub, Hframe, Hgone.
    + match goal with
      | |- context [delete_selected_file_loop rest ?n ?s1 w1] =>
          destruct (IH n s1 w1) as (Hsub' & Hframe' & Hgone')
      end.
      split; [| split].
      * intros k x Hk. now apply Hsub, Hsub'.
      * intros k Hk. rewrite Hframe' by (intros p Hp; apply Hk; now right).
        apply Hframe, Hk. now left.
      * intros p Hp. apply elem_of_cons in Hp as [-> | Hp]; [| now apply Hgone'].
        unfold exists_in in *.
        match goal with
        | |- match ?m !! file_path with _ => _ end = false =>
            destruct (m !! file_path) as [x|] eqn:E; [| reflexivity]
        end.
        apply Hsub' in E. now rewrite E in Hgone.
    + match goal with
      | |- context [delete_selected_file_loop rest ?n ?s1 w1] =>
          destruct (IH n s1 w1) as (Hsub' & Hframe' & Hgone')
      end.
      split; [| split].
      * intros k x Hk. now apply Hsub, Hsub'.
      * intros k Hk. rewrite Hframe' by (intros p Hp; apply Hk; now right).
        apply Hframe, Hk. now left.
      * intros p Hp. apply elem_of_cons in Hp as [-> | Hp]; [| now apply Hgone'].
        unfold exists_in in *.
        match goal with
        | |- match ?m !! file_path with _ => _ end = false =>
            destruct (m !! file_path) as [x|] eqn:E; [| reflexivity]
        end.
        apply Hsub' in E. now rewrite E in Hgone.
Qed.

End Delete.

(** ** Classification on ASCII paths *)

Section Listed.

Lemma contains_In (xs : list string) (x : string) :
  In x xs -> Py.contains xs x = true.
Proof.
  intros H. unfold Py.contains. apply existsb_exists. exists x.
  split; [exact H | apply String.eqb_refl].
Qed.

(** No extension is listed twice: every listed extension is found under its
    own category. *)
Lemma listed_extension_category category extensions ext :
  In (category, extensions) FILE_CATEGORIES ->
  In ext extensions ->
  get_file_category_loop ext FILE_CATEGORIES = category.
Proof.
  intros Hitem Hext.
  assert (forallb (fun item =>
                     forallb (fun e => String.eqb
                                         (get_file_category_loop e FILE_CATEGORIES)
                                         (fst item))
                             (snd item))
                  FILE_CATEGORIES = true) as Hall by (vm_compute; reflexivity).
  rewrite forallb_forall in Hall. specialize (Hall _ Hitem). cbn [fst snd] in Hall.
  rewrite forallb_forall in Hall. specialize (Hall _ Hext).
  now apply String.eqb_eq in Hall.
Qed.

End Listed.

(** C8.  [get_file_category] is a total function whose result, for every
    path, is one of the fifteen labels of the closed category set (the keys
    of the table, all distinct).  A path whose extension, lowered, is listed
    under a category gets that category; a path without extension gets
    [Others]; and for an ASCII extension the result is [Others] exactly when
    the lowered extension is not in the table.  On ASCII paths the result
    does not depend on the case: the upper-cased and the lower-cased path
    classify as the path does, and [classify "a.JPG" = classify "a.jpg"]. *)
Theorem get_file_category_total_closed_caseless :
  (forall p, In (get_file_category p) Category_labels)
  /\ Category_labels = List.map fst FILE_CATEGORIES
  /\ List.NoDup Category_labels
  /\ (forall p category extensions,
        In (category, extensions) FILE_CATEGORIES ->
        In (Py.lower (snd (posixpath.splitext p))) extensions ->
        get_file_category p = category)
  /\ (forall p, snd (posixpath.splitext p) = "" -> get_file_category p = "Others")
  /\ (forall p, is_ascii (snd (posixpath.splitext p)) = true ->
                (get_file_category p = "Others"
                 <-> in_table (Py.lower (snd (posixpath.splitext p))) = false))
  /\ (forall p, is_ascii p = true ->
                get_file_category (Py.upper p) = get_file_category p
                /\ get_file_category (Py.lower p) = get_file_category p)
  /\ get_file_category "a.JPG" = get_file_category "a.jpg".
Proof.
  split; [exact get_file_category_label |].
  split; [reflexivity |].
  split.
  { unfold Category_labels.
    repeat (constructor; [simpl; intros H; repeat (destruct H as [H|H]; [discriminate H|]); exact H |]).
    constructor. }
  split.
  { intros p category extensions Hitem Hext. unfold get_file_category.
    now apply (listed_extension_category category extensions). }
  split.
  { intros p Hp. apply get_file_category_Others. now rewrite Hp. }
  split; [intros p _; apply get_file_category_Others |].
  split; [intros p _; split; [apply get_file_category_upper | apply get_file_category_lower] |].
  reflexivity.
Qed.

Lemma get_file_category_total_closed_caseless_witness :
  get_file_category "notes.xyz" = "Others"
  /\ get_file_category "/home/u/Makefile" = "Others"
  /\ get_file_category "/home/u/Slides.KEY" = "PowerPoint"
  /\ get_file_category "/HOME/U/SLIDES.KEY" = get_file_category "/home/u/Slides.KEY".
Proof.
  destruct get_file_category_total_closed_caseless
    as (_ & _ & _ & Hlisted & Hnoext & Hunknown & Hcase & _).
  split; [apply Hunknown; reflexivity |].
  split; [apply Hnoext; reflexivity |].
  split.
  - apply (Hlisted _ "PowerPoint" [".ppt"; ".pptx"; ".odp"; ".key"]).
    + cbn. tauto.
    + cbn. tauto.
  - exact (proj1 (Hcase "/home/u/Slides.KEY" eq_refl)).
Defined.

(** ** The tasks and the first unused name *)

Section EntryPaths.

Lemma is_entry_path_no_trailing p :
  is_entry_path p = true -> Py.endswith p "/" = false.
Proof.
  unfold is_entry_path. intros H. apply andb_prop in H as [H _].
  now apply negb_true_iff in H.
Qed.









End EntryPaths.

Section ResolvedTasks.
Context {C : CryptoLib} {Zp : ZipLib}.
Import EncryptionWorker.



End ResolvedTasks.

Section ExistingFolder.



Lemma is_entry_path_nonempty p : is_entry_path p = true -> p <> "".
Proof. intros H ->. discriminate H. Qed.



End ExistingFolder.

Section OrganizerCopy.
Context {T : TimeLib}.
Import FileOrganizerWorker.



End OrganizerCopy.

Section OrganizerResolved.
Context {T : TimeLib}.
Import FileOrganizerWorker.





End OrganizerResolved.

Section TaskExamples.



End TaskExamples.



(** ** Directory entries when decrypting *)

Section MakeDirsPrefix.

Lemma rstrip_sep_prefix s : exists z, s = posixpath.rstrip_sep s +:+ z.
Proof.
  induction s as [|c r [z IH]]; [now exists "" |].
  cbn [posixpath.rstrip_sep]. destruct (posixpath.rstrip_sep r) as [|c' r'] eqn:E.
  - destruct (Ascii.eqb c "/"); [now exists (String c r) |].
    exists r. now rewrite str_app_cons.
  - exists z. rewrite str_app_cons. now f_equal.
Qed.

Lemma dirname_prefix p : exists z, p = posixpath.dirname p +:+ z.
Proof.
  unfold posixpath.dirname, Py.slice_to.
  pose proof (rfind_bounds "/" p) as Hb.
  replace (Py.rfind "/" p + 1 <? 0)%Z with false by (symmetry; apply Z.ltb_ge; lia).
  set (n := Z.to_nat (Py.rfind "/" p + 1)).
  destruct (_ && _).
  - destruct (rstrip_sep_prefix (Py.take n p)) as [z Hz].
    exists (z +:+ Py.drop n p). rewrite <- str_app_assoc, <- Hz. symmetry. apply str_take_drop.
  - exists (Py.drop n p). symmetry. apply str_take_drop.
Qed.

Lemma makedirs_split_prefix name head tail :
  makedirs_split name = (head, tail) -> exists z, name = head +:+ z.
Proof.
  unfold makedirs_split. destruct (String.eqb (posixpath.basename name) "").
  - intros [= <- _]. destruct (dirname_prefix name) as [z Hz].
    destruct (dirname_prefix (posixpath.dirname name)) as [y Hy].
    exists (y +:+ z). now rewrite <- str_app_assoc, <- Hy.
  - intros [= <- _]. apply dirname_prefix.
Qed.

Lemma makedirs_mkdir_adds_name name exist_ok w k :
  let m' := fs (snd (makedirs_mkdir name exist_ok w)) in
  m' !! k = fs w !! k \/ (fs w !! k = None /\ m' !! k = Some Dir /\ k = name).
Proof.
  cbv zeta. unfold makedirs_mkdir, try_except, os_mkdir.
  destruct (fs w !! name) eqn:En.
  - cbn [is_OSError]. unfold os_path_isdir, get_world, mbind, ST_bind, mret, ST_ret.
    destruct (negb exist_ok || negb (isdir_in (fs w) name)); now left.
  - destruct (check_parent (fs w) name) as [[]|e].
    + cbn [snd fs with_fs]. destruct (decide (k = name)) as [-> | Hne].
      * right. now rewrite lookup_insert_eq.
      * left. now rewrite lookup_insert_ne.
    + destruct (is_OSError e); [| now left].
      unfold os_path_isdir, get_world, mbind, ST_bind, mret, ST_ret.
      destruct (negb exist_ok || negb (isdir_in (fs w) name)); now left.
Qed.

(** What [os.makedirs] adds are directories at paths that [name] starts
    with. *)
Lemma os_makedirs_adds_prefix name exist_ok w k :
  let m' := fs (snd (os_makedirs name exist_ok w)) in
  m' !! k = fs w !! k
  \/ (fs w !! k = None /\ m' !! k = Some Dir /\ exists z, name = k +:+ z).
Proof.
  cbv zeta. funelim (os_makedirs name exist_ok w).
  - clear H0 H1 Heqcall.
    assert (forall w0, fs (snd (makedirs_mkdir name exist_ok w0)) !! k = fs w0 !! k
                       \/ (fs w0 !! k = None
                           /\ fs (snd (makedirs_mkdir name exist_ok w0)) !! k = Some Dir
                           /\ exists z, name = k +:+ z)) as Hmk.
    { intros w0. destruct (makedirs_mkdir_adds_name name exist_ok w0 k)
        as [Hk | (Hk1 & Hk2 & ->)]; [now left |].
      right. split; [exact Hk1 |]. split; [exact Hk2 |]. exists "".
      now rewrite str_app_nil_r. }
    destruct (exists_in (fs w) head_); [apply Hmk |].
    unfold mbind, ST_bind, try_except.
    pose proof (H w k) as Hrec.
    destruct (makedirs_split_prefix _ _ _ Heq) as [y Hy].
    assert (fs (snd (os_makedirs head_ exist_ok w)) !! k = fs w !! k
            \/ (fs w !! k = None
                /\ fs (snd (os_makedirs head_ exist_ok w)) !! k = Some Dir
                /\ exists z, name = k +:+ z)) as Hrec'.
    { destruct Hrec as [Hr | (Hr1 & Hr2 & z & Hz)]; [now left |].
      right. split; [exact Hr1 |]. split; [exact Hr2 |].
      exists (z +:+ y). now rewrite <- str_app_assoc, <- Hz. }
    clear Hrec.
    assert (forall w1,
              (fs w1 !! k = fs w !! k
               \/ (fs w !! k = None /\ fs w1 !! k = Some Dir /\ exists z, name = k +:+ z)) ->
              fs (snd (makedirs_mkdir name exist_ok w1)) !! k = fs w !! k
              \/ (fs w !! k = None
                  /\ fs (snd (makedirs_mkdir name exist_ok w1)) !! k = Some Dir
                  /\ exists z, name = k +:+ z)) as Hthen.
    { intros w1 H1. destruct (Hmk w1) as [Hm | (Hm1 & Hm2 & Hm3)].
      - rewrite Hm. exact H1.
      - destruct H1 as [H1 | (H1 & H1' & _)]; [| congruence].
        right. split; [congruence |]. split; [exact Hm2 | exact Hm3]. }
    destruct (os_makedirs head_ exist_ok w) as [[[]|e] w1]; cbn [snd] in Hrec'.
    + destruct (String.eqb tail_ "."); [exact Hrec' | now apply Hthen].
    + destruct e; cbn; try exact Hrec'.
      destruct (String.eqb tail_ "."); [exact Hrec' | now apply Hthen].
  - destruct (makedirs_mkdir_adds_name name exist_ok w k)
      as [Hk | (Hk1 & Hk2 & ->)]; [now left |].
    right. split; [exact Hk1 |]. split; [exact Hk2 |]. exists "".
    now rewrite str_app_nil_r.
Qed.

Lemma makedirs_mkdir_made name w w1 :
  makedirs_mkdir name true w = (Ok tt, w1) -> fs w1 !! name = Some Dir.
Proof.
  unfold makedirs_mkdir, try_except, os_mkdir.
  destruct (fs w !! name) as [x|] eqn:En.
  - cbn [is_OSError]. unfold os_path_isdir, get_world, mbind, ST_bind, mret, ST_ret.
    destruct (isdir_in (fs w) name) eqn:Ed; cbn; [| discriminate].
    intros [= <-]. unfold isdir_in in Ed. rewrite En in Ed.
    destruct x; [discriminate | exact En].
  - destruct (check_parent (fs w) name) as [[]|e].
    + intros [= <-]. cbn [fs with_fs]. apply lookup_insert_eq.
    + destruct (is_OSError e); [| discriminate].
      unfold os_path_isdir, get_world, mbind, ST_bind, mret, ST_ret.
      unfold isdir_in. rewrite En. cbn. discriminate.
Qed.

(** When [os.makedirs] returns, the directory is there (the last component
    is not [.]). *)
Lemma os_makedirs_made name w w1 :
  posixpath.basename name <> "" -> posixpath.basename name <> "." ->
  os_makedirs name true w = (Ok tt, w1) -> fs w1 !! name = Some Dir.
Proof.
  intros Hb Hdot.
  assert (makedirs_split name = (posixpath.dirname name, posixpath.basename name)) as Hsplit.
  { unfold makedirs_split. apply String.eqb_neq in Hb. now rewrite Hb. }
  revert w1. funelim (os_makedirs name true w); intros w1.
  - assert ((posixpath.dirname name, posixpath.basename name) = (head_, tail_)) as Heq'
      by (rewrite <- Hsplit; exact Heq).
    injection Heq' as <- <-.
    destruct (exists_in (fs w) (posixpath.dirname name)); [apply makedirs_mkdir_made |].
    unfold mbind, ST_bind, try_except.
    apply String.eqb_neq in Hdot. rewrite Hdot.
    destruct (os_makedirs (posixpath.dirname name) true w) as [[[]|e] w2].
    + apply makedirs_mkdir_made.
    + destruct e; cbn; try discriminate. apply makedirs_mkdir_made.
  - apply makedirs_mkdir_made.
Qed.

End MakeDirsPrefix.

Section DirectoryEntries.

Context {C : CryptoLib} {Zp : ZipLib}.
Import EncryptionWorker.

(** [shutil.copy2] of a directory to [<directory>.zip] raises at the opening
    of its source, whatever is at the destination. *)
Lemma copy2_directory_raises input_path w :
  fs w !! input_path = Some Dir ->
  shutil_copy2 input_path (input_path +:+ ".zip") w
  = (Raise (IsADirectoryError input_path), w).
Proof.
  intros Hin. unfold shutil_copy2.
  assert (String.eqb input_path
            (if isdir_in (fs w) (input_path +:+ ".zip")
             then posixpath.join (input_path +:+ ".zip") (posixpath.basename input_path)
             else input_path +:+ ".zip") = false) as E.
  { destruct (isdir_in _ _); [| apply str_neq_app_zip].
    apply String.eqb_neq. intros H. apply (f_equal String.length) in H.
    rewrite join_length in H by apply basename_no_sep.
    rewrite str_length_app in H.
    change (String.length ".zip") with 4 in H. lia. }
  rewrite E. now rewrite Hin.
Qed.

Lemma temp_dir_basename input_path :
  posixpath.basename (input_path +:+ "_temp") <> ""
  /\ posixpath.basename (input_path +:+ "_temp") <> ".".
Proof.
  destruct (dirname_basename_app input_path "_temp" eq_refl) as [_ ->].
  split; intros H; apply (f_equal String.length) in H;
    rewrite str_length_app in H; change (String.length "_temp") with 5 in H;
    cbn [String.length] in H; lia.
Qed.

(** The temporary archive is not among what [os.makedirs] of the temporary
    directory makes. *)
Lemma makedirs_temp_dir_keeps_temp_zip input_path w :
  fs (snd (os_makedirs (input_path +:+ "_temp") true w)) !! (input_path +:+ ".zip")
  = fs w !! (input_path +:+ ".zip").
Proof.
  pose proof (os_makedirs_adds_prefix (input_path +:+ "_temp") true w
                (input_path +:+ ".zip")) as H.
  cbv zeta in H. destruct H as [H | (_ & _ & z & H)]; [exact H | exfalso].
  rewrite str_app_assoc in H. apply str_app_inj_l in H.
  rewrite !str_app_cons in H. discriminate H.
Qed.

(** [_decrypt_directory] on an input that is a directory, once the temporary
    directory is made: the copy raises, the handler wraps the error, and the
    clean-up removes the temporary directory and then whatever is at the place
    of the temporary archive, raising in its turn when that is a directory. *)
Lemma decrypt_directory_of_directory_cases s input_path output_dir w w1 :
  let temp_dir := input_path +:+ "_temp" in
  let temp_zip := input_path +:+ ".zip" in
  os_makedirs temp_dir true w = (Ok tt, w1) ->
  fs w1 !! input_path = Some Dir ->
  fs w1 !! temp_dir = Some Dir ->
  _decrypt_directory s input_path output_dir w
  = let w2 := with_fs (filter (fun kv => under temp_dir (fst kv) = false)) w1 in
    match fs w1 !! temp_zip with
    | Some Dir => (Raise (IsADirectoryError temp_zip), w2)
    | Some (File _ _) =>
        (Raise (ValueError ("Failed to decrypt directory: "
                            +:+ exn_str (IsADirectoryError input_path))),
         with_fs (delete temp_zip) w2)
    | None =>
        (Raise (ValueError ("Failed to decrypt directory: "
                            +:+ exn_str (IsADirectoryError input_path))), w2)
    end.
Proof.
  intros temp_dir temp_zip H1 Hin Htmp.
  unfold _decrypt_directory. fold temp_dir temp_zip.
  rewrite (bind_Ok _ _ _ _ _ H1).
  unfold try_finally, try_except.
  pose proof (copy2_directory_raises input_path w1 Hin) as Hc. fold temp_zip in Hc.
  rewrite (bind_Raise _ _ _ _ _ Hc).
  unfold raise, os_path_exists, get_world, mbind, ST_bind, mret, ST_ret, exists_in.
  rewrite Htmp. unfold shutil_rmtree. rewrite Htmp. cbn [fs with_fs].
  rewrite lookup_filter_under. unfold temp_dir at 1, temp_zip at 1.
  rewrite temp_zip_not_under_temp_dir. fold temp_zip temp_dir.
  destruct (fs w1 !! temp_zip) as [[data t |] |] eqn:Hzip.
  - unfold os_remove. cbn [fs with_fs]. rewrite lookup_filter_under.
    unfold temp_dir at 1, temp_zip at 1.
    rewrite temp_zip_not_under_temp_dir. fold temp_zip temp_dir.
    rewrite Hzip. reflexivity.
  - unfold os_remove. cbn [fs with_fs]. rewrite lookup_filter_under.
    unfold temp_dir at 1, temp_zip at 1.
    rewrite temp_zip_not_under_temp_dir. fold temp_zip temp_dir.
    rewrite Hzip. reflexivity.
  - reflexivity.
Qed.

(** The same call never returns, and what was there before it, outside the
    temporary directory and archive, is there after it. *)
Lemma decrypt_directory_of_directory_keeps s input_path output_dir w :
  fs w !! input_path = Some Dir ->
  exists e w',
    _decrypt_directory s input_path output_dir w = (Raise e, w')
    /\ forall k x,
         fs w !! k = Some x ->
         under (input_path +:+ "_temp") k = false ->
         k <> input_path +:+ ".zip" ->
         fs w' !! k = Some x.
Proof.
  intros Hin.
  destruct (os_makedirs (input_path +:+ "_temp") true w) as [[[] | e0] w1] eqn:H1.
  - pose proof (os_makedirs_keeps _ _ _ _ _ _ _ H1 Hin) as Hin1.
    destruct (temp_dir_basename input_path) as [Hb Hdot].
    pose proof (os_makedirs_made _ _ _ Hb Hdot H1) as Htmp.
    pose proof (decrypt_directory_of_directory_cases s input_path output_dir w w1
                  H1 Hin1 Htmp) as Hrun.
    cbv zeta in Hrun.
    assert (forall k x, fs w !! k = Some x ->
                        under (input_path +:+ "_temp") k = false ->
                        filter (fun kv => under (input_path +:+ "_temp") (fst kv) = false)
                               (fs w1) !! k = Some x) as Hkeep.
    { intros k x Hk Hu. rewrite lookup_filter_under, Hu.
      exact (os_makedirs_keeps _ _ _ _ _ _ _ H1 Hk). }
    destruct (fs w1 !! (input_path +:+ ".zip")) as [[data t |] |];
      eexists _, _; (split; [exact Hrun |]); intros k x Hk Hu Hz; cbn [fs with_fs].
    + rewrite lookup_delete_ne by congruence. now apply Hkeep.
    + now apply Hkeep.
    + now apply Hkeep.
  - exists e0, w1. split.
    + unfold _decrypt_directory. now rewrite (bind_Raise _ _ _ _ _ H1).
    + intros k x Hk _ _. exact (os_makedirs_keeps _ _ _ _ _ _ _ H1 Hk).
Qed.


End DirectoryEntries.

(** X3.  [_decrypt_directory] on an input that is a directory never extracts
    anything: it raises, and against the disk it started from, every entry
    outside the temporary directory and other than the temporary archive is
    as it was, and what is new is a directory on the way to the temporary
    directory.  When the temporary directory could not be made, that error
    is the one raised.  When it was made, it is removed again with all below
    it; the error is [Failed to decrypt directory: [Errno 21] Is a directory:
    '<input>'] and nothing is left at the place of the temporary archive,
    unless a directory was there: then the clean-up raises on it and it
    stays. *)
Theorem directory_entry_is_not_decrypted {C : CryptoLib} {Zp : ZipLib}
    (s : EncryptionWorker.self) (input_path output_dir : string) (w : World) :
  let temp_dir := input_path +:+ "_temp" in
  let temp_zip := input_path +:+ ".zip" in
  fs w !! input_path = Some Dir ->
  exists e w',
    EncryptionWorker._decrypt_directory s input_path output_dir w = (Raise e, w')
    /\ (forall k x,
          fs w !! k = Some x -> under temp_dir k = false -> k <> temp_zip ->
          fs w' !! k = Some x)
    /\ (forall k x,
          fs w' !! k = Some x ->
          fs w !! k = Some x
          \/ (fs w !! k = None /\ x = Dir /\ exists z, temp_dir = k +:+ z))
    /\ match os_makedirs temp_dir true w with
       | (Raise e0, _) => e = e0
       | (Ok _, _) =>
           (forall k, under temp_dir k = true -> fs w' !! k = None)
           /\ match fs w !! temp_zip with
              | Some Dir => e = IsADirectoryError temp_zip /\ fs w' !! temp_zip = Some Dir
              | _ =>
                  e = ValueError ("Failed to decrypt directory: [Errno 21] Is a directory: '"
                                  +:+ input_path +:+ "'")
                  /\ fs w' !! temp_zip = None
              end
       end.
Proof.
  intros temp_dir temp_zip Hin.
  destruct (decrypt_directory_of_directory_keeps s input_path output_dir w Hin)
    as (e & w' & Hrun & Hkeep).
  fold temp_dir temp_zip in Hkeep.
  exists e, w'. split; [exact Hrun |]. split; [exact Hkeep |].
  pose proof (makedirs_temp_dir_keeps_temp_zip input_path w) as Hzip.
  fold temp_dir temp_zip in Hzip.
  assert (forall k x, fs (snd (os_makedirs temp_dir true w)) !! k = Some x ->
            fs w !! k = Some x
            \/ (fs w !! k = None /\ x = Dir /\ exists z, temp_dir = k +:+ z)) as Hnew.
  { intros k x Hk.
    pose proof (os_makedirs_adds_prefix temp_dir true w k) as H. cbv zeta in H.
    destruct H as [H | (Hn & Hd & Hz)]; [left; congruence | right].
    split; [exact Hn |]. split; [congruence | exact Hz]. }
  destruct (os_makedirs temp_dir true w) as [[[] | e0] w1] eqn:H1; cbn [snd] in Hzip, Hnew.
  - pose proof (os_makedirs_keeps _ _ _ _ _ _ _ H1 Hin) as Hin1.
    destruct (temp_dir_basename input_path) as [Hb Hdot].
    pose proof (os_makedirs_made _ _ _ Hb Hdot H1) as Htmp.
    pose proof (decrypt_directory_of_directory_cases s input_path output_dir w w1
                  H1 Hin1 Htmp) as Hcases.
    cbv zeta in Hcases. fold temp_dir temp_zip in Hcases.
    rewrite Hrun in Hcases. rewrite <- Hzip.
    pose proof (temp_zip_not_under_temp_dir input_path) as Hapart.
    fold temp_dir temp_zip in Hapart.
    destruct (fs w1 !! temp_zip) as [[data t |] |] eqn:Ez;
      injection Hcases as -> ->; cbn [fs with_fs].
    + split; [| split; [| split; [reflexivity | apply lookup_delete_eq]]].
      * intros k x Hk. apply Hnew.
        apply lookup_delete_Some in Hk as [_ Hk].
        rewrite lookup_filter_under in Hk. now destruct (under temp_dir k).
      * intros k Hk. destruct (decide (temp_zip = k)) as [<- | Hne];
          [apply lookup_delete_eq |].
        rewrite lookup_delete_ne by exact Hne.
        now rewrite lookup_filter_under, Hk.
    + split; [| split; [| split; [reflexivity |]]].
      * intros k x Hk. apply Hnew.
        rewrite lookup_filter_under in Hk. now destruct (under temp_dir k).
      * intros k Hk. now rewrite lookup_filter_under, Hk.
      * now rewrite lookup_filter_under, Hapart.
    + split; [| split; [| split; [reflexivity |]]].
      * intros k x Hk. apply Hnew.
        rewrite lookup_filter_under in Hk. now destruct (under temp_dir k).
      * intros k Hk. now rewrite lookup_filter_under, Hk.
      * now rewrite lookup_filter_under, Hapart.
  - unfold EncryptionWorker._decrypt_directory in Hrun.
    rewrite (bind_Raise _ _ _ _ _ H1) in Hrun. injection Hrun as <- <-.
    split; [exact Hnew | reflexivity].
Qed.

Lemma directory_entry_is_not_decrypted_witness :
  fs suffixed_directory_world !! "/d/pack.encrypted" = Some Dir
  /\ exists w',
       EncryptionWorker._decrypt_directory (C := Toy.crypto) (Zp := Toy.zip)
         (decrypting ["/d/pack.encrypted"]) "/d/pack.encrypted" "/d/pack"
         suffixed_directory_world
       = (Raise (ValueError
            "Failed to decrypt directory: [Errno 21] Is a directory: '/d/pack.encrypted'"),
          w')
       /\ fs w' !! "/d/pack/old.txt" = Some (File [111]%N 3)
       /\ fs w' !! "/d/pack.encrypted_temp" = None
       /\ fs w' !! "/d/pack.encrypted.zip" = None.
Proof.
  split; [vm_compute; reflexivity |].
  destruct (directory_entry_is_not_decrypted (C := Toy.crypto) (Zp := Toy.zip)
              (decrypting ["/d/pack.encrypted"]) "/d/pack.encrypted" "/d/pack"
              suffixed_directory_world ltac:(vm_compute; reflexivity))
    as (e & w' & Hrun & Hkeep & _ & Hend).
  cbv zeta in Hend.
  assert (os_makedirs ("/d/pack.encrypted" +:+ "_temp") true suffixed_directory_world
          = (Ok tt, snd (os_makedirs "/d/pack.encrypted_temp" true suffixed_directory_world)))
    as H1 by (vm_compute; reflexivity).
  rewrite H1 in Hend. destruct Hend as [Hgone Hzip].
  assert (fs suffixed_directory_world !! ("/d/pack.encrypted" +:+ ".zip") = None) as Ez
    by (vm_compute; reflexivity).
  rewrite Ez in Hzip. destruct Hzip as [-> Hzip].
  exists w'. split; [exact Hrun |].
  split; [| split; [apply Hgone; vm_compute; reflexivity | exact Hzip]].
  apply Hkeep; [vm_compute; reflexivity | vm_compute; reflexivity | discriminate].
Defined.



(** ** The main window on entry paths *)

Section Listing.

Lemma child_name_made root name :
  name <> "" -> has_sep name = false ->
  child_name root (root +:+ "/" +:+ name) = Some name.
Proof.
  intros Hne Hs. unfold child_name.
  rewrite <- str_app_assoc, startswith_app.
  replace (String.length root + 1) with (String.length (root +:+ "/"))
    by (rewrite str_length_app; reflexivity).
  rewrite drop_app_exact.
  apply String.eqb_neq in Hne. rewrite Hne. cbn [orb].
  unfold has_sep in Hs. now rewrite Hs.
Qed.

(** The names [os.listdir] gives are those of the keys one component below
    the path. *)
Lemma os_listdir_spec (m : gmap string node) path name :
  name ∈ os_listdir m path
  <-> name <> "" /\ has_sep name = false /\ is_Some (m !! (path +:+ "/" +:+ name)).
Proof.
  unfold os_listdir. rewrite list_elem_of_omap. split.
  - intros ([k x] & Hin & E). cbn [fst] in E.
    apply child_name_Some in E as (-> & Hne & Hs).
    apply elem_of_map_to_list in Hin. split; [exact Hne |]. split; [exact Hs |].
    now exists x.
  - intros (Hne & Hs & [x Hx]). exists (path +:+ "/" +:+ name, x).
    split; [now apply elem_of_map_to_list |]. cbn [fst]. now apply child_name_made.
Qed.

Lemma join_entry_path path name :
  is_entry_path path = true -> has_sep name = false ->
  posixpath.join path name = path +:+ "/" +:+ name.
Proof.
  intros Hp Hs. rewrite join_no_sep by exact Hs. unfold join_sep.
  rewrite (is_entry_path_no_trailing _ Hp).
  pose proof (is_entry_path_nonempty _ Hp) as Hne. apply String.eqb_neq in Hne.
  now rewrite Hne.
Qed.

End Listing.

(** X15.  Navigating to a directory.  When the text of the path box is ASCII
    and, stripped, is the path of a directory (absolute, in normal form,
    other than the root), [navigate_to_path] replaces the files of the view
    by the entries [os.listdir] gives, each joined to the path and each once:
    these are the paths one component below the directory.  It empties the
    selection and resets the category to All Files and the file/folder
    switches to both.  The search text is not reset: with an empty search
    text every entry is shown, and with ASCII names what is shown is the
    entries whose name, in lower case, contains the search text that was
    there.  The path is then the last entry of the history. *)
Theorem navigate_to_path_lists_the_directory
    (m : gmap string node) (s : MainWindow.self) :
  let path := str_strip (MainWindow.path_input s) in
  is_ascii (MainWindow.path_input s) = true ->
  is_entry_path path = true ->
  isdir_in m path = true ->
  let s' := MainWindow.navigate_to_path m s in
  let v' := MainWindow.file_view s' in
  let search := FileTileView.search_text (MainWindow.file_view s) in
  FileTileView.files v'
  = List.map (fun item => posixpath.join path item) (os_listdir m path)
  /\ (forall f, f ∈ FileTileView.files v'
                <-> exists name, f = path +:+ "/" +:+ name /\ name <> ""
                                 /\ has_sep name = false /\ is_Some (m !! f))
  /\ NoDup (FileTileView.files v')
  /\ FileTileView.selected_files v' = ∅
  /\ FileTileView.current_category v' = "All Files"
  /\ FileTileView.show_files v' = true
  /\ FileTileView.show_folders v' = true
  /\ FileTileView.search_text v' = search
  /\ (search = "" -> FileTileView.filtered_files v' = FileTileView.files v')
  /\ ((forall name, name ∈ os_listdir m path -> is_ascii name = true) ->
      FileTileView.filtered_files v'
      = (if String.eqb search "" then FileTileView.files v'
         else List.filter (fun f => str_in search (Py.lower (posixpath.basename f)))
                          (FileTileView.files v')))
  /\ last (MainWindow.path_history s') = Some path.
Proof.
  intros path _ Hentry Hdir. cbv zeta.
  pose proof (is_entry_path_nonempty _ Hentry) as Hne.
  destruct (navigate_to_path_directory m s Hne Hdir) as [Hview Hlast]. fold path in Hview.
  rewrite Hview. clear Hview.
  set (items := List.map (fun item => posixpath.join path item) (os_listdir m path)).
  assert (NoDup items) as Hnd by apply items_NoDup.
  destruct (add_files_cleared m items (MainWindow.file_view s) Hnd) as (Hf1 & Hs1 & Hq1).
  set (v1 := FileTileView.add_files m items (FileTileView.clear (MainWindow.file_view s)))
    in *.
  destruct (set_category_filter_fields m "All Files" v1) as (Hf2 & Hs2 & Hc2 & Hq2).
  set (v2 := FileTileView.set_category_filter m "All Files" v1) in *.
  destruct (set_file_folder_filter_fields m true true v2)
    as (Hf3 & Hs3 & Hc3 & Hq3 & Hsf & Hsd).
  pose proof (set_file_folder_filter_all m v2 Hc2) as Hshown.
  cbv zeta in *.
  set (v3 := FileTileView.set_file_folder_filter m true true v2) in *.
  assert (FileTileView.files v3 = items) as Hfiles by congruence.
  assert (FileTileView.search_text v2
          = FileTileView.search_text (MainWindow.file_view s)) as Hsearch by congruence.
  assert (FileTileView.filtered_files v3
          = (if String.eqb (FileTileView.search_text (MainWindow.file_view s)) ""
             then items
             else List.filter
                    (fun f => str_in (FileTileView.search_text (MainWindow.file_view s))
                                     (Py.lower (posixpath.basename f)))
                    items)) as Hfiltered
    by (rewrite Hshown, Hsearch; now rewrite Hf2, Hf1).
  rewrite Hfiles. split; [reflexivity |].
  split.
  { intros f. unfold items. rewrite list_elem_of_fmap. split.
    - intros (name & -> & Hin). apply os_listdir_spec in Hin as (Hn & Hs & Hx).
      rewrite (join_entry_path _ _ Hentry Hs). now exists name.
    - intros (name & -> & Hn & Hs & Hx). exists name.
      split; [symmetry; now apply join_entry_path |].
      now apply os_listdir_spec. }
  split; [exact Hnd |].
  split; [congruence |]. split; [congruence |]. split; [exact Hsf |].
  split; [exact Hsd |]. split; [congruence |].
  split; [intros E; rewrite Hfiltered, E; reflexivity |].
  split; [intros _; exact Hfiltered | exact Hlast].
Qed.

Lemma navigate_to_path_lists_the_directory_witness :
  let s := MainWindow.path_input_setText " /d " MainWindow.__init__ in
  is_ascii (MainWindow.path_input s) = true
  /\ is_entry_path (str_strip (MainWindow.path_input s)) = true
  /\ isdir_in (fs codec_world) (str_strip (MainWindow.path_input s)) = true
  /\ FileTileView.files (MainWindow.file_view (MainWindow.navigate_to_path (fs codec_world) s))
     = List.map (fun item => posixpath.join "/d" item) (os_listdir (fs codec_world) "/d")
  /\ "/d/hello.txt"
       ∈ FileTileView.files
           (MainWindow.file_view (MainWindow.navigate_to_path (fs codec_world) s))
  /\ last (MainWindow.path_history (MainWindow.navigate_to_path (fs codec_world) s))
     = Some "/d".
Proof.
  cbv zeta.
  split; [reflexivity |]. split; [reflexivity |]. split; [reflexivity |].
  destruct (navigate_to_path_lists_the_directory (fs codec_world)
              (MainWindow.path_input_setText " /d " MainWindow.__init__)
              ltac:(reflexivity) ltac:(reflexivity) ltac:(reflexivity))
    as (H1 & Hin & _ & _ & _ & _ & _ & _ & _ & _ & H2).
  split; [exact H1 |]. split; [| exact H2].
  apply Hin. exists "hello.txt". split; [reflexivity |]. split; [discriminate |].
  split; [reflexivity |]. vm_compute. eexists. reflexivity.
Defined.

(** X17.  Deleting touches only what was selected, for selected paths that
    are absolute, in normal form and other than the root.  Answered with No,
    the confirmation leaves the disk and the view as they were.  Otherwise
    every selected path is gone afterwards, whether it was a file, a
    directory or not there; nothing is created or changed; and every entry
    that is neither a selected path nor below one is kept. *)
Theorem delete_selected_file_touches_only_the_selection
    (listed : list string) (response_No : bool) (s : MainWindow.self) (w : World) :
  let targets := deletion_targets listed s in
  (forall p, p ∈ targets -> is_entry_path p = true) ->
  let s' := fst (MainWindow.delete_selected_file listed response_No s w) in
  let w' := snd (MainWindow.delete_selected_file listed response_No s w) in
  (response_No = true -> w' = w /\ MainWindow.file_view s' = MainWindow.file_view s)
  /\ (response_No = false -> forall p, p ∈ targets -> exists_in (fs w') p = false)
  /\ (forall k x, fs w' !! k = Some x -> fs w !! k = Some x)
  /\ (forall k, (forall p, p ∈ targets -> under p k = false) -> fs w' !! k = fs w !! k).
Proof.
  cbv zeta. intros _. unfold MainWindow.delete_selected_file, deletion_targets.
  set (chosen := match listed with
                 | [] => match MainWindow.selected_file s with
                         | Some file_path => Some [file_path]
                         | None => None
                         end
                 | _ :: _ => Some listed
                 end).
  set (targets := match listed with
                  | [] => match MainWindow.selected_file s with
                          | Some file_path => [file_path]
                          | None => []
                          end
                  | _ :: _ => listed
                  end).
  assert (chosen = None /\ targets = [] \/ chosen = Some targets) as [[-> ->] | ->].
  { unfold chosen, targets. destruct listed; [| now right].
    destruct (MainWindow.selected_file s); [now right | now left]. }
  - cbn [fst snd]. split; [now split |]. split; [| now split].
    intros _ p Hp. now apply elem_of_nil in Hp.
  - destruct response_No.
    + cbn [fst snd]. split; [now split |]. split; [discriminate |]. now split.
    + split; [discriminate |].
      set (boxed := MainWindow.QMessageBox _ _ _ s).
      destruct (delete_selected_file_loop_spec targets 0 boxed w) as (Hsub & Hframe & Hgone).
      destruct (MainWindow.delete_selected_file_loop targets 0 boxed w)
        as [[deleted_count s1] w1]. cbn [snd] in Hsub, Hframe, Hgone.
      destruct (0 <? deleted_count); cbn [snd]; (split; [intros _; exact Hgone |]);
        (split; [exact Hsub | exact Hframe]).
Qed.

Lemma delete_selected_file_touches_only_the_selection_witness :
  let w' := snd (MainWindow.delete_selected_file ["/d/pack"] false MainWindow.__init__
                   suffixed_directory_world) in
  is_entry_path "/d/pack" = true
  /\ exists_in (fs w') "/d/pack" = false
  /\ fs w' !! "/d/pack/old.txt" = None
  /\ fs w' !! "/d/pack.encrypted/x.txt.encrypted" = Some (File [1; 2; 3]%N 9).
Proof.
  cbv zeta. split; [reflexivity |].
  destruct (delete_selected_file_touches_only_the_selection ["/d/pack"] false
              MainWindow.__init__ suffixed_directory_world) as (_ & Hgone & Hsub & Hframe).
  - intros p Hp. apply list_elem_of_singleton in Hp. subst p. reflexivity.
  - split; [apply Hgone; [reflexivity | now left] |].
    split.
    + destruct (fs (snd (MainWindow.delete_selected_file ["/d/pack"] false
                           MainWindow.__init__ suffixed_directory_world))
                  !! "/d/pack/old.txt") as [x|] eqn:E; [exfalso | reflexivity].
      vm_compute in E. discriminate E.
    + rewrite Hframe; [vm_compute; reflexivity |].
      intros p Hp. apply list_elem_of_singleton in Hp. subst p. reflexivity.
Defined.
